(** * Eco5 backend: validation, authentication guard and CRUD handlers

    A shallow embedding of [backend/schema.ts] (the zod schemas and the SQL
    data definition that follows them) and of [backend/server.ts] (the
    Express application: middleware, the authentication guard, the route
    table in registration order and every handler), followed by the
    properties of the specification that concern them.

    Conventions.
    - A JavaScript value is a [JsVal]; [undefined] is the [None] of an
      [option JsVal]; a JavaScript object is a finite map from field names.
    - A text is held as the bytes of its UTF-8 form.
    - A request is taken where [cors], [express.json] and [morgan] hand it
      on: it has one of the five methods that the routes use, its body is
      parsed, and of its headers only [Authorization] is kept. Its path is
      the list of the segments between the slashes ([/] is the empty list, a
      path that ends with a slash ends with an empty segment), free of
      percent escapes.
    - A database row, as the [pg] driver hands it to the handlers, is an
      object whose fields are the columns of the row.
    - The libraries the server imports ([zod]'s e-mail pattern, [jsonwebtoken],
      the [Date] parser and printer, the driver's parameter serialiser) are
      not part of the repository: they are the fields of a [Runtime].
    - [randomUUID()] and [new Date()] are read from the [Env] of the request.

    Limits of the model.
    - The store always answers: a failed connection or a pool that is
      exhausted is not modelled; the only errors the store raises are the
      violations of the constraints declared in the data definition.
    - A request reads the clock once; requests are handled one at a time.
    - [toLowerCase] changes the ASCII letters only; [ORDER BY] on text
      compares bytes; a table without [ORDER BY] is read in insertion order.
    - What Express answers before a request reaches the static files and the
      routes (a preflight, a body that [express.json] refuses), what it
      answers to a conditional or a range request, and the 400 it answers
      when the parameter of a route holds a malformed percent escape are not
      modelled.
    - The files under public/ can be read, and their names are compared as
      they are written. *)

From stdpp Require Import gmap strings list fin_maps.
From Stdlib Require Import ZArith QArith Ascii Sorted.

#[local] Set Warnings "-register-all".
#[local] Open Scope Z_scope.

(* ===================================================================== *)
(** ** JavaScript values *)
(* ===================================================================== *)

Inductive JsVal : Type :=
  | JNull
  | JBool (b : bool)
  | JNum (n : Q)
  | JStr (s : string)
  | JDate (ms : Z)                      (* a valid [Date], milliseconds since the epoch *)
  | JArr (xs : list JsVal)
  | JObj (fields : gmap string JsVal).

Abbreviation Obj := (gmap string JsVal).

(** Truthiness, as used by [if (x)], [!x] and [a && b]. *)
Definition truthy (v : option JsVal) : bool :=
  match v with
  | None | Some JNull => false
  | Some (JBool b) => b
  | Some (JNum n) => negb (Qeq_bool n 0)
  | Some (JStr s) => negb (String.eqb s "")
  | Some (JDate _) | Some (JArr _) | Some (JObj _) => true
  end.

(** [x !== undefined] *)
Definition defined (v : option JsVal) : bool :=
  match v with Some _ => true | None => false end.

(** [{...o, k: v}] where [v] may be [undefined]: a field holding [undefined]
    is dropped when the object is serialised. *)
Definition spread_with (o : Obj) (k : string) (v : option JsVal) : Obj :=
  match v with
  | Some x => <[k := x]> o
  | None => delete k o
  end.

(** *** Strings

    A text is held as the bytes of its UTF-8 form. *)

Definition lower_ascii (c : ascii) : ascii :=
  let n := nat_of_ascii c in
  if ((65 <=? n) && (n <=? 90))%nat then ascii_of_nat (n + 32) else c.

(** [String.prototype.toLowerCase] on the ASCII letters. *)
Fixpoint toLowerCase (s : string) : string :=
  match s with
  | EmptyString => EmptyString
  | String c r => String (lower_ascii c) (toLowerCase r)
  end.

(** The white space of ECMAScript ([WhiteSpace] and [LineTerminator]), by
    the bytes of each code point: one byte for U+0009 to U+000D and U+0020,
    two for U+00A0, three for the others. *)
Definition white1 (a : ascii) : bool := Ascii.is_space a.

Definition white2 (a b : ascii) : bool :=
  ((nat_of_ascii a =? 194) && (nat_of_ascii b =? 160))%nat.      (* U+00A0 *)

Definition white3 (a b c : ascii) : bool :=
  let x := nat_of_ascii a in
  let y := nat_of_ascii b in
  let z := nat_of_ascii c in
  ((x =? 225) && (y =? 154) && (z =? 128)                        (* U+1680 *)
   || (x =? 226) && (y =? 128)
      && ((128 <=? z) && (z <=? 138)                              (* U+2000 to U+200A *)
          || (z =? 168) || (z =? 169)                             (* U+2028, U+2029 *)
          || (z =? 175))                                          (* U+202F *)
   || (x =? 226) && (y =? 129) && (z =? 159)                      (* U+205F *)
   || (x =? 227) && (y =? 128) && (z =? 128)                      (* U+3000 *)
   || (x =? 239) && (y =? 187) && (z =? 191))%nat.                (* U+FEFF *)

(** The text without the code points at its head that the three tests take
    for white space. *)
Fixpoint strip (w1 : ascii -> bool) (w2 : ascii -> ascii -> bool)
    (w3 : ascii -> ascii -> ascii -> bool) (s : string) : string :=
  match s with
  | EmptyString => EmptyString
  | String a r =>
      if w1 a then strip w1 w2 w3 r
      else
        match r with
        | EmptyString => s
        | String b r' =>
            if w2 a b then strip w1 w2 w3 r'
            else
              match r' with
              | EmptyString => s
              | String c r'' => if w3 a b c then strip w1 w2 w3 r'' else s
              end
        end
  end.

Definition trimStart (s : string) : string := strip white1 white2 white3 s.

(** At the end of the text the bytes of a code point are met last to
    first. *)
Definition trimEnd (s : string) : string :=
  String.rev (strip white1 (λ b a, white2 a b) (λ c b a, white3 a b c)
                (String.rev s)).

(** [String.prototype.trim] *)
Definition trim (s : string) : string := trimEnd (trimStart s).

(** [s.split(sep)] for a one-character separator. *)
Fixpoint split_go (sep : ascii) (cur : string) (s : string) : list string :=
  match s with
  | EmptyString => [String.rev cur]
  | String c r =>
      if Ascii.eqb c sep then String.rev cur :: split_go sep EmptyString r
      else split_go sep (String c cur) r
  end.

Definition split (sep : ascii) (s : string) : list string :=
  split_go sep EmptyString s.

(** A text without the given character. *)
Fixpoint free_of (c : ascii) (s : string) : bool :=
  match s with
  | EmptyString => true
  | String d r => negb (Ascii.eqb d c) && free_of c r
  end.


Fixpoint starts_with (p s : string) : bool :=
  match p, s with
  | EmptyString, _ => true
  | String a p', String b s' => Ascii.eqb a b && starts_with p' s'
  | String _ _, EmptyString => false
  end.

(* ===================================================================== *)
(** ** Exceptions *)
(* ===================================================================== *)

(** What the handlers can see thrown. Only [error.name] is inspected by the
    code; the message and the stack are copied into [details] in
    development mode. *)
Inductive JsError : Type :=
  | ZodError (issues : list string)      (* the paths of the offending fields *)
  | JwtError (name : string)             (* thrown by [jwt.verify] *)
  | DatabaseError (detail : string)      (* thrown by [client.query] *)
  | TypeError (detail : string).

Definition error_name (e : JsError) : string :=
  match e with
  | ZodError _ => "ZodError"
  | JwtError n => n
  | DatabaseError _ => "error"
  | TypeError _ => "TypeError"
  end.

Inductive Result (A : Type) : Type :=
  | Ok (a : A)
  | Throw (e : JsError).
Arguments Ok {A} a.
Arguments Throw {A} e.

(* ===================================================================== *)
(** ** The libraries the server imports *)
(* ===================================================================== *)

Record Runtime : Type := {
  (** zod's pattern behind [z.string().email()] *)
  is_email : string -> bool;
  (** [new Date(v)] for a defined [v]; [None] is the Invalid Date *)
  Date_new : JsVal -> option Z;
  (** [Date.prototype.toISOString] *)
  toISOString : Z -> string;
  (** [jwt.sign(payload, JWT_SECRET, { expiresIn: '7d' })] at a given time *)
  jwt_sign : Obj -> Z -> string;
  (** [jwt.verify(token, JWT_SECRET)] at a given time: the decoded payload,
      or the error thrown for a forged, malformed or expired token *)
  jwt_verify : string -> Z -> Result Obj;
  (** the driver's text form of a query parameter that is not a string *)
  prepareValue : JsVal -> string;
  (** [error.message] and [error.stack] *)
  error_message : JsError -> string;
  error_stack : JsError -> string
}.

(** The process environment and the deployed files. *)
Record Config : Type := {
  development : bool;                     (* NODE_ENV === 'development' *)
  public_files : list (list string);      (* the files under public/ *)
  public_dirs : list (list string)        (* its directories; [[]] is public/ *)
}.

(** What one request reads from the outside world. *)
Record Env : Type := {
  now : Z;                                (* new Date() *)
  uuid : string                           (* randomUUID() *)
}.

(* ===================================================================== *)
(** ** zod *)
(* ===================================================================== *)

Module z.

Inductive StringCheck := email | min (n : nat).
Inductive NumberCheck := int | positive | nonnegative.

Inductive Schema : Type :=
  | string (checks : list StringCheck)
  | number (checks : list NumberCheck)
  | boolean
  | coerce_date
  | enum (alternatives : list String.string)
  | optional (s : Schema)
  | nullable (s : Schema)
  | default (s : Schema) (d : JsVal).

(** [z.object({...})]: the shape, in declaration order. Unknown keys of the
    input are stripped (zod's default for objects). *)
Definition object := list (String.string * Schema).

Definition string_check (rt : Runtime) (s : String.string) (c : StringCheck) : bool :=
  match c with
  | email => is_email rt s
  | min n => (n <=? String.length s)%nat
  end.

Definition is_integer (q : Q) : bool := (Qnum q mod Zpos (Qden q) =? 0)%Z.

Definition number_check (q : Q) (c : NumberCheck) : bool :=
  match c with
  | int => is_integer q
  | positive => (0 <? Qnum q)%Z
  | nonnegative => (0 <=? Qnum q)%Z
  end.

(** Parsing one value. The input and the output may be [undefined];
    [None] as a result is a validation issue. *)
Fixpoint parse_value (rt : Runtime) (s : Schema) (input : option JsVal)
    : option (option JsVal) :=
  match s with
  | string checks =>
      match input with
      | Some (JStr x) =>
          if forallb (string_check rt x) checks then Some (Some (JStr x)) else None
      | _ => None
      end
  | number checks =>
      match input with
      | Some (JNum q) =>
          if forallb (number_check q) checks then Some (Some (JNum q)) else None
      | _ => None
      end
  | boolean =>
      match input with
      | Some (JBool b) => Some (Some (JBool b))
      | _ => None
      end
  | coerce_date =>
      (* new Date(undefined) is the Invalid Date *)
      match input with
      | None => None
      | Some v =>
          match Date_new rt v with
          | Some ms => Some (Some (JDate ms))
          | None => None
          end
      end
  | enum alternatives =>
      match input with
      | Some (JStr x) =>
          if bool_decide (x ∈ alternatives) then Some (Some (JStr x)) else None
      | _ => None
      end
  | optional s' =>
      match input with
      | None => Some None
      | Some _ => parse_value rt s' input
      end
  | nullable s' =>
      match input with
      | Some JNull => Some (Some JNull)
      | _ => parse_value rt s' input
      end
  | default s' d =>
      match input with
      | None => parse_value rt s' (Some d)
      | Some _ => parse_value rt s' input
      end
  end.

(** The fields of the shape, each parsed from the input object: the
    normalised object so far and the issues so far. *)
Fixpoint parse_fields (rt : Runtime) (shape : object) (input : Obj)
    : Obj * list String.string :=
  match shape with
  | [] => (∅, [])
  | (key, s) :: rest =>
      let '(out, issues) := parse_fields rt rest input in
      match parse_value rt s (input !! key) with
      | Some (Some v) => (<[key := v]> out, issues)
      | Some None => (out, issues)
      | None => (out, key :: issues)
      end
  end.

(** [schema.parse(data)] *)
Definition parse (rt : Runtime) (shape : object) (data : JsVal) : Result Obj :=
  match data with
  | JObj input =>
      match parse_fields rt shape input with
      | (out, []) => Ok out
      | (_, issues) => Throw (ZodError issues)
      end
  | _ => Throw (ZodError [""])
  end.

End z.

(* ===================================================================== *)
(** ** backend/schema.ts: the input schemas the server imports *)
(* ===================================================================== *)

Definition createUserInputSchema : z.object := [
  ("email", z.string [z.email]);
  ("name", z.string [z.min 1]);
  ("password_hash", z.string [z.min 1])
].

Definition updateUserInputSchema : z.object := [
  ("id", z.string []);
  ("email", z.optional (z.string [z.email]));
  ("name", z.optional (z.string [z.min 1]));
  ("password_hash", z.optional (z.string [z.min 1]))
].

Definition searchUserInputSchema : z.object := [
  ("query", z.optional (z.string []));
  ("limit", z.default (z.number [z.int; z.positive]) (JNum 10));
  ("offset", z.default (z.number [z.int; z.nonnegative]) (JNum 0));
  ("sort_by", z.default (z.enum ["name"; "created_at"]) (JStr "created_at"));
  ("sort_order", z.default (z.enum ["asc"; "desc"]) (JStr "desc"))
].

Definition updateUserDashboardInputSchema : z.object := [
  ("user_id", z.string []);
  ("carbon_footprint", z.optional (z.number []));
  ("historical_data", z.optional (z.nullable (z.string [])));
  ("daily_tips", z.optional (z.nullable (z.string [])));
  ("challenges", z.optional (z.nullable (z.string [])))
].

Definition updateImpactCalculatorInputSchema : z.object := [
  ("id", z.string []);
  ("user_id", z.optional (z.string []));
  ("travel_habits", z.optional (z.nullable (z.string [])));
  ("energy_consumption", z.optional (z.nullable (z.string [])));
  ("waste_management", z.optional (z.nullable (z.string [])))
].

Definition createEcoCommunityForumInputSchema : z.object := [
  ("user_id", z.string []);
  ("thread_title", z.string [z.min 1]);
  ("content", z.string [z.min 1]);
  ("created_at", z.coerce_date)          (* Assuming created_at is provided as input *)
].

Definition updateEcoCommunityForumInputSchema : z.object := [
  ("id", z.string []);
  ("user_id", z.optional (z.string []));
  ("thread_title", z.optional (z.string [z.min 1]));
  ("content", z.optional (z.string [z.min 1]));
  ("created_at", z.optional z.coerce_date)
].

Definition createEventInputSchema : z.object := [
  ("event_name", z.string []);
  ("event_date", z.coerce_date);
  ("location", z.nullable (z.string []));
  ("organizer_id", z.string [])
].

Definition updateEventInputSchema : z.object := [
  ("id", z.string []);
  ("event_name", z.optional (z.string []));
  ("event_date", z.optional z.coerce_date);
  ("location", z.optional (z.nullable (z.string [])));
  ("organizer_id", z.optional (z.string []))
].

Definition createResourceLibraryInputSchema : z.object := [
  ("content_type", z.string []);
  ("title", z.string []);
  ("description", z.nullable (z.string []));
  ("content_url", z.nullable (z.string []));
  ("author_id", z.string [])
].

Definition updateResourceLibraryInputSchema : z.object := [
  ("id", z.string []);
  ("content_type", z.optional (z.string []));
  ("title", z.optional (z.string []));
  ("description", z.optional (z.nullable (z.string [])));
  ("content_url", z.optional (z.nullable (z.string [])));
  ("author_id", z.optional (z.string []))
].

Definition createAlertInputSchema : z.object := [
  ("user_id", z.string []);
  ("alert_type", z.string []);
  ("message", z.string []);
  ("created_at", z.coerce_date)          (* Assuming created_at is provided as input *)
].

Definition updateAlertInputSchema : z.object := [
  ("id", z.string []);
  ("user_id", z.optional (z.string []));
  ("alert_type", z.optional (z.string []));
  ("message", z.optional (z.string []));
  ("created_at", z.optional z.coerce_date)
].

Definition updateAuthenticationInputSchema : z.object := [
  ("auth_token", z.string []);
  ("user_id", z.optional (z.string []));
  ("is_authenticated", z.optional z.boolean);
  ("is_loading", z.optional z.boolean);
  ("error_message", z.optional (z.nullable (z.string [])))
].

(* ===================================================================== *)
(** ** The relational store *)
(* ===================================================================== *)

(** The tables of the data definition that the server reads or writes (the
    [authentication] table is never touched by [server.ts]). *)
Inductive Table : Type :=
  | users | user_dashboards | impact_calculators | eco_community_forum
  | events | resource_library | alerts.

Global Instance Table_eq_dec : EqDecision Table.
Proof. solve_decision. Defined.

Inductive ColType : Type := VARCHAR | NUMERIC.    (* TEXT behaves as VARCHAR *)

Record TableDef : Type := {
  columns : list (string * ColType);
  primary_key : string;
  unique : list string;
  not_null : list string;
  references : list (string * (Table * string))
}.

(** The [CREATE TABLE] statements. *)
Definition ddl (t : Table) : TableDef :=
  match t with
  | users => {|
      columns := [("id", VARCHAR); ("email", VARCHAR); ("name", VARCHAR);
                  ("created_at", VARCHAR); ("password_hash", VARCHAR)];
      primary_key := "id";
      unique := ["email"];
      not_null := ["id"; "email"; "name"; "created_at"; "password_hash"];
      references := [] |}
  | user_dashboards => {|
      columns := [("user_id", VARCHAR); ("carbon_footprint", NUMERIC);
                  ("historical_data", VARCHAR); ("daily_tips", VARCHAR);
                  ("challenges", VARCHAR)];
      primary_key := "user_id";
      unique := [];
      not_null := ["user_id"; "carbon_footprint"];
      references := [("user_id", (users, "id"))] |}
  | impact_calculators => {|
      columns := [("id", VARCHAR); ("user_id", VARCHAR); ("travel_habits", VARCHAR);
                  ("energy_consumption", VARCHAR); ("waste_management", VARCHAR)];
      primary_key := "id";
      unique := [];
      not_null := ["id"; "user_id"];
      references := [("user_id", (users, "id"))] |}
  | eco_community_forum => {|
      columns := [("id", VARCHAR); ("user_id", VARCHAR); ("thread_title", VARCHAR);
                  ("content", VARCHAR); ("created_at", VARCHAR)];
      primary_key := "id";
      unique := [];
      not_null := ["id"; "user_id"; "thread_title"; "content"; "created_at"];
      references := [("user_id", (users, "id"))] |}
  | events => {|
      columns := [("id", VARCHAR); ("event_name", VARCHAR); ("event_date", VARCHAR);
                  ("location", VARCHAR); ("organizer_id", VARCHAR)];
      primary_key := "id";
      unique := [];
      not_null := ["id"; "event_name"; "event_date"; "organizer_id"];
      references := [("organizer_id", (users, "id"))] |}
  | resource_library => {|
      columns := [("id", VARCHAR); ("content_type", VARCHAR); ("title", VARCHAR);
                  ("description", VARCHAR); ("content_url", VARCHAR);
                  ("author_id", VARCHAR)];
      primary_key := "id";
      unique := [];
      not_null := ["id"; "content_type"; "title"; "author_id"];
      references := [("author_id", (users, "id"))] |}
  | alerts => {|
      columns := [("id", VARCHAR); ("user_id", VARCHAR); ("alert_type", VARCHAR);
                  ("message", VARCHAR); ("created_at", VARCHAR)];
      primary_key := "id";
      unique := [];
      not_null := ["id"; "user_id"; "alert_type"; "message"; "created_at"];
      references := [("user_id", (users, "id"))] |}
  end.

(** The stored rows, per table, in insertion order. *)
Record Db : Type := {
  tbl_users : list Obj;
  tbl_user_dashboards : list Obj;
  tbl_impact_calculators : list Obj;
  tbl_eco_community_forum : list Obj;
  tbl_events : list Obj;
  tbl_resource_library : list Obj;
  tbl_alerts : list Obj
}.

Definition rows_of (t : Table) (db : Db) : list Obj :=
  match t with
  | users => tbl_users db
  | user_dashboards => tbl_user_dashboards db
  | impact_calculators => tbl_impact_calculators db
  | eco_community_forum => tbl_eco_community_forum db
  | events => tbl_events db
  | resource_library => tbl_resource_library db
  | alerts => tbl_alerts db
  end.

Definition with_rows (t : Table) (rows : list Obj) (db : Db) : Db :=
  match t with
  | users => {| tbl_users := rows;
                tbl_user_dashboards := tbl_user_dashboards db;
                tbl_impact_calculators := tbl_impact_calculators db;
                tbl_eco_community_forum := tbl_eco_community_forum db;
                tbl_events := tbl_events db;
                tbl_resource_library := tbl_resource_library db;
                tbl_alerts := tbl_alerts db |}
  | user_dashboards => {| tbl_users := tbl_users db;
                tbl_user_dashboards := rows;
                tbl_impact_calculators := tbl_impact_calculators db;
                tbl_eco_community_forum := tbl_eco_community_forum db;
                tbl_events := tbl_events db;
                tbl_resource_library := tbl_resource_library db;
                tbl_alerts := tbl_alerts db |}
  | impact_calculators => {| tbl_users := tbl_users db;
                tbl_user_dashboards := tbl_user_dashboards db;
                tbl_impact_calculators := rows;
                tbl_eco_community_forum := tbl_eco_community_forum db;
                tbl_events := tbl_events db;
                tbl_resource_library := tbl_resource_library db;
                tbl_alerts := tbl_alerts db |}
  | eco_community_forum => {| tbl_users := tbl_users db;
                tbl_user_dashboards := tbl_user_dashboards db;
                tbl_impact_calculators := tbl_impact_calculators db;
                tbl_eco_community_forum := rows;
                tbl_events := tbl_events db;
                tbl_resource_library := tbl_resource_library db;
                tbl_alerts := tbl_alerts db |}
  | events => {| tbl_users := tbl_users db;
                tbl_user_dashboards := tbl_user_dashboards db;
                tbl_impact_calculators := tbl_impact_calculators db;
                tbl_eco_community_forum := tbl_eco_community_forum db;
                tbl_events := rows;
                tbl_resource_library := tbl_resource_library db;
                tbl_alerts := tbl_alerts db |}
  | resource_library => {| tbl_users := tbl_users db;
                tbl_user_dashboards := tbl_user_dashboards db;
                tbl_impact_calculators := tbl_impact_calculators db;
                tbl_eco_community_forum := tbl_eco_community_forum db;
                tbl_events := tbl_events db;
                tbl_resource_library := rows;
                tbl_alerts := tbl_alerts db |}
  | alerts => {| tbl_users := tbl_users db;
                tbl_user_dashboards := tbl_user_dashboards db;
                tbl_impact_calculators := tbl_impact_calculators db;
                tbl_eco_community_forum := tbl_eco_community_forum db;
                tbl_events := tbl_events db;
                tbl_resource_library := tbl_resource_library db;
                tbl_alerts := rows |}
  end.

Module sql.

(** A query parameter as text: [undefined] and [null] are SQL NULL. *)
Definition param_text (rt : Runtime) (p : option JsVal) : option string :=
  match p with
  | None | Some JNull => None
  | Some (JStr s) => Some s
  | Some v => Some (prepareValue rt v)
  end.

(** A stored text cell; NULL has no text. *)
Definition cell_text (c : option JsVal) : option string :=
  match c with
  | Some (JStr s) => Some s
  | _ => None
  end.

(** [col = $n] on a text column: never true when either side is NULL. *)
Definition eq_param (rt : Runtime) (col : string) (p : option JsVal) (row : Obj) : bool :=
  match cell_text (row !! col), param_text rt p with
  | Some a, Some b => String.eqb a b
  | _, _ => false
  end.

(** A parameter as the cell it becomes in a column of the given type. The
    server only ever sends numbers to the NUMERIC column. *)
Definition store (rt : Runtime) (ty : ColType) (p : option JsVal) : Result JsVal :=
  match p with
  | None | Some JNull => Ok JNull
  | Some v =>
      match ty, v with
      | VARCHAR, JStr s => Ok (JStr s)
      | VARCHAR, _ => Ok (JStr (prepareValue rt v))
      | NUMERIC, JNum q => Ok (JNum q)
      | NUMERIC, _ => Throw (DatabaseError "invalid input syntax for type numeric")
      end
  end.

Definition col_type (def : TableDef) (col : string) : ColType :=
  match list_find (λ c, bool_decide (c.1 = col)) (columns def) with
  | Some (_, (_, ty)) => ty
  | None => VARCHAR
  end.

Definition col_values (col : string) (rows : list Obj) : list string :=
  omap (λ r : Obj, cell_text (r !! col)) rows.

(** *** Constraints *)

Definition check_not_null (def : TableDef) (row : Obj) : bool :=
  forallb (λ c, match row !! c with
                | None | Some JNull => false
                | Some _ => true
                end) (not_null def).

Definition check_unique (def : TableDef) (rows : list Obj) : bool :=
  forallb (λ c, bool_decide (NoDup (col_values c rows)))
          (primary_key def :: unique def).

Definition check_references (db : Db) (def : TableDef) (row : Obj) : bool :=
  forallb (λ fk : string * (Table * string),
             match cell_text (row !! fk.1) with
             | Some v => bool_decide (v ∈ col_values fk.2.2 (rows_of fk.2.1 db))
             | None => true
             end) (references def).

(** The table after a write is accepted when the written rows satisfy NOT
    NULL and their foreign keys, and the keys of the table stay unique. *)
Definition accept (t : Table) (written : list Obj) (rows' : list Obj) (db : Db)
    : Result Db :=
  if negb (forallb (check_not_null (ddl t)) written) then
    Throw (DatabaseError "null value violates not-null constraint")
  else if negb (check_unique (ddl t) rows') then
    Throw (DatabaseError "duplicate key value violates unique constraint")
  else if negb (forallb (check_references db (ddl t)) written) then
    Throw (DatabaseError "violates foreign key constraint")
  else Ok (with_rows t rows' db).

(** *** Statements *)

(** [SELECT * FROM t WHERE col = $1] *)
Definition select_where (rt : Runtime) (t : Table) (col : string)
    (p : option JsVal) (db : Db) : list Obj :=
  filter (λ r, eq_param rt col p r = true) (rows_of t db).

(** the column list of a [SELECT] or a [RETURNING] *)
Definition project (cols : list string) (row : Obj) : Obj :=
  filter (λ kv : string * JsVal, kv.1 ∈ cols) row.

(** The row an [INSERT INTO t (cols) VALUES (params)] builds: every column
    of the table, NULL where the statement names none. *)
Fixpoint build_row (rt : Runtime) (cols : list (string * ColType))
    (given : list (string * option JsVal)) : Result Obj :=
  match cols with
  | [] => Ok ∅
  | (c, ty) :: rest =>
      match build_row rt rest given with
      | Throw e => Throw e
      | Ok row =>
          let p := match list_find (λ g, bool_decide (g.1 = c)) given with
                   | Some (_, (_, v)) => v
                   | None => None
                   end in
          match store rt ty p with
          | Throw e => Throw e
          | Ok v => Ok (<[c := v]> row)
          end
      end
  end.

(** [INSERT INTO t (cols) VALUES (params) RETURNING *]: the row and the new
    store, or the error and no change. *)
Definition insert (rt : Runtime) (t : Table) (given : list (string * option JsVal))
    (db : Db) : Result (Obj * Db) :=
  match build_row rt (columns (ddl t)) given with
  | Throw e => Throw e
  | Ok row =>
      match accept t [row] (rows_of t db ++ [row]) db with
      | Throw e => Throw e
      | Ok db' => Ok (row, db')
      end
  end.

(** The [SET] list applied to one row, left to right. *)
Fixpoint assign (rt : Runtime) (def : TableDef)
    (sets : list (string * option JsVal)) (row : Obj) : Result Obj :=
  match sets with
  | [] => Ok row
  | (c, p) :: rest =>
      match store rt (col_type def c) p with
      | Throw e => Throw e
      | Ok v => assign rt def rest (<[c := v]> row)
      end
  end.

(** The rows of the table with the [SET] list applied to those that match,
    paired with the rows that were written. *)
Fixpoint update_rows (rt : Runtime) (def : TableDef)
    (sets : list (string * option JsVal)) (col : string) (p : option JsVal)
    (rows : list Obj) : Result (list Obj * list Obj) :=
  match rows with
  | [] => Ok ([], [])
  | r :: rest =>
      match update_rows rt def sets col p rest with
      | Throw e => Throw e
      | Ok (written, rows') =>
          if eq_param rt col p r then
            match assign rt def sets r with
            | Throw e => Throw e
            | Ok r' => Ok (r' :: written, r' :: rows')
            end
          else Ok (written, r :: rows')
      end
  end.

(** [UPDATE t SET sets WHERE col = $n RETURNING *]: the written rows and
    the new store, or the error and no change. *)
Definition update (rt : Runtime) (t : Table) (sets : list (string * option JsVal))
    (col : string) (p : option JsVal) (db : Db) : Result (list Obj * Db) :=
  match update_rows rt (ddl t) sets col p (rows_of t db) with
  | Throw e => Throw e
  | Ok (written, rows') =>
      match accept t written rows' db with
      | Throw e => Throw e
      | Ok db' => Ok (written, db')
      end
  end.

(** *** ORDER BY, on a text column under byte order *)

Inductive Direction := ASC | DESC.

Definition sort_key (col : string) (row : Obj) : string :=
  default "" (cell_text (row !! col)).

Definition before (dir : Direction) (col : string) (a b : Obj) : bool :=
  match dir with
  | ASC => String.leb (sort_key col a) (sort_key col b)
  | DESC => String.leb (sort_key col b) (sort_key col a)
  end.

Fixpoint place (dir : Direction) (col : string) (r : Obj) (sorted : list Obj)
    : list Obj :=
  match sorted with
  | [] => [r]
  | x :: rest =>
      if before dir col r x then r :: sorted
      else x :: place dir col r rest
  end.

Definition order_by (col : string) (dir : Direction) (rows : list Obj) : list Obj :=
  foldr (place dir col) [] rows.

(** *** ILIKE *)

(** [s LIKE pattern], with [%], [_] and the escape character. *)
Fixpoint like (pattern : list ascii) (s : list ascii) : bool :=
  match pattern with
  | [] => match s with [] => true | _ => false end
  | "%"%char :: pattern' =>
      (fix skip (s : list ascii) : bool :=
         like pattern' s
         || match s with
            | [] => false
            | _ :: s' => skip s'
            end) s
  | "_"%char :: pattern' =>
      match s with
      | [] => false
      | _ :: s' => like pattern' s'
      end
  | "\"%char :: c :: pattern' =>
      match s with
      | [] => false
      | d :: s' => Ascii.eqb c d && like pattern' s'
      end
  | c :: pattern' =>
      match s with
      | [] => false
      | d :: s' => Ascii.eqb c d && like pattern' s'
      end
  end.

(** [col ILIKE $n] *)
Definition ilike (col : string) (pattern : string) (row : Obj) : bool :=
  match cell_text (row !! col) with
  | Some s => like (String.list_ascii_of_string (toLowerCase pattern))
                   (String.list_ascii_of_string (toLowerCase s))
  | None => false
  end.

End sql.

(* ===================================================================== *)
(** ** backend/server.ts *)
(* ===================================================================== *)

Inductive Method : Type := GET | POST | PUT | PATCH | DELETE.

Global Instance Method_eq_dec : EqDecision Method.
Proof. solve_decision. Defined.

(** A request as the handlers see it: after the CORS, JSON body and logging
    middleware, which pass every request of these methods on. [path] holds
    the decoded segments of the URL path; [params] is filled by the router
    and [user] by the authentication guard. *)
Record Request : Type := {
  method : Method;
  path : list string;
  authorization : option string;          (* req.headers['authorization'] *)
  query : Obj;                            (* req.query *)
  body : JsVal;                           (* req.body; {} when none was sent *)
  params : gmap string string;            (* req.params *)
  user : option Obj                       (* req.user *)
}.

Definition set_params (ps : gmap string string) (req : Request) : Request :=
  {| method := method req; path := path req; authorization := authorization req;
     query := query req; body := body req; params := ps; user := user req |}.

Definition set_user (u : Obj) (req : Request) : Request :=
  {| method := method req; path := path req; authorization := authorization req;
     query := query req; body := body req; params := params req; user := Some u |}.

Inductive Payload : Type :=
  | json (v : JsVal)                      (* res.json(v) *)
  | file (p : list string)                (* a file under public/ *)
  | cannot (m : Method) (p : list string) (* Express's page for an unrouted request *)
  | redirect (location : list string)     (* the page of a redirection *)
  | failed (e : string)                   (* Express's page for an error handed to next *).

Record Response : Type := {
  status : nat;
  payload : Payload
}.

(** [res.status(code).json(v)] *)
Definition res_json (code : nat) (v : JsVal) : Response :=
  {| status := code; payload := json v |}.

(** [obj.field] of a value that may not be an object *)
Definition field (v : JsVal) (k : string) : option JsVal :=
  match v with
  | JObj o => o !! k
  | _ => None
  end.

(** An object literal [{ k1: v1, ..., kn: vn }] whose values may be
    [undefined]. *)
Definition object_literal (kvs : list (string * option JsVal)) : Obj :=
  foldl (λ o kv, spread_with o kv.1 kv.2) ∅ kvs.

(** A method of [String.prototype] called on a value: a [TypeError] when the
    value has no such method. *)
Definition string_method (f : string -> string) (v : option JsVal) : Result JsVal :=
  match v with
  | Some (JStr s) => Ok (JStr (f s))
  | _ => Throw (TypeError "is not a function")
  end.

(** [d.toISOString()] *)
Definition date_toISOString (rt : Runtime) (v : option JsVal) : Result JsVal :=
  match v with
  | Some (JDate ms) => Ok (JStr (toISOString rt ms))
  | _ => Throw (TypeError "toISOString is not a function")
  end.

(** [parseFloat] of a NUMERIC cell: the driver hands the cell over as its
    decimal text, which reads back as the number; anything else is NaN, which
    JSON renders as null. *)
Definition parseFloat (v : option JsVal) : option JsVal :=
  match v with
  | Some (JNum q) => Some (JNum q)
  | _ => Some JNull
  end.

(** A validated integer as a row count. *)
Definition row_count (v : option JsVal) : nat :=
  match v with
  | Some (JNum q) => Z.to_nat (Qnum q / Zpos (Qden q))
  | _ => 0%nat
  end.

(** *** Handlers run against the store and may throw *)

Definition M (A : Type) : Type := Db -> Result A * Db.

Definition ret {A} (a : A) : M A := λ db, (Ok a, db).

Definition bind {A B} (m : M A) (k : A -> M B) : M B :=
  λ db, match m db with
        | (Ok a, db') => k a db'
        | (Throw e, db') => (Throw e, db')
        end.

Notation "x <- m ;; k" := (bind m (λ x, k))
  (at level 100, m at next level, right associativity).

(** a computation that does not touch the store *)
Definition lift {A} (r : Result A) : M A := λ db, (r, db).

(** [await client.query(SELECT ...)] *)
Definition rows {A} (q : Db -> A) : M A := λ db, (Ok (q db), db).

(** [await client.query(INSERT or UPDATE ...)]: a statement that fails leaves
    the store as it was. *)
Definition exec {A} (q : Db -> Result (A * Db)) : M A :=
  λ db, match q db with
        | Ok (a, db') => (Ok a, db')
        | Throw e => (Throw e, db)
        end.

(** [try { ... } catch (error) { ... }] *)
Definition try_catch (block : M Response) (handler : JsError -> Response)
    : Db -> Response * Db :=
  λ db, match block db with
        | (Ok r, db') => (r, db')
        | (Throw e, db') => (handler e, db')
        end.

(** One [if (cond) { updateFields.push(`col = $n`); updateValues.push(v) }]:
    the column is paired with its value instead of a parameter number. *)
Definition push_if (cond : bool) (col : string) (v : option JsVal)
    : list (string * option JsVal) :=
  if cond then [(col, v)] else [].

(** The same where computing the pushed value may throw. *)
Definition push_when (cond : bool) (col : string) (v : Result JsVal)
    : Result (list (string * option JsVal)) :=
  if cond then
    match v with
    | Ok x => Ok [(col, Some x)]
    | Throw e => Throw e
    end
  else Ok [].

(** [a === b]; two objects, arrays or dates built separately are never
    identical. *)
Definition strict_eq (a b : option JsVal) : bool :=
  match a, b with
  | None, None => true
  | Some JNull, Some JNull => true
  | Some (JBool x), Some (JBool y) => Bool.eqb x y
  | Some (JNum x), Some (JNum y) => Qeq_bool x y
  | Some (JStr x), Some (JStr y) => String.eqb x y
  | _, _ => false
  end.

Section server.

Context (rt : Runtime) (cfg : Config).

Definition createErrorResponse (env : Env) (message : string)
    (error : option JsError) (errorCode : string) : JsVal :=
  let response : Obj :=
    <["timestamp" := JStr (toISOString rt (now env))]>
      (<["message" := JStr message]> {["success" := JBool false]}) in
  let response :=
    if negb (String.eqb errorCode "")
    then <["error_code" := JStr errorCode]> response else response in
  let response :=
    match error with
    | Some e =>
        if development cfg then
          <["details" := JObj
              (<["stack" := JStr (error_stack rt e)]>
                 (<["message" := JStr (error_message rt e)]>
                    {["name" := JStr (error_name e)]}))]> response
        else response
    | None => response
    end in
  JObj response.

(** The [catch] blocks: a zod failure is a 400, anything else a 500. *)
Definition catch_zod (env : Env) (message : string) (error : JsError) : Response :=
  if String.eqb (error_name error) "ZodError" then
    res_json 400 (createErrorResponse env message (Some error) "VALIDATION_ERROR")
  else
    res_json 500 (createErrorResponse env "Internal server error" (Some error)
                    "INTERNAL_SERVER_ERROR").

Definition catch_500 (env : Env) (error : JsError) : Response :=
  res_json 500 (createErrorResponse env "Internal server error" (Some error)
                  "INTERNAL_SERVER_ERROR").

(** **** Authentication middleware *)

(** [authHeader && authHeader.split(' ')[1]] *)
Definition bearer_token (authHeader : option string) : option string :=
  match authHeader with
  | None => None
  | Some h => if String.eqb h "" then Some "" else split " " h !! 1%nat
  end.

Definition authenticateToken (env : Env) (req : Request)
    (next : Request -> Db -> Response * Db) : Db -> Response * Db :=
  λ db,
  let token := bearer_token (authorization req) in
  if negb (truthy (JStr <$> token)) then
    (res_json 401 (createErrorResponse env "Access token required" None
                     "AUTH_TOKEN_MISSING"), db)
  else
    match jwt_verify rt (default "" token) (now env) with
    | Throw error =>
        (res_json 403 (createErrorResponse env "Invalid or expired token"
                         (Some error) "AUTH_TOKEN_INVALID"), db)
    | Ok decoded =>
        let result :=
          sql.project ["id"; "email"; "name"; "created_at"] <$>
            sql.select_where rt users "id" (decoded !! "user_id") db in
        match result with
        | [] =>
            (res_json 401 (createErrorResponse env "User not found" None
                             "AUTH_USER_NOT_FOUND"), db)
        | row :: _ => next (set_user row req) db
        end
    end.

(** **** POST /api/auth/register *)

Definition register (env : Env) (req : Request) : Db -> Response * Db :=
  try_catch (
    validatedData <- lift (z.parse rt createUserInputSchema (body req)) ;;
    let email := validatedData !! "email" in
    let name := validatedData !! "name" in
    let password_hash := validatedData !! "password_hash" in
    existingUser <- rows (sql.select_where rt users "email" email) ;;
    if negb (length existingUser =? 0)%nat then
      ret (res_json 400 (createErrorResponse env
             "User with this email already exists" None "USER_ALREADY_EXISTS"))
    else
      let userId := JStr (uuid env) in
      let createdAt := JStr (toISOString rt (now env)) in
      email' <- lift (string_method (λ s, trim (toLowerCase s)) email) ;;
      name' <- lift (string_method trim name) ;;
      user <- exec (sql.insert rt users
                      [("id", Some userId); ("email", Some email');
                       ("name", Some name'); ("created_at", Some createdAt);
                       ("password_hash", password_hash)]) ;;
      let token :=
        jwt_sign rt (object_literal [("user_id", user !! "id");
                                     ("email", user !! "email")]) (now env) in
      _ <- exec (sql.insert rt user_dashboards
                   [("user_id", Some userId); ("carbon_footprint", Some (JNum 0));
                    ("historical_data", Some JNull); ("daily_tips", Some JNull);
                    ("challenges", Some JNull)]) ;;
      ret (res_json 201
             (JObj (<["token" := JStr token]>
                      (spread_with user "created_at" (user !! "created_at")))))
  ) (catch_zod env "Invalid input data").

(** **** POST /api/auth/login *)

Definition login (env : Env) (req : Request) : Db -> Response * Db :=
  try_catch (
    let email := field (body req) "email" in
    let password_hash := field (body req) "password_hash" in
    if negb (truthy email) || negb (truthy password_hash) then
      ret (res_json 400 (createErrorResponse env
             "Email and password are required" None "MISSING_CREDENTIALS"))
    else
      email' <- lift (string_method (λ s, trim (toLowerCase s)) email) ;;
      result <- rows (λ db,
                  filter (λ r, sql.eq_param rt "password_hash" password_hash r = true)
                    (sql.select_where rt users "email" (Some email') db)) ;;
      match result with
      | [] =>
          ret (res_json 401 (createErrorResponse env
                 "Invalid email or password" None "INVALID_CREDENTIALS"))
      | user :: _ =>
          let token :=
            jwt_sign rt (object_literal [("user_id", user !! "id");
                                         ("email", user !! "email")]) (now env) in
          ret (res_json 200
                 (JObj (object_literal [("auth_token", Some (JStr token));
                                        ("user_id", user !! "id")])))
      end
  ) (catch_500 env).

(** **** GET /api/users/:user_id *)

Definition get_user (env : Env) (req : Request) : Db -> Response * Db :=
  try_catch (
    let user_id := JStr <$> params req !! "user_id" in
    result <- rows (λ db, sql.project ["id"; "email"; "name"; "created_at"] <$>
                            sql.select_where rt users "id" user_id db) ;;
    match result with
    | [] =>
        ret (res_json 404 (createErrorResponse env "User not found" None
                             "USER_NOT_FOUND"))
    | user :: _ =>
        ret (res_json 200
               (JObj (spread_with user "created_at" (user !! "created_at"))))
    end
  ) (catch_500 env).

(** **** PUT /api/users/:user_id *)

Definition put_user (env : Env) (req : Request) : Db -> Response * Db :=
  try_catch (
    let user_id := JStr <$> params req !! "user_id" in
    validatedData <- lift (z.parse rt updateUserInputSchema (body req)) ;;
    if negb (strict_eq (user req ≫= (.!! "id")) user_id) then
      ret (res_json 403 (createErrorResponse env
             "Forbidden: Cannot update another user's profile" None "FORBIDDEN"))
    else
      email <- lift (push_when (truthy (validatedData !! "email")) "email"
                       (string_method (λ s, trim (toLowerCase s))
                          (validatedData !! "email"))) ;;
      name <- lift (push_when (truthy (validatedData !! "name")) "name"
                      (string_method trim (validatedData !! "name"))) ;;
      let updateFields :=
        email ++ name
        ++ push_if (truthy (validatedData !! "password_hash")) "password_hash"
             (validatedData !! "password_hash") in
      if (length updateFields =? 0)%nat then
        ret (res_json 400 (createErrorResponse env "No valid fields to update" None
                             "NO_UPDATE_FIELDS"))
      else
        result <- exec (sql.update rt users updateFields "id" user_id) ;;
        match sql.project ["id"; "email"; "name"; "created_at"] <$> result with
        | [] =>
            ret (res_json 404 (createErrorResponse env "User not found" None
                                 "USER_NOT_FOUND"))
        | user :: _ =>
            ret (res_json 200
                   (JObj (spread_with user "created_at" (user !! "created_at"))))
        end
  ) (catch_zod env "Invalid input data").

(** **** GET /api/users/search *)

Definition search_users (env : Env) (req : Request) : Db -> Response * Db :=
  try_catch (
    validatedQuery <- lift (z.parse rt searchUserInputSchema (JObj (query req))) ;;
    let query := validatedQuery !! "query" in
    let limit := validatedQuery !! "limit" in
    let offset := validatedQuery !! "offset" in
    let sort_by := default "" (sql.cell_text (validatedQuery !! "sort_by")) in
    let sort_order :=
      if strict_eq (validatedQuery !! "sort_order") (Some (JStr "asc"))
      then sql.ASC else sql.DESC in
    result <- rows (λ db,
      let selected :=
        match query with
        | Some (JStr q) =>
            if truthy query then
              filter (λ r, sql.ilike "name" ("%" +:+ q +:+ "%") r
                           || sql.ilike "email" ("%" +:+ q +:+ "%") r = true)
                     (rows_of users db)
            else rows_of users db
        | _ => rows_of users db
        end in
      sql.project ["id"; "email"; "name"; "created_at"] <$>
        take (row_count limit)
          (drop (row_count offset) (sql.order_by sort_by sort_order selected))) ;;
    let users :=
      (λ user : Obj, JObj (spread_with user "created_at" (user !! "created_at")))
        <$> result in
    ret (res_json 200 (JArr users))
  ) (catch_zod env "Invalid query parameters").

(** **** GET /api/dashboard/:user_id *)

Definition dashboard_json (dashboard : Obj) : JsVal :=
  JObj (object_literal
          [("user_id", dashboard !! "user_id");
           ("carbon_footprint", parseFloat (dashboard !! "carbon_footprint"));
           ("historical_data", dashboard !! "historical_data");
           ("daily_tips", dashboard !! "daily_tips");
           ("challenges", dashboard !! "challenges")]).

Definition get_dashboard (env : Env) (req : Request) : Db -> Response * Db :=
  try_catch (
    let user_id := JStr <$> params req !! "user_id" in
    result <- rows (sql.select_where rt user_dashboards "user_id" user_id) ;;
    match result with
    | [] =>
        ret (res_json 404 (createErrorResponse env "Dashboard not found" None
                             "DASHBOARD_NOT_FOUND"))
    | dashboard :: _ => ret (res_json 200 (dashboard_json dashboard))
    end
  ) (catch_500 env).

(** **** PATCH /api/dashboard/:user_id *)

Definition patch_dashboard (env : Env) (req : Request) : Db -> Response * Db :=
  try_catch (
    let user_id := JStr <$> params req !! "user_id" in
    validatedData <- lift (z.parse rt updateUserDashboardInputSchema (body req)) ;;
    let updateFields :=
      push_if (defined (validatedData !! "carbon_footprint")) "carbon_footprint"
        (validatedData !! "carbon_footprint")
      ++ push_if (defined (validatedData !! "historical_data")) "historical_data"
           (validatedData !! "historical_data")
      ++ push_if (defined (validatedData !! "daily_tips")) "daily_tips"
           (validatedData !! "daily_tips")
      ++ push_if (defined (validatedData !! "challenges")) "challenges"
           (validatedData !! "challenges") in
    if (length updateFields =? 0)%nat then
      ret (res_json 400 (createErrorResponse env "No valid fields to update" None
                           "NO_UPDATE_FIELDS"))
    else
      result <- exec (sql.update rt user_dashboards updateFields "user_id" user_id) ;;
      match result with
      | [] =>
          ret (res_json 404 (createErrorResponse env "Dashboard not found" None
                               "DASHBOARD_NOT_FOUND"))
      | dashboard :: _ => ret (res_json 200 (dashboard_json dashboard))
      end
  ) (catch_zod env "Invalid input data").

(** **** GET /api/impact-calculator/:user_id *)

Definition get_impact_calculator (env : Env) (req : Request)
    : Db -> Response * Db :=
  try_catch (
    let user_id := JStr <$> params req !! "user_id" in
    result <- rows (sql.select_where rt impact_calculators "user_id" user_id) ;;
    match result with
    | [] =>
        (* Create default calculator if none exists *)
        let calculatorId := JStr (uuid env) in
        _ <- exec (sql.insert rt impact_calculators
                     [("id", Some calculatorId); ("user_id", user_id);
                      ("travel_habits", Some JNull);
                      ("energy_consumption", Some JNull);
                      ("waste_management", Some JNull)]) ;;
        ret (res_json 200
               (JObj (object_literal
                        [("id", Some calculatorId); ("user_id", user_id);
                         ("travel_habits", Some JNull);
                         ("energy_consumption", Some JNull);
                         ("waste_management", Some JNull)])))
    | calculator :: _ => ret (res_json 200 (JObj calculator))
    end
  ) (catch_500 env).

(** **** PATCH /api/impact-calculator/:user_id *)

Definition patch_impact_calculator (env : Env) (req : Request)
    : Db -> Response * Db :=
  try_catch (
    let user_id := JStr <$> params req !! "user_id" in
    validatedData <- lift (z.parse rt updateImpactCalculatorInputSchema (body req)) ;;
    let updateFields :=
      push_if (defined (validatedData !! "travel_habits")) "travel_habits"
        (validatedData !! "travel_habits")
      ++ push_if (defined (validatedData !! "energy_consumption"))
           "energy_consumption" (validatedData !! "energy_consumption")
      ++ push_if (defined (validatedData !! "waste_management")) "waste_management"
           (validatedData !! "waste_management") in
    if (length updateFields =? 0)%nat then
      ret (res_json 400 (createErrorResponse env "No valid fields to update" None
                           "NO_UPDATE_FIELDS"))
    else
      result <- exec (sql.update rt impact_calculators updateFields
                        "user_id" user_id) ;;
      match result with
      | [] =>
          ret (res_json 404 (createErrorResponse env "Impact calculator not found"
                               None "CALCULATOR_NOT_FOUND"))
      | calculator :: _ => ret (res_json 200 (JObj calculator))
      end
  ) (catch_zod env "Invalid input data").

(** **** GET /api/community-forum *)

Definition with_created_at (row : Obj) : JsVal :=
  JObj (spread_with row "created_at" (row !! "created_at")).

Definition get_forum (env : Env) (req : Request) : Db -> Response * Db :=
  try_catch (
    result <- rows (λ db, sql.order_by "created_at" sql.DESC
                            (rows_of eco_community_forum db)) ;;
    ret (res_json 200 (JArr (with_created_at <$> result)))
  ) (catch_500 env).

(** **** POST /api/community-forum *)

Definition post_forum (env : Env) (req : Request) : Db -> Response * Db :=
  try_catch (
    validatedData <- lift (z.parse rt createEcoCommunityForumInputSchema (body req)) ;;
    let user_id := validatedData !! "user_id" in
    let thread_title := validatedData !! "thread_title" in
    let content := validatedData !! "content" in
    let created_at := validatedData !! "created_at" in
    let threadId := JStr (uuid env) in
    timestamp <- lift (if truthy created_at then date_toISOString rt created_at
                       else Ok (JStr (toISOString rt (now env)))) ;;
    thread <- exec (sql.insert rt eco_community_forum
                      [("id", Some threadId); ("user_id", user_id);
                       ("thread_title", thread_title); ("content", content);
                       ("created_at", Some timestamp)]) ;;
    ret (res_json 201 (with_created_at thread))
  ) (catch_zod env "Invalid input data").

(** **** PATCH /api/community-forum/:id *)

Definition patch_forum (env : Env) (req : Request) : Db -> Response * Db :=
  try_catch (
    let id := JStr <$> params req !! "id" in
    validatedData <- lift (z.parse rt updateEcoCommunityForumInputSchema (body req)) ;;
    let updateFields :=
      push_if (truthy (validatedData !! "thread_title")) "thread_title"
        (validatedData !! "thread_title")
      ++ push_if (truthy (validatedData !! "content")) "content"
           (validatedData !! "content") in
    if (length updateFields =? 0)%nat then
      ret (res_json 400 (createErrorResponse env "No valid fields to update" None
                           "NO_UPDATE_FIELDS"))
    else
      result <- exec (sql.update rt eco_community_forum updateFields "id" id) ;;
      match result with
      | [] =>
          ret (res_json 404 (createErrorResponse env "Forum thread not found" None
                               "THREAD_NOT_FOUND"))
      | thread :: _ => ret (res_json 200 (with_created_at thread))
      end
  ) (catch_zod env "Invalid input data").

(** **** GET /api/events *)

Definition with_event_date (row : Obj) : JsVal :=
  JObj (spread_with row "event_date" (row !! "event_date")).

Definition get_events (env : Env) (req : Request) : Db -> Response * Db :=
  try_catch (
    result <- rows (λ db, sql.order_by "event_date" sql.ASC (rows_of events db)) ;;
    ret (res_json 200 (JArr (with_event_date <$> result)))
  ) (catch_500 env).

(** **** POST /api/events *)

Definition post_event (env : Env) (req : Request) : Db -> Response * Db :=
  try_catch (
    validatedData <- lift (z.parse rt createEventInputSchema (body req)) ;;
    let event_name := validatedData !! "event_name" in
    let event_date := validatedData !! "event_date" in
    let location := validatedData !! "location" in
    let organizer_id := validatedData !! "organizer_id" in
    let eventId := JStr (uuid env) in
    eventDateString <- lift (date_toISOString rt event_date) ;;
    event <- exec (sql.insert rt events
                     [("id", Some eventId); ("event_name", event_name);
                      ("event_date", Some eventDateString);
                      ("location", location); ("organizer_id", organizer_id)]) ;;
    ret (res_json 201 (with_event_date event))
  ) (catch_zod env "Invalid input data").

(** **** PATCH /api/events/:id *)

Definition patch_event (env : Env) (req : Request) : Db -> Response * Db :=
  try_catch (
    let id := JStr <$> params req !! "id" in
    validatedData <- lift (z.parse rt updateEventInputSchema (body req)) ;;
    event_date <- lift (push_when (truthy (validatedData !! "event_date"))
                          "event_date"
                          (date_toISOString rt (validatedData !! "event_date"))) ;;
    let updateFields :=
      push_if (truthy (validatedData !! "event_name")) "event_name"
        (validatedData !! "event_name")
      ++ event_date
      ++ push_if (defined (validatedData !! "location")) "location"
           (validatedData !! "location")
      ++ push_if (truthy (validatedData !! "organizer_id")) "organizer_id"
           (validatedData !! "organizer_id") in
    if (length updateFields =? 0)%nat then
      ret (res_json 400 (createErrorResponse env "No valid fields to update" None
                           "NO_UPDATE_FIELDS"))
    else
      result <- exec (sql.update rt events updateFields "id" id) ;;
      match result with
      | [] =>
          ret (res_json 404 (createErrorResponse env "Event not found" None
                               "EVENT_NOT_FOUND"))
      | event :: _ => ret (res_json 200 (with_event_date event))
      end
  ) (catch_zod env "Invalid input data").

(** **** GET /api/resource-library *)

Definition get_resources (env : Env) (req : Request) : Db -> Response * Db :=
  try_catch (
    result <- rows (λ db, sql.order_by "title" sql.ASC (rows_of resource_library db)) ;;
    ret (res_json 200 (JArr (JObj <$> result)))
  ) (catch_500 env).

(** **** POST /api/resource-library *)

Definition post_resource (env : Env) (req : Request) : Db -> Response * Db :=
  try_catch (
    validatedData <- lift (z.parse rt createResourceLibraryInputSchema (body req)) ;;
    let content_type := validatedData !! "content_type" in
    let title := validatedData !! "title" in
    let description := validatedData !! "description" in
    let content_url := validatedData !! "content_url" in
    let author_id := validatedData !! "author_id" in
    let resourceId := JStr (uuid env) in
    resource <- exec (sql.insert rt resource_library
                        [("id", Some resourceId); ("content_type", content_type);
                         ("title", title); ("description", description);
                         ("content_url", content_url); ("author_id", author_id)]) ;;
    ret (res_json 201 (JObj resource))
  ) (catch_zod env "Invalid input data").

(** **** PATCH /api/resource-library/:id *)

Definition patch_resource (env : Env) (req : Request) : Db -> Response * Db :=
  try_catch (
    let id := JStr <$> params req !! "id" in
    validatedData <- lift (z.parse rt updateResourceLibraryInputSchema (body req)) ;;
    let updateFields :=
      push_if (truthy (validatedData !! "content_type")) "content_type"
        (validatedData !! "content_type")
      ++ push_if (truthy (validatedData !! "title")) "title"
           (validatedData !! "title")
      ++ push_if (defined (validatedData !! "description")) "description"
           (validatedData !! "description")
      ++ push_if (defined (validatedData !! "content_url")) "content_url"
           (validatedData !! "content_url")
      ++ push_if (truthy (validatedData !! "author_id")) "author_id"
           (validatedData !! "author_id") in
    if (length updateFields =? 0)%nat then
      ret (res_json 400 (createErrorResponse env "No valid fields to update" None
                           "NO_UPDATE_FIELDS"))
    else
      result <- exec (sql.update rt resource_library updateFields "id" id) ;;
      match result with
      | [] =>
          ret (res_json 404 (createErrorResponse env "Resource not found" None
                               "RESOURCE_NOT_FOUND"))
      | resource :: _ => ret (res_json 200 (JObj resource))
      end
  ) (catch_zod env "Invalid input data").

(** **** GET /api/alerts/:user_id *)

Definition get_alerts (env : Env) (req : Request) : Db -> Response * Db :=
  try_catch (
    let user_id := JStr <$> params req !! "user_id" in
    result <- rows (λ db, sql.order_by "created_at" sql.DESC
                            (sql.select_where rt alerts "user_id" user_id db)) ;;
    ret (res_json 200 (JArr (with_created_at <$> result)))
  ) (catch_500 env).

(** **** POST /api/alerts/:user_id *)

Definition post_alert (env : Env) (req : Request) : Db -> Response * Db :=
  try_catch (
    let user_id := JStr <$> params req !! "user_id" in
    validatedData <- lift (z.parse rt createAlertInputSchema (body req)) ;;
    let alert_type := validatedData !! "alert_type" in
    let message := validatedData !! "message" in
    let created_at := validatedData !! "created_at" in
    let alertId := JStr (uuid env) in
    timestamp <- lift (if truthy created_at then date_toISOString rt created_at
                       else Ok (JStr (toISOString rt (now env)))) ;;
    alert <- exec (sql.insert rt alerts
                     [("id", Some alertId); ("user_id", user_id);
                      ("alert_type", alert_type); ("message", message);
                      ("created_at", Some timestamp)]) ;;
    ret (res_json 201 (with_created_at alert))
  ) (catch_zod env "Invalid input data").

(** **** PATCH /api/alerts/:id *)

Definition patch_alert (env : Env) (req : Request) : Db -> Response * Db :=
  try_catch (
    let id := JStr <$> params req !! "id" in
    validatedData <- lift (z.parse rt updateAlertInputSchema (body req)) ;;
    let updateFields :=
      push_if (truthy (validatedData !! "alert_type")) "alert_type"
        (validatedData !! "alert_type")
      ++ push_if (truthy (validatedData !! "message")) "message"
           (validatedData !! "message") in
    if (length updateFields =? 0)%nat then
      ret (res_json 400 (createErrorResponse env "No valid fields to update" None
                           "NO_UPDATE_FIELDS"))
    else
      result <- exec (sql.update rt alerts updateFields "id" id) ;;
      match result with
      | [] =>
          ret (res_json 404 (createErrorResponse env "Alert not found" None
                               "ALERT_NOT_FOUND"))
      | alert :: _ => ret (res_json 200 (with_created_at alert))
      end
  ) (catch_zod env "Invalid input data").

(** **** GET /api/health *)

Definition health (env : Env) (req : Request) : Db -> Response * Db :=
  λ db, (res_json 200 (JObj (<["timestamp" := JStr (toISOString rt (now env))]>
                               {["status" := JStr "ok"]})), db).

(** **** The catch-all for the single-page application *)

(** [res.sendFile] hands the error of a missing file to [next], and Express
    answers it with its error page and the status of the error. *)
Definition send_index (env : Env) (req : Request) : Db -> Response * Db :=
  λ db, (if bool_decide (["index.html"] ∈ public_files cfg)
         then {| status := 200; payload := file ["index.html"] |}
         else {| status := 404; payload := failed "ENOENT" |}, db).

(** *** The application: middleware, then the routes in registration order *)

Inductive Segment : Type :=
  | lit (s : string)
  | param (name : string).

Inductive Pattern : Type :=
  | at_path (segments : list Segment)
  | not_api.                              (* /^(?!\/api).*/ *)

Record Route : Type := {
  route_method : Method;
  route_pattern : Pattern;
  route_guarded : bool;                   (* authenticateToken comes first *)
  route_handler : Env -> Request -> Db -> Response * Db
}.

(** Express matches the literal segments without regard to case; a
    parameter takes one non-empty segment; and, routing not being strict,
    one slash may follow the last segment (the path then ends with an empty
    segment). *)
Fixpoint match_segments (pattern : list Segment) (p : list string)
    : option (gmap string string) :=
  match pattern, p with
  | [], [] => Some ∅
  | [], [x] => if String.eqb x "" then Some ∅ else None
  | lit s :: pattern', x :: p' =>
      if String.eqb (toLowerCase s) (toLowerCase x)
      then match_segments pattern' p' else None
  | param name :: pattern', x :: p' =>
      if String.eqb x "" then None
      else <[name := x]> <$> match_segments pattern' p'
  | _, _ => None
  end.

Definition match_pattern (pattern : Pattern) (p : list string)
    : option (gmap string string) :=
  match pattern with
  | at_path segments => match_segments segments p
  | not_api =>
      match p with
      | first :: _ => if starts_with "api" first then None else Some ∅
      | [] => Some ∅
      end
  end.

Definition routes : list Route := [
  {| route_method := POST; route_guarded := false; route_handler := register;
     route_pattern := at_path [lit "api"; lit "auth"; lit "register"] |};
  {| route_method := POST; route_guarded := false; route_handler := login;
     route_pattern := at_path [lit "api"; lit "auth"; lit "login"] |};
  {| route_method := GET; route_guarded := true; route_handler := get_user;
     route_pattern := at_path [lit "api"; lit "users"; param "user_id"] |};
  {| route_method := PUT; route_guarded := true; route_handler := put_user;
     route_pattern := at_path [lit "api"; lit "users"; param "user_id"] |};
  {| route_method := GET; route_guarded := true; route_handler := search_users;
     route_pattern := at_path [lit "api"; lit "users"; lit "search"] |};
  {| route_method := GET; route_guarded := true; route_handler := get_dashboard;
     route_pattern := at_path [lit "api"; lit "dashboard"; param "user_id"] |};
  {| route_method := PATCH; route_guarded := true; route_handler := patch_dashboard;
     route_pattern := at_path [lit "api"; lit "dashboard"; param "user_id"] |};
  {| route_method := GET; route_guarded := true;
     route_handler := get_impact_calculator;
     route_pattern := at_path [lit "api"; lit "impact-calculator"; param "user_id"] |};
  {| route_method := PATCH; route_guarded := true;
     route_handler := patch_impact_calculator;
     route_pattern := at_path [lit "api"; lit "impact-calculator"; param "user_id"] |};
  {| route_method := GET; route_guarded := true; route_handler := get_forum;
     route_pattern := at_path [lit "api"; lit "community-forum"] |};
  {| route_method := POST; route_guarded := true; route_handler := post_forum;
     route_pattern := at_path [lit "api"; lit "community-forum"] |};
  {| route_method := PATCH; route_guarded := true; route_handler := patch_forum;
     route_pattern := at_path [lit "api"; lit "community-forum"; param "id"] |};
  {| route_method := GET; route_guarded := true; route_handler := get_events;
     route_pattern := at_path [lit "api"; lit "events"] |};
  {| route_method := POST; route_guarded := true; route_handler := post_event;
     route_pattern := at_path [lit "api"; lit "events"] |};
  {| route_method := PATCH; route_guarded := true; route_handler := patch_event;
     route_pattern := at_path [lit "api"; lit "events"; param "id"] |};
  {| route_method := GET; route_guarded := true; route_handler := get_resources;
     route_pattern := at_path [lit "api"; lit "resource-library"] |};
  {| route_method := POST; route_guarded := true; route_handler := post_resource;
     route_pattern := at_path [lit "api"; lit "resource-library"] |};
  {| route_method := PATCH; route_guarded := true; route_handler := patch_resource;
     route_pattern := at_path [lit "api"; lit "resource-library"; param "id"] |};
  {| route_method := GET; route_guarded := true; route_handler := get_alerts;
     route_pattern := at_path [lit "api"; lit "alerts"; param "user_id"] |};
  {| route_method := POST; route_guarded := true; route_handler := post_alert;
     route_pattern := at_path [lit "api"; lit "alerts"; param "user_id"] |};
  {| route_method := PATCH; route_guarded := true; route_handler := patch_alert;
     route_pattern := at_path [lit "api"; lit "alerts"; param "id"] |};
  {| route_method := GET; route_guarded := false; route_handler := health;
     route_pattern := at_path [lit "api"; lit "health"] |};
  {| route_method := GET; route_guarded := false; route_handler := send_index;
     route_pattern := not_api |}
].

(** The first route, in registration order, whose method and pattern match,
    with the parameters it binds. Every handler answers the request, so no
    later route is tried. *)
Fixpoint find_route (rs : list Route) (req : Request)
    : option (Route * gmap string string) :=
  match rs with
  | [] => None
  | r :: rest =>
      if bool_decide (route_method r = method req) then
        match match_pattern (route_pattern r) (path req) with
        | Some ps => Some (r, ps)
        | None => find_route rest req
        end
      else find_route rest req
  end.

Definition run_route (r : Route) (ps : gmap string string) (env : Env)
    (req : Request) : Db -> Response * Db :=
  if route_guarded r
  then authenticateToken env (set_params ps req) (route_handler r env)
  else route_handler r env (set_params ps req).

Definition router (env : Env) (req : Request) : Db -> Response * Db :=
  match find_route routes req with
  | Some (r, ps) => run_route r ps env req
  | None => λ db, ({| status := 404; payload := cannot (method req) (path req) |}, db)
  end.

(** [path.normalize] on the segments of a path under public/: empty
    segments and [.] are dropped, [..] leaves the directory reached so far;
    there is no result when the path leaves public/. *)
Fixpoint normalize (reached : list string) (p : list string) : option (list string) :=
  match p with
  | [] => Some (reverse reached)
  | x :: p' =>
      if String.eqb x "" || String.eqb x "." then normalize reached p'
      else if String.eqb x ".." then
        match reached with
        | [] => None
        | _ :: above => normalize above p'
        end
      else normalize (x :: reached) p'
  end.

(** A segment that serve-static does not follow: one that begins with a dot
    (a hidden file or directory), and one in which [..] stands between
    backslashes. *)
Definition unsafe_segment (x : string) : bool :=
  starts_with "." x || bool_decide (".." ∈ split "\" x).

(** The path ends with a slash. *)
Definition hasTrailingSlash (p : list string) : bool :=
  match last p with
  | None => true
  | Some x => String.eqb x ""
  end.

(** [express.static], with the defaults of serve-static: only a GET is
    looked at; a path that holds the NUL character, leaves public/ or comes
    to a segment that is not followed is passed on; a path that ends with a
    slash is answered with the [index.html] of the directory it names; a
    path that names a file is answered with the file; a path that names a
    directory is redirected to the same path with a slash; anything else
    goes on to the routes. *)
Definition serve_static (req : Request) : option Response :=
  if bool_decide (method req = GET) && forallb (free_of "000") (path req) then
    match normalize [] (path req) with
    | None => None
    | Some target =>
        if existsb unsafe_segment target then None
        else if hasTrailingSlash (path req) then
          if bool_decide (target ++ ["index.html"] ∈ public_files cfg)
          then Some {| status := 200; payload := file (target ++ ["index.html"]) |}
          else None
        else if bool_decide (target ∈ public_files cfg)
        then Some {| status := 200; payload := file target |}
        else if bool_decide (target ∈ public_dirs cfg)
        then Some {| status := 301; payload := redirect (path req ++ [""]) |}
        else None
    end
  else None.

Definition app (env : Env) (req : Request) : Db -> Response * Db :=
  match serve_static req with
  | Some response => λ db, (response, db)
  | None => router env req
  end.

End server.

(* ===================================================================== *)
(** ** The seeded store and a sample runtime *)
(* ===================================================================== *)

(** The rows the [INSERT] statements after the data definition create. *)
Module seed.

Definition row (cells : list (string * JsVal)) : Obj := list_to_map cells.

Definition user1 : Obj :=
  row [("id", JStr "user1"); ("email", JStr "john.doe@example.com");
       ("name", JStr "John Doe"); ("created_at", JStr "2023-10-01T10:00:00Z");
       ("password_hash", JStr "password123")].

Definition user2 : Obj :=
  row [("id", JStr "user2"); ("email", JStr "jane.smith@example.com");
       ("name", JStr "Jane Smith"); ("created_at", JStr "2023-10-01T11:00:00Z");
       ("password_hash", JStr "admin123")].

Definition event1 : Obj :=
  row [("id", JStr "event1"); ("event_name", JStr "Earth Day Celebration");
       ("event_date", JStr "2023-04-22"); ("location", JStr "Central Park");
       ("organizer_id", JStr "user1")].

Definition event2 : Obj :=
  row [("id", JStr "event2"); ("event_name", JStr "Recycling Workshop");
       ("event_date", JStr "2023-05-15"); ("location", JStr "Community Center");
       ("organizer_id", JStr "user2")].

Definition db : Db := {|
  tbl_users := [user1; user2];
  tbl_user_dashboards := [
    row [("user_id", JStr "user1"); ("carbon_footprint", JNum (425 # 10));
         ("historical_data", JStr "data1"); ("daily_tips", JStr "tip1");
         ("challenges", JStr "challenge1")];
    row [("user_id", JStr "user2"); ("carbon_footprint", JNum (387 # 10));
         ("historical_data", JStr "data2"); ("daily_tips", JStr "tip2");
         ("challenges", JStr "challenge2")]];
  tbl_impact_calculators := [
    row [("id", JStr "calculator1"); ("user_id", JStr "user1");
         ("travel_habits", JStr "car"); ("energy_consumption", JStr "high");
         ("waste_management", JStr "recycle")];
    row [("id", JStr "calculator2"); ("user_id", JStr "user2");
         ("travel_habits", JStr "bus"); ("energy_consumption", JStr "medium");
         ("waste_management", JStr "compost")]];
  tbl_eco_community_forum := [
    row [("id", JStr "thread1"); ("user_id", JStr "user1");
         ("thread_title", JStr "Sustainability Tips");
         ("content", JStr "Content of the first post.");
         ("created_at", JStr "2023-10-02T12:00:00Z")];
    row [("id", JStr "thread2"); ("user_id", JStr "user2");
         ("thread_title", JStr "Eco-Friendly Travel");
         ("content", JStr "Content of the second post.");
         ("created_at", JStr "2023-10-02T13:00:00Z")]];
  tbl_events := [event1; event2];
  tbl_resource_library := [
    row [("id", JStr "resource1"); ("content_type", JStr "Video");
         ("title", JStr "How to Recycle");
         ("description", JStr "A video tutorial on recycling.");
         ("content_url", JStr "https://picsum.photos/200/300?random=1");
         ("author_id", JStr "user1")];
    row [("id", JStr "resource2"); ("content_type", JStr "Article");
         ("title", JStr "Sustainable Living");
         ("description", JStr "An article about sustainable living practices.");
         ("content_url", JStr "https://picsum.photos/200/300?random=2");
         ("author_id", JStr "user2")]];
  tbl_alerts := [
    row [("id", JStr "alert1"); ("user_id", JStr "user1");
         ("alert_type", JStr "Reminder");
         ("message", JStr "Do not forget about your next eco-challenge!");
         ("created_at", JStr "2023-10-03T14:00:00Z")];
    row [("id", JStr "alert2"); ("user_id", JStr "user2");
         ("alert_type", JStr "Alert");
         ("message", JStr "New sustainability event near you!");
         ("created_at", JStr "2023-10-03T15:00:00Z")]]
|}.

End seed.

(** A runtime for the concrete runs below. It fixes the libraries on the few
    inputs those runs use: e-mail addresses are [local@domain] without white
    space; a token is the text [jwt.] followed by the user id it was signed
    for, and the token [expired] is one whose seven days have passed; two
    dates are known to the parser and the printer. The general theorems hold
    for every runtime. *)
Module sample.

Fixpoint count_at (s : string) : nat :=
  match s with
  | EmptyString => 0
  | String c r => (if Ascii.eqb c "@" then 1 else 0) + count_at r
  end.

Fixpoint has_space (s : string) : bool :=
  match s with
  | EmptyString => false
  | String c r => Ascii.is_space c || has_space r
  end.

Definition email_shape (s : string) : bool :=
  match split "@" s with
  | [l; d] => negb (String.eqb l "") && negb (String.eqb d "") && negb (has_space s)
              && (1 <? length (split "." d))%nat
  | _ => false
  end.

Definition parse_date (v : JsVal) : option Z :=
  match v with
  | JNull => Some 0
  | JDate ms => Some ms
  | JStr "2023-10-10" => Some 1696896000000
  | JStr "2024-01-01T00:00:00.000Z" => Some 1704067200000
  | _ => None
  end.

Definition print_date (ms : Z) : string :=
  if ms =? 1696896000000 then "2023-10-10T00:00:00.000Z"
  else if ms =? 1704067200000 then "2024-01-01T00:00:00.000Z"
  else "1970-01-01T00:00:00.000Z".

Definition sign (claims : Obj) (at_time : Z) : string :=
  match claims !! "user_id" with
  | Some (JStr id) => "jwt." +:+ id
  | _ => "jwt."
  end.

Definition verify (token : string) (at_time : Z) : Result Obj :=
  match token with
  | String "j" (String "w" (String "t" (String "." id))) =>
      Ok {["user_id" := JStr id]}
  | "expired" => Throw (JwtError "TokenExpiredError")
  | _ => Throw (JwtError "JsonWebTokenError")
  end.

Definition message_of (e : JsError) : string :=
  match e with
  | ZodError _ => "invalid input"
  | JwtError _ => "invalid token"
  | DatabaseError d => d
  | TypeError d => d
  end.

Definition rt : Runtime := {|
  is_email := email_shape;
  Date_new := parse_date;
  toISOString := print_date;
  jwt_sign := sign;
  jwt_verify := verify;
  prepareValue := λ _, "";
  error_message := message_of;
  error_stack := λ _, ""
|}.

Definition cfg : Config := {|
  development := false;
  public_files := [["index.html"]];
  public_dirs := [[]]
|}.

Definition env : Env := {|
  now := 1704067200000;
  uuid := "3f2c1a9e-0000-4000-8000-000000000001"
|}.

(** A request with the given method, path, bearer token and body. *)
Definition request (m : Method) (p : list string) (token : option string)
    (b : list (string * JsVal)) : Request := {|
  method := m; path := p;
  authorization := (λ t, "Bearer " +:+ t) <$> token;
  query := ∅; body := JObj (list_to_map b);
  params := ∅; user := None
|}.

End sample.

(* ===================================================================== *)
(** ** Reading a response *)
(* ===================================================================== *)

(** A top-level field of a JSON response; none for a file or a page. *)
Definition response_field (r : Response) (k : string) : option JsVal :=
  match payload r with
  | json v => field v k
  | _ => None
  end.

Definition error_code (r : Response) : option JsVal := response_field r "error_code".

(** The guard lets the request through: it carries a token that verifies and
    whose user is found, and [me] is the user attached to the request. *)
Definition authenticated (rt : Runtime) (env : Env) (req : Request) (db : Db)
    (me : Obj) : Prop :=
  ∃ token decoded rest,
    bearer_token (authorization req) = Some token
    ∧ token ≠ ""
    ∧ jwt_verify rt token (now env) = Ok decoded
    ∧ sql.project ["id"; "email"; "name"; "created_at"] <$>
        sql.select_where rt users "id" (decoded !! "user_id") db = me :: rest.

(* ===================================================================== *)
(** ** The update endpoints, as the specification reads them *)
(* ===================================================================== *)

Inductive UpdateEndpoint : Type :=
  | up_user | up_dashboard | up_calculator | up_thread
  | up_event | up_resource | up_alert.

Definition up_handler (rt : Runtime) (cfg : Config) (e : UpdateEndpoint)
    : Env -> Request -> Db -> Response * Db :=
  match e with
  | up_user => put_user rt cfg
  | up_dashboard => patch_dashboard rt cfg
  | up_calculator => patch_impact_calculator rt cfg
  | up_thread => patch_forum rt cfg
  | up_event => patch_event rt cfg
  | up_resource => patch_resource rt cfg
  | up_alert => patch_alert rt cfg
  end.

Definition up_schema (e : UpdateEndpoint) : z.object :=
  match e with
  | up_user => updateUserInputSchema
  | up_dashboard => updateUserDashboardInputSchema
  | up_calculator => updateImpactCalculatorInputSchema
  | up_thread => updateEcoCommunityForumInputSchema
  | up_event => updateEventInputSchema
  | up_resource => updateResourceLibraryInputSchema
  | up_alert => updateAlertInputSchema
  end.

Definition up_table (e : UpdateEndpoint) : Table :=
  match e with
  | up_user => users
  | up_dashboard => user_dashboards
  | up_calculator => impact_calculators
  | up_thread => eco_community_forum
  | up_event => events
  | up_resource => resource_library
  | up_alert => alerts
  end.

(** The route parameter that names the record and the column it is
    compared with. *)
Definition up_param (e : UpdateEndpoint) : string :=
  match e with
  | up_user | up_dashboard | up_calculator => "user_id"
  | up_thread | up_event | up_resource | up_alert => "id"
  end.

Definition up_column (e : UpdateEndpoint) : string :=
  match e with
  | up_dashboard | up_calculator => "user_id"
  | up_user | up_thread | up_event | up_resource | up_alert => "id"
  end.

(** The field of the body that the endpoint's validator requires. *)
Definition up_identifier (e : UpdateEndpoint) : string :=
  match e with
  | up_dashboard => "user_id"
  | _ => "id"
  end.

Definition up_not_found (e : UpdateEndpoint) : string * string :=
  match e with
  | up_user => ("User not found", "USER_NOT_FOUND")
  | up_dashboard => ("Dashboard not found", "DASHBOARD_NOT_FOUND")
  | up_calculator => ("Impact calculator not found", "CALCULATOR_NOT_FOUND")
  | up_thread => ("Forum thread not found", "THREAD_NOT_FOUND")
  | up_event => ("Event not found", "EVENT_NOT_FOUND")
  | up_resource => ("Resource not found", "RESOURCE_NOT_FOUND")
  | up_alert => ("Alert not found", "ALERT_NOT_FOUND")
  end.

(** The record in a 200 answer, from the updated row. *)
Definition up_record (e : UpdateEndpoint) (row : Obj) : JsVal :=
  match e with
  | up_user => with_created_at (sql.project ["id"; "email"; "name"; "created_at"] row)
  | up_dashboard => dashboard_json row
  | up_calculator | up_resource => JObj row
  | up_thread | up_alert => with_created_at row
  | up_event => with_event_date row
  end.

(** How a handler treats an updatable field of the validated body. *)
Inductive Rule : Type :=
  | as_given                  (* applied whenever present, null included *)
  | if_non_empty              (* applied when a non-empty text *)
  | lower_cased_trimmed       (* applied when non-empty, lower-cased and trimmed *)
  | trimmed                   (* applied when non-empty, trimmed *)
  | as_iso_date.              (* applied when present, in ISO form *)

Definition updatable (e : UpdateEndpoint) : list (string * Rule) :=
  match e with
  | up_user =>
      [("email", lower_cased_trimmed); ("name", trimmed);
       ("password_hash", if_non_empty)]
  | up_dashboard =>
      [("carbon_footprint", as_given); ("historical_data", as_given);
       ("daily_tips", as_given); ("challenges", as_given)]
  | up_calculator =>
      [("travel_habits", as_given); ("energy_consumption", as_given);
       ("waste_management", as_given)]
  | up_thread => [("thread_title", if_non_empty); ("content", if_non_empty)]
  | up_event =>
      [("event_name", if_non_empty); ("event_date", as_iso_date);
       ("location", as_given); ("organizer_id", if_non_empty)]
  | up_resource =>
      [("content_type", if_non_empty); ("title", if_non_empty);
       ("description", as_given); ("content_url", as_given);
       ("author_id", if_non_empty)]
  | up_alert => [("alert_type", if_non_empty); ("message", if_non_empty)]
  end.

(** The value a supplied field is stored as, if the field counts. *)
Definition effective (rt : Runtime) (r : Rule) (x : JsVal) : option JsVal :=
  match r, x with
  | as_given, _ => Some x
  | if_non_empty, JStr s => if String.eqb s "" then None else Some x
  | lower_cased_trimmed, JStr s =>
      if String.eqb s "" then None else Some (JStr (trim (toLowerCase s)))
  | trimmed, JStr s => if String.eqb s "" then None else Some (JStr (trim s))
  | as_iso_date, JDate ms => Some (JStr (toISOString rt ms))
  | _, _ => None
  end.

(** The fields of a validated body that count as supplied, each with the
    value it is stored as. *)
Definition supplied (rt : Runtime) (e : UpdateEndpoint) (validated : Obj)
    : list (string * JsVal) :=
  omap (λ fr : string * Rule,
          x ← validated !! fr.1; y ← effective rt fr.2 x; Some (fr.1, y))
       (updatable e).

(** A row with the given columns overwritten. *)
Definition apply_fields (fields : list (string * JsVal)) (row : Obj) : Obj :=
  foldl (λ r cx, <[cx.1 := cx.2]> r) row fields.

(** The value the fields give a column, if any. *)
Definition assigned (fields : list (string * JsVal)) (col : string) : option JsVal :=
  snd <$> (snd <$> list_find (λ cx, bool_decide (cx.1 = col)) fields).

(** The table after the fields were written to the rows that match. *)
Definition updated_rows (rt : Runtime) (fields : list (string * JsVal))
    (col : string) (key : option JsVal) (rows : list Obj) : list Obj :=
  (λ r, if sql.eq_param rt col key r then apply_fields fields r else r) <$> rows.

(** What a validated value looks like under a schema. *)
Fixpoint admits (s : z.Schema) (o : option JsVal) : Prop :=
  match s with
  | z.string _ => ∃ x, o = Some (JStr x)
  | z.number _ => ∃ q, o = Some (JNum q)
  | z.boolean => ∃ b, o = Some (JBool b)
  | z.coerce_date => ∃ ms, o = Some (JDate ms)
  | z.enum alternatives => ∃ x, o = Some (JStr x) ∧ x ∈ alternatives
  | z.optional s' => o = None ∨ admits s' o
  | z.nullable s' => o = Some JNull ∨ admits s' o
  | z.default s' _ => admits s' o
  end.



(** Fields as the [SET] list of a statement. *)
Definition some_fields (fields : list (string * JsVal))
    : list (string * option JsVal) :=
  (λ cx, (cx.1, Some cx.2)) <$> fields.

(** Values that a column stores as they are. *)
Definition storable (rt : Runtime) (def : TableDef) (fields : list (string * JsVal))
    : Prop :=
  Forall (λ cx, sql.store rt (sql.col_type def cx.1) (Some cx.2) = Ok cx.2) fields.

(** The part that the seven update handlers share, once the fields to write
    are collected. *)
Definition finish_update (rt : Runtime) (cfg : Config) (env : Env) (t : Table)
    (col : string) (key : option JsVal) (not_found : string * string)
    (record : Obj -> JsVal) (updateFields : list (string * option JsVal))
    : Db -> Response * Db :=
  try_catch (
    if (length updateFields =? 0)%nat then
      ret (res_json 400 (createErrorResponse rt cfg env "No valid fields to update"
                           None "NO_UPDATE_FIELDS"))
    else
      result <- exec (sql.update rt t updateFields col key) ;;
      match result with
      | [] => ret (res_json 404 (createErrorResponse rt cfg env not_found.1 None
                                   not_found.2))
      | row :: _ => ret (res_json 200 (record row))
      end
  ) (catch_zod rt cfg env "Invalid input data").

(** The empty calculator that a first read stores for a user. *)
Definition default_calculator (id uid : string) : Obj :=
  <["id" := JStr id]> (<["user_id" := JStr uid]> (<["travel_habits" := JNull]>
    (<["energy_consumption" := JNull]> (<["waste_management" := JNull]> ∅)))).


(* ===================================================================== *)
(** ** Further notions used to state properties of the handlers *)
(* ===================================================================== *)

(** The same request with another body, and with another Authorization
    header. *)
Definition with_body (b : JsVal) (req : Request) : Request :=
  {| method := method req; path := path req; authorization := authorization req;
     query := query req; body := b; params := params req; user := user req |}.

Definition with_authorization (h : option string) (req : Request) : Request :=
  {| method := method req; path := path req; authorization := h;
     query := query req; body := body req; params := params req; user := user req |}.

(** Every key of every table is unique: the primary keys and the e-mail
    addresses. *)
Definition keys_unique (db : Db) : Prop :=
  ∀ t, sql.check_unique (ddl t) (rows_of t db) = true.

(** The row holds the text under the column. *)
Definition holds (row : Obj) (col : string) (text : string) : Prop :=
  sql.cell_text (row !! col) = Some text.

Global Instance holds_dec row col text : Decision (holds row col text).
Proof. unfold holds. apply _. Defined.

(** The four endpoints that create a record other than a user. *)
Inductive CreateEndpoint : Type :=
  | cr_thread | cr_event | cr_resource | cr_alert.

Definition cr_handler (rt : Runtime) (cfg : Config) (e : CreateEndpoint)
    : Env -> Request -> Db -> Response * Db :=
  match e with
  | cr_thread => post_forum rt cfg
  | cr_event => post_event rt cfg
  | cr_resource => post_resource rt cfg
  | cr_alert => post_alert rt cfg
  end.

Definition cr_schema (e : CreateEndpoint) : z.object :=
  match e with
  | cr_thread => createEcoCommunityForumInputSchema
  | cr_event => createEventInputSchema
  | cr_resource => createResourceLibraryInputSchema
  | cr_alert => createAlertInputSchema
  end.

Definition cr_table (e : CreateEndpoint) : Table :=
  match e with
  | cr_thread => eco_community_forum
  | cr_event => events
  | cr_resource => resource_library
  | cr_alert => alerts
  end.

(** The column that names the user the record belongs to. *)
Definition cr_owner_column (e : CreateEndpoint) : string :=
  match e with
  | cr_thread | cr_alert => "user_id"
  | cr_event => "organizer_id"
  | cr_resource => "author_id"
  end.

(** Where the handler takes the owner from: the validated body, except for
    an alert, whose owner is the parameter of the path. *)
Definition cr_owner (e : CreateEndpoint) (req : Request) (validated : Obj)
    : option JsVal :=
  match e with
  | cr_alert => JStr <$> params req !! "user_id"
  | _ => validated !! cr_owner_column e
  end.

(** The record in a 201 answer, from the stored row. *)
Definition cr_record (e : CreateEndpoint) (row : Obj) : JsVal :=
  match e with
  | cr_thread | cr_alert => with_created_at row
  | cr_event => with_event_date row
  | cr_resource => JObj row
  end.

(** The row a create endpoint stores for a validated body: the fresh id, the
    owner, the fields of the body that the [INSERT] names, and the date in
    ISO form. *)
Definition created_row (rt : Runtime) (e : CreateEndpoint) (env : Env)
    (req : Request) (validated : Obj) : Obj :=
  let id := JStr (uuid env) in
  let owner := default JNull (cr_owner e req validated) in
  let copy := λ c, default JNull (validated !! c) in
  let iso := λ c, match validated !! c with
                  | Some (JDate ms) => JStr (toISOString rt ms)
                  | _ => JNull
                  end in
  match e with
  | cr_thread =>
      <["id" := id]> (<["user_id" := owner]>
        (<["thread_title" := copy "thread_title"]> (<["content" := copy "content"]>
          (<["created_at" := iso "created_at"]> ∅))))
  | cr_event =>
      <["id" := id]> (<["event_name" := copy "event_name"]>
        (<["event_date" := iso "event_date"]> (<["location" := copy "location"]>
          (<["organizer_id" := owner]> ∅))))
  | cr_resource =>
      <["id" := id]> (<["content_type" := copy "content_type"]>
        (<["title" := copy "title"]> (<["description" := copy "description"]>
          (<["content_url" := copy "content_url"]> (<["author_id" := owner]> ∅)))))
  | cr_alert =>
      <["id" := id]> (<["user_id" := owner]>
        (<["alert_type" := copy "alert_type"]> (<["message" := copy "message"]>
          (<["created_at" := iso "created_at"]> ∅))))
  end.

(** The text of a value that is a text. *)
Definition text_of (v : option JsVal) : string := default "" (sql.cell_text v).

(** The row that a registration stores for a validated body. *)
Definition registered_user (rt : Runtime) (env : Env) (validated : Obj) : Obj :=
  <["id" := JStr (uuid env)]>
    (<["email" := JStr (trim (toLowerCase (text_of (validated !! "email"))))]>
      (<["name" := JStr (trim (text_of (validated !! "name")))]>
        (<["created_at" := JStr (toISOString rt (now env))]>
          (<["password_hash" := JStr (text_of (validated !! "password_hash"))]> ∅)))).

(** The dashboard that a registration stores for the new user. *)
Definition zero_dashboard (uid : string) : Obj :=
  <["user_id" := JStr uid]> (<["carbon_footprint" := JNum 0]>
    (<["historical_data" := JNull]> (<["daily_tips" := JNull]>
      (<["challenges" := JNull]> ∅)))).

(** The body of a 201 answer to a registration. *)
Definition registered_json (rt : Runtime) (env : Env) (validated : Obj) : JsVal :=
  let user := registered_user rt env validated in
  JObj (<["token" := JStr (jwt_sign rt
                             (object_literal [("user_id", user !! "id");
                                              ("email", user !! "email")])
                             (now env))]> user).

(** A computation on the store keeps a property of the store. *)
Definition keeps {A} (P : Db -> Prop) (f : Db -> A * Db) : Prop :=
  ∀ db, P db -> P (f db).2.

(** The rows are in the order of the column: each row is before the next. *)
Definition ordered (col : string) (dir : sql.Direction) (rows : list Obj) : Prop :=
  Sorted (λ a b, sql.before dir col a b = true) rows.

(** The handler that lists the records that a create endpoint makes. *)
Definition cr_list (rt : Runtime) (cfg : Config) (e : CreateEndpoint)
    : Env -> Request -> Db -> Response * Db :=
  match e with
  | cr_thread => get_forum rt cfg
  | cr_event => get_events rt cfg
  | cr_resource => get_resources rt cfg
  | cr_alert => get_alerts rt cfg
  end.

(** The answer of the list that belongs to a create endpoint: the rows of
    the table (for the alerts, those of the user of the path) in the order of
    the statement. *)
Definition cr_listed (rt : Runtime) (e : CreateEndpoint) (req : Request) (db : Db)
    : list Obj :=
  match e with
  | cr_thread => sql.order_by "created_at" sql.DESC (rows_of eco_community_forum db)
  | cr_event => sql.order_by "event_date" sql.ASC (rows_of events db)
  | cr_resource => sql.order_by "title" sql.ASC (rows_of resource_library db)
  | cr_alert =>
      sql.order_by "created_at" sql.DESC
        (sql.select_where rt alerts "user_id" (JStr <$> params req !! "user_id") db)
  end.


(** The handler that reads the one record that an update endpoint changes,
    for the endpoints that have one. *)
Definition up_reader (rt : Runtime) (cfg : Config) (e : UpdateEndpoint)
    : option (Env -> Request -> Db -> Response * Db) :=
  match e with
  | up_user => Some (get_user rt cfg)
  | up_dashboard => Some (get_dashboard rt cfg)
  | up_calculator => Some (get_impact_calculator rt cfg)
  | _ => None
  end.





(** The list that shows the records of an update endpoint, for the
    endpoints whose records are read as a list. *)
Definition up_lister (e : UpdateEndpoint) : option CreateEndpoint :=
  match e with
  | up_thread => Some cr_thread
  | up_event => Some cr_event
  | up_resource => Some cr_resource
  | up_alert => Some cr_alert
  | _ => None
  end.

(* ===================================================================== *)
(** ** The authentication guard *)
(* ===================================================================== *)

Section guard.

Context (rt : Runtime) (cfg : Config).

Lemma truthy_token (token : string) :
  truthy (JStr <$> Some token) = negb (String.eqb token "").
Proof. reflexivity. Qed.




Lemma guard_passes env req next db me :
  authenticated rt env req db me ->
  authenticateToken rt cfg env req next db = next (set_user me req) db.
Proof.
  intros (token & decoded & rest & Htok & Hne & Hver & Hsel).
  unfold authenticateToken.
  rewrite Htok, truthy_token.
  destruct (String.eqb_spec token "") as [->|_]; [done|]. simpl.
  by rewrite Hver, Hsel.
Qed.

End guard.

(* ===================================================================== *)
(** ** Error bodies *)
(* ===================================================================== *)

Section error_bodies.

Context (rt : Runtime) (cfg : Config).

Lemma createErrorResponse_error_code env message error code :
  code ≠ "" ->
  field (createErrorResponse rt cfg env message error code) "error_code"
  = Some (JStr code).
Proof.
  intros Hne. unfold createErrorResponse, field.
  destruct (String.eqb_spec code "") as [->|_]; [done|]. simpl.
  destruct error as [e|]; [destruct (development cfg)|]; by simplify_map_eq.
Qed.

(** An error body has no field beyond the five of [ErrorResponse]. *)
Lemma createErrorResponse_fields env message error code k :
  k ≠ "success" -> k ≠ "message" -> k ≠ "timestamp" ->
  k ≠ "error_code" -> k ≠ "details" ->
  field (createErrorResponse rt cfg env message error code) k = None.
Proof.
  intros. unfold createErrorResponse, field.
  destruct (negb (String.eqb code "")); destruct error as [e|];
    try destruct (development cfg);
    rewrite ?lookup_insert_ne by done; by apply lookup_singleton_ne.
Qed.

Lemma error_code_res_json http env message error code :
  code ≠ "" ->
  error_code (res_json http (createErrorResponse rt cfg env message error code))
  = Some (JStr code).
Proof.
  intros Hne. unfold error_code, response_field, res_json. cbn [payload].
  by apply createErrorResponse_error_code.
Qed.

End error_bodies.

(* ===================================================================== *)
(** ** Routing *)
(* ===================================================================== *)

(** The route of [GET /api/users/search] is registered after that of
    [GET /api/users/:user_id], whose parameter takes the segment [search]:
    the request is answered by the single-user handler. *)
Lemma search_route_shadowed rt cfg env req db :
  method req = GET ->
  path req = ["api"; "users"; "search"] ->
  router rt cfg env req db
  = authenticateToken rt cfg env (set_params {["user_id" := "search"]} req)
      (get_user rt cfg env) db.
Proof.
  intros Hm Hp. destruct req as [m p a q b ps u]. simpl in Hm, Hp. subst m p.
  reflexivity.
Qed.


(** The routes that skip the guard are registration, login, the health
    check and the fallback of the single-page application. *)
Lemma unguarded_routes rt cfg r :
  r ∈ routes rt cfg ->
  route_guarded r = false ->
  route_pattern r ∈ [at_path [lit "api"; lit "auth"; lit "register"];
                     at_path [lit "api"; lit "auth"; lit "login"];
                     at_path [lit "api"; lit "health"];
                     not_api].
Proof.
  unfold routes. intros Hr Hg.
  repeat (apply elem_of_cons in Hr as [-> | Hr]; [simpl in *; try done; set_solver|]).
  by apply elem_of_nil in Hr.
Qed.

(* ===================================================================== *)
(** ** Facts about validation *)
(* ===================================================================== *)

Section zod_facts.
Context (rt : Runtime).

Lemma parse_fields_dom shape input out issues k :
  z.parse_fields rt shape input = (out, issues) ->
  is_Some (out !! k) -> k ∈ shape.*1.
Proof.
  revert out issues. induction shape as [|[key s] rest IH]; intros out issues.
  - simpl. intros [= <- <-]. rewrite lookup_empty. by intros [? ?].
  - simpl. destruct (z.parse_fields rt rest input) as [out' issues'] eqn:Hrest.
    destruct (z.parse_value rt s (input !! key)) as [[v|]|];
      intros [= <- <-] Hk.
    + destruct (decide (key = k)) as [->|Hne]; [set_solver|].
      rewrite lookup_insert_ne in Hk by done. apply elem_of_cons. right. eauto.
    + apply elem_of_cons. right. eauto.
    + apply elem_of_cons. right. eauto.
Qed.

Lemma parse_fields_lookup shape input out k s :
  NoDup shape.*1 ->
  z.parse_fields rt shape input = (out, []) ->
  (k, s) ∈ shape ->
  z.parse_value rt s (input !! k) = Some (out !! k).
Proof.
  revert out. induction shape as [|[key s'] rest IH]; intros out Hnd Hparse Hin.
  - by apply elem_of_nil in Hin.
  - simpl in Hparse. apply NoDup_cons in Hnd as [Hfresh Hnd].
    destruct (z.parse_fields rt rest input) as [out' issues'] eqn:Hrest.
    assert (out' !! key = None) as Hnone.
    { destruct (out' !! key) eqn:E; [|done]. exfalso. apply Hfresh.
      eapply parse_fields_dom; eauto. }
    apply elem_of_cons in Hin as [[= -> ->]|Hin].
    + destruct (z.parse_value rt s' (input !! key)) as [[v|]|];
        simplify_eq; by rewrite ?lookup_insert_eq, ?Hnone.
    + assert (k ≠ key) as Hne.
      { intros ->. apply Hfresh. apply list_elem_of_fmap. by exists (key, s). }
      destruct (z.parse_value rt s' (input !! key)) as [[v|]|]; simplify_eq;
        rewrite ?lookup_insert_ne by done; by apply IH.
Qed.

Lemma parse_ok_lookup shape data v k s :
  NoDup shape.*1 ->
  z.parse rt shape data = Ok v ->
  (k, s) ∈ shape ->
  z.parse_value rt s (field data k) = Some (v !! k).
Proof.
  intros Hnd Hparse Hin. unfold z.parse in Hparse.
  destruct data; try done. simpl.
  destruct (z.parse_fields rt shape fields) as [out [|]] eqn:E; [|done].
  simplify_eq. by eapply parse_fields_lookup.
Qed.

Lemma parse_ok_only_recognized shape data v k :
  z.parse rt shape data = Ok v -> is_Some (v !! k) -> k ∈ shape.*1.
Proof.
  unfold z.parse. destruct data; try done.
  destruct (z.parse_fields rt shape fields) as [out [|]] eqn:E; [|done].
  intros [= <-]. by eapply parse_fields_dom.
Qed.

End zod_facts.

Lemma parse_value_admits rt s input o :
  z.parse_value rt s input = Some o -> admits s o.
Proof.
  revert input o. induction s as [cs|cs| | |alts|s IH|s IH|s IH d]; intros input o; simpl.
  - destruct input as [[]|]; try done.
    destruct (forallb _ _); [|done]. intros [= <-]. eauto.
  - destruct input as [[]|]; try done.
    destruct (forallb _ _); [|done]. intros [= <-]. eauto.
  - destruct input as [[]|]; try done. intros [= <-]. eauto.
  - destruct input as [x|]; [|done].
    destruct (Date_new rt x); [|done]. intros [= <-]. eauto.
  - destruct input as [[]|]; try done.
    case_bool_decide; [|done]. intros [= <-]. eauto.
  - destruct input as [x|]; [|intros [= <-]; by left].
    intros H. right. eauto.
  - destruct input as [[]|]; try (intros H; right; by eauto).
    intros [= <-]. by left.
  - destruct input as [x|]; eauto.
Qed.

(** A validated body holds, under each key of the schema, a value the
    schema of that key admits. *)
Lemma validated_admits rt shape data v k s :
  NoDup shape.*1 ->
  z.parse rt shape data = Ok v ->
  (k, s) ∈ shape ->
  admits s (v !! k).
Proof.
  intros Hnd Hparse Hin. eapply parse_value_admits, parse_ok_lookup; eauto.
Qed.

(* ===================================================================== *)
(** ** Facts about the store *)
(* ===================================================================== *)

Lemma rows_of_with_rows t rows db : rows_of t (with_rows t rows db) = rows.
Proof. by destruct t. Qed.

Lemma rows_of_with_rows_ne t t' rows db :
  t ≠ t' -> rows_of t' (with_rows t rows db) = rows_of t' db.
Proof. by destruct t, t'. Qed.

Lemma with_rows_same t db : with_rows t (rows_of t db) db = db.
Proof. by destruct t, db. Qed.

Lemma accept_ok t written rows' db db' :
  sql.accept t written rows' db = Ok db' ->
  db' = with_rows t rows' db
  ∧ forallb (sql.check_not_null (ddl t)) written = true
  ∧ sql.check_unique (ddl t) rows' = true
  ∧ forallb (sql.check_references db (ddl t)) written = true.
Proof.
  unfold sql.accept.
  destruct (forallb (sql.check_not_null _) _); [|done].
  destruct (sql.check_unique _ _); [|done].
  destruct (forallb (sql.check_references _ _) _); [|done].
  simpl. by intros [= <-].
Qed.

Lemma accept_nothing t db :
  sql.check_unique (ddl t) (rows_of t db) = true ->
  sql.accept t [] (rows_of t db) db = Ok db.
Proof.
  intros Hu. unfold sql.accept. rewrite Hu. simpl. by rewrite with_rows_same.
Qed.

Lemma insert_ok rt t given db row db' :
  sql.insert rt t given db = Ok (row, db') ->
  sql.build_row rt (columns (ddl t)) given = Ok row
  ∧ db' = with_rows t (rows_of t db ++ [row]) db.
Proof.
  unfold sql.insert. destruct (sql.build_row _ _ _) as [r|]; [|done].
  destruct (sql.accept _ _ _ _) as [d|] eqn:Ha; [|done].
  intros [= <- <-]. split; [done|]. by apply accept_ok in Ha as [-> _].
Qed.

Lemma assign_storable rt def fields row :
  storable rt def fields ->
  sql.assign rt def (some_fields fields) row = Ok (apply_fields fields row).
Proof.
  intros Hs. revert row. induction Hs as [|[c x] fields Hc Hs IH]; intros row.
  - done.
  - simpl in *. rewrite Hc. apply IH.
Qed.

Lemma update_rows_storable rt def fields col key rows :
  storable rt def fields ->
  sql.update_rows rt def (some_fields fields) col key rows
  = Ok (apply_fields fields <$> filter (λ r, sql.eq_param rt col key r = true) rows,
        updated_rows rt fields col key rows).
Proof.
  intros Hs. unfold updated_rows. induction rows as [|r rows IH]; [done|].
  simpl. rewrite IH. rewrite filter_cons.
  destruct (sql.eq_param rt col key r) eqn:E.
  - rewrite assign_storable by done. rewrite decide_True by done. done.
  - rewrite decide_False by done. done.
Qed.

Lemma updated_rows_untouched rt fields col key rows :
  filter (λ r, sql.eq_param rt col key r = true) rows = [] ->
  updated_rows rt fields col key rows = rows.
Proof.
  unfold updated_rows. induction rows as [|r rows IH]; [done|].
  rewrite filter_cons, fmap_cons.
  destruct (sql.eq_param rt col key r).
  - rewrite decide_True by done. done.
  - rewrite decide_False by done. intros H. by rewrite IH.
Qed.

Lemma apply_fields_lookup fields row c :
  NoDup fields.*1 ->
  apply_fields fields row !! c
  = match assigned fields c with
    | Some x => Some x
    | None => row !! c
    end.
Proof.
  unfold apply_fields, assigned. revert row.
  induction fields as [|[c' x] fields IH]; intros row Hnd; [done|].
  apply NoDup_cons in Hnd as [Hfresh Hnd]. simpl. rewrite IH by done.
  case_bool_decide as Hc; simpl.
  - subst c'.
    destruct (list_find _ fields) as [[i [c'' y]]|] eqn:E; simpl.
    + apply list_find_Some in E as (Hi & Hc' & _). simpl in Hc'.
      apply bool_decide_unpack in Hc'. subst c''. exfalso. apply Hfresh.
      apply list_elem_of_fmap. exists (c, y). split; [done|].
      by eapply list_elem_of_lookup_2.
    + by rewrite lookup_insert_eq.
  - destruct (list_find _ fields) as [[i [c'' y]]|]; simpl; [done|].
    by rewrite lookup_insert_ne.
Qed.

(* ===================================================================== *)
(** ** The update handlers *)
(* ===================================================================== *)

Lemma up_schema_NoDup e : NoDup (up_schema e).*1.
Proof. destruct e; apply (bool_decide_unpack _); vm_compute; exact I. Qed.

Ltac in_list :=
  repeat first [apply list_elem_of_here | apply list_elem_of_further].

(** The shape of the validated value under key [k]. *)
Ltac kind_of e Hparse k :=
  let K := fresh "K" in
  pose proof (validated_admits _ _ _ _ k _ (up_schema_NoDup e) Hparse ltac:(in_list))
    as K;
  simpl in K.

(** Each handler, on a validated body, is the common tail of the update
    handlers run on the fields that count as supplied. *)
Lemma up_handler_finish rt cfg e env req db v :
  z.parse rt (up_schema e) (body req) = Ok v ->
  (e = up_user ->
   strict_eq (user req ≫= (.!! "id")) (JStr <$> params req !! "user_id") = true) ->
  up_handler rt cfg e env req db
  = finish_update rt cfg env (up_table e) (up_column e)
      (JStr <$> params req !! up_param e) (up_not_found e) (up_record e)
      (some_fields (supplied rt e v)) db
  ∧ storable rt (ddl (up_table e)) (supplied rt e v).
Proof.
  intros Hparse Hme. destruct e.
  - specialize (Hme eq_refl).
    kind_of up_user Hparse "email".
    kind_of up_user Hparse "name".
    kind_of up_user Hparse "password_hash".
    unfold up_handler, put_user, finish_update, try_catch, bind, lift, supplied.
    simpl in Hparse. rewrite Hparse. simpl. rewrite Hme. simpl.
    destruct K as [K|[x K]], K0 as [K0|[y K0]], K1 as [K1|[w K1]];
      rewrite ?K, ?K0, ?K1; simpl.
    all: try destruct (String.eqb x ""); try destruct (String.eqb y "");
      try destruct (String.eqb w ""); simpl.
    all: split; [|repeat constructor].
    all: try reflexivity.
    all: by destruct (exec _ _) as [[[|? ?]|?] ?].
  - kind_of up_dashboard Hparse "carbon_footprint".
    kind_of up_dashboard Hparse "historical_data".
    kind_of up_dashboard Hparse "daily_tips".
    kind_of up_dashboard Hparse "challenges".
    unfold up_handler, patch_dashboard, finish_update, try_catch, bind, lift, supplied.
    simpl in Hparse. rewrite Hparse.
    destruct K as [K|[q K]], K0 as [K0|[K0|[x K0]]], K1 as [K1|[K1|[y K1]]],
      K2 as [K2|[K2|[w K2]]]; simpl; rewrite ?K, ?K0, ?K1, ?K2; simpl.
    all: split; [reflexivity | repeat constructor].
  - kind_of up_calculator Hparse "travel_habits".
    kind_of up_calculator Hparse "energy_consumption".
    kind_of up_calculator Hparse "waste_management".
    unfold up_handler, patch_impact_calculator, finish_update, try_catch, bind, lift,
      supplied.
    simpl in Hparse. rewrite Hparse.
    destruct K as [K|[K|[x K]]], K0 as [K0|[K0|[y K0]]], K1 as [K1|[K1|[w K1]]];
      simpl; rewrite ?K, ?K0, ?K1; simpl.
    all: split; [reflexivity | repeat constructor].
  - kind_of up_thread Hparse "thread_title".
    kind_of up_thread Hparse "content".
    unfold up_handler, patch_forum, finish_update, try_catch, bind, lift, supplied.
    simpl in Hparse. rewrite Hparse.
    destruct K as [K|[x K]], K0 as [K0|[y K0]]; simpl; rewrite ?K, ?K0; simpl.
    all: try destruct (String.eqb x ""); try destruct (String.eqb y ""); simpl.
    all: split; [reflexivity | repeat constructor].
  - kind_of up_event Hparse "event_name".
    kind_of up_event Hparse "event_date".
    kind_of up_event Hparse "location".
    kind_of up_event Hparse "organizer_id".
    unfold up_handler, patch_event, finish_update, try_catch, bind, lift, supplied.
    simpl in Hparse. rewrite Hparse.
    destruct K as [K|[x K]], K0 as [K0|[ms K0]], K1 as [K1|[K1|[l K1]]],
      K2 as [K2|[o K2]]; simpl; rewrite ?K, ?K0, ?K1, ?K2; simpl.
    all: try destruct (String.eqb x ""); try destruct (String.eqb o ""); simpl.
    all: split; [reflexivity | repeat constructor].
  - kind_of up_resource Hparse "content_type".
    kind_of up_resource Hparse "title".
    kind_of up_resource Hparse "description".
    kind_of up_resource Hparse "content_url".
    kind_of up_resource Hparse "author_id".
    unfold up_handler, patch_resource, finish_update, try_catch, bind, lift, supplied.
    simpl in Hparse. rewrite Hparse.
    destruct K as [K|[x K]], K0 as [K0|[y K0]], K1 as [K1|[K1|[d K1]]],
      K2 as [K2|[K2|[u K2]]], K3 as [K3|[a K3]];
      simpl; rewrite ?K, ?K0, ?K1, ?K2, ?K3; simpl.
    all: try destruct (String.eqb x ""); try destruct (String.eqb y "");
      try destruct (String.eqb a ""); simpl.
    all: split; [reflexivity | repeat constructor].
  - kind_of up_alert Hparse "alert_type".
    kind_of up_alert Hparse "message".
    unfold up_handler, patch_alert, finish_update, try_catch, bind, lift, supplied.
    simpl in Hparse. rewrite Hparse.
    destruct K as [K|[x K]], K0 as [K0|[y K0]]; simpl; rewrite ?K, ?K0; simpl.
    all: try destruct (String.eqb x ""); try destruct (String.eqb y ""); simpl.
    all: split; [reflexivity | repeat constructor].
Qed.

Lemma accept_throw t written rows' db e :
  sql.accept t written rows' db = Throw e -> error_name e = "error".
Proof.
  unfold sql.accept.
  repeat match goal with |- context [if ?b then _ else _] => destruct b end;
    by intros [= <-].
Qed.

(** The tail of an update handler, on fields that are stored as they are. *)
Lemma finish_update_spec rt cfg env t col key not_found record fields db :
  storable rt (ddl t) fields ->
  sql.check_unique (ddl t) (rows_of t db) = true ->
  let targets := sql.select_where rt t col key db in
  let answer := finish_update rt cfg env t col key not_found record
                  (some_fields fields) db in
  (fields = [] ->
     answer = (res_json 400 (createErrorResponse rt cfg env "No valid fields to update"
                               None "NO_UPDATE_FIELDS"), db))
  ∧ (fields ≠ [] -> targets = [] ->
       answer = (res_json 404 (createErrorResponse rt cfg env not_found.1 None
                                 not_found.2), db))
  ∧ (fields ≠ [] -> targets ≠ [] ->
       match sql.accept t (apply_fields fields <$> targets)
               (updated_rows rt fields col key (rows_of t db)) db with
       | Throw error =>
           answer = (res_json 500 (createErrorResponse rt cfg env
                                     "Internal server error" (Some error)
                                     "INTERNAL_SERVER_ERROR"), db)
       | Ok db' =>
           ∃ updated, head (apply_fields fields <$> targets) = Some updated
                      ∧ answer = (res_json 200 (record updated), db')
       end).
Proof.
  intros Hs Hu targets answer. unfold answer, finish_update, try_catch, bind.
  split; [|split].
  - by intros ->.
  - intros Hne Hnone.
    assert ((length (some_fields fields) =? 0)%nat = false) as ->
      by (by destruct fields).
    unfold exec, sql.update.
    rewrite update_rows_storable by done.
    fold (sql.select_where rt t col key db). fold targets. rewrite Hnone.
    rewrite updated_rows_untouched by done. simpl.
    by rewrite accept_nothing.
  - intros Hne Hsome.
    assert ((length (some_fields fields) =? 0)%nat = false) as ->
      by (by destruct fields).
    unfold exec, sql.update.
    rewrite update_rows_storable by done.
    fold (sql.select_where rt t col key db). fold targets.
    destruct (sql.accept _ _ _ _) as [db'|error] eqn:Ha.
    + destruct targets as [|r targets']; [done|]. rewrite fmap_cons.
      eexists. split; reflexivity.
    + apply accept_throw in Ha. unfold catch_zod. by rewrite Ha.
Qed.

Lemma supplied_NoDup rt e v : NoDup (supplied rt e v).*1.
Proof.
  assert (∀ l : list (string * Rule),
            sublist (omap (λ fr : string * Rule,
                             x ← v !! fr.1; y ← effective rt fr.2 x; Some (fr.1, y)) l).*1
                    l.*1) as Hsub.
  { induction l as [|[f r] l IH]; [done|]. simpl.
    destruct (v !! f) as [x|]; simpl; [|by apply sublist_cons].
    destruct (effective rt r x); simpl; [by apply sublist_skip|by apply sublist_cons]. }
  eapply sublist_NoDup; [|apply Hsub].
  destruct e; apply (bool_decide_unpack _); vm_compute; exact I.
Qed.

Lemma up_not_found_code e : (up_not_found e).2 ≠ "".
Proof. by destruct e. Qed.


(* ===================================================================== *)
(** ** Users *)
(* ===================================================================== *)

Lemma project_lookup_other cols (row : Obj) k :
  k ∉ cols -> sql.project cols row !! k = None.
Proof.
  intros Hk. unfold sql.project. apply map_lookup_filter_None. right.
  intros x _ Hin. by apply Hk.
Qed.

Lemma project_lookup cols (row : Obj) k :
  k ∈ cols -> sql.project cols row !! k = row !! k.
Proof.
  intros Hk. unfold sql.project. destruct (row !! k) as [x|] eqn:E.
  - by apply map_lookup_filter_Some.
  - apply map_lookup_filter_None. by left.
Qed.

Lemma spread_with_lookup_ne (o : Obj) k v k' :
  k ≠ k' -> spread_with o k v !! k' = o !! k'.
Proof.
  intros Hne. unfold spread_with. destruct v.
  - by rewrite lookup_insert_ne.
  - by rewrite lookup_delete_ne.
Qed.

(** [{...row, k: row.k}] is the row. *)
Lemma spread_with_same (o : Obj) k : spread_with o k (o !! k) = o.
Proof.
  apply map_eq. intros c. unfold spread_with.
  destruct (o !! k) as [x|] eqn:E; destruct (decide (k = c)) as [<-|Hne];
    by rewrite ?lookup_insert_eq, ?lookup_insert_ne, ?lookup_delete_eq,
         ?lookup_delete_ne.
Qed.

Lemma app_register rt cfg env req db :
  method req = POST ->
  path req = ["api"; "auth"; "register"] ->
  app rt cfg env req db = register rt cfg env (set_params ∅ req) db.
Proof.
  intros Hm Hp. destruct req as [m p a q b ps u]. simpl in Hm, Hp. subst m p.
  reflexivity.
Qed.

Lemma catch_zod_status rt cfg env message error :
  status (catch_zod rt cfg env message error) ≠ 201%nat.
Proof. unfold catch_zod. by destruct (String.eqb _ _). Qed.

Lemma createUserInputSchema_NoDup : NoDup createUserInputSchema.*1.
Proof. apply (bool_decide_unpack _); vm_compute; exact I. Qed.

(** A registration that is answered 201 returns the stored row, credential
    included, and the token. *)
Lemma register_created rt cfg env req db :
  let answer := register rt cfg env req db in
  status answer.1 = 201%nat ->
  ∃ hash stored,
    field (body req) "password_hash" = Some (JStr hash)
    ∧ stored ∈ rows_of users answer.2
    ∧ stored !! "password_hash" = Some (JStr hash)
    ∧ response_field answer.1 "password_hash" = Some (JStr hash)
    ∧ (∀ c, c ≠ "token" -> response_field answer.1 c = stored !! c)
    ∧ ∃ token, response_field answer.1 "token" = Some (JStr token).
Proof.
  intros answer. unfold answer, register, try_catch, bind, lift, rows, exec.
  destruct (z.parse rt createUserInputSchema (body req)) as [v|e] eqn:Hparse;
    [|intros H; by apply catch_zod_status in H].
  pose proof (validated_admits rt _ _ _ "email" _ createUserInputSchema_NoDup Hparse
                ltac:(in_list)) as [em Kem].
  pose proof (validated_admits rt _ _ _ "name" _ createUserInputSchema_NoDup Hparse
                ltac:(in_list)) as [nm Knm].
  pose proof (validated_admits rt _ _ _ "password_hash" _ createUserInputSchema_NoDup
                Hparse ltac:(in_list)) as [hash Kpw].
  pose proof (parse_ok_lookup rt _ _ _ "password_hash" _ createUserInputSchema_NoDup
                Hparse ltac:(in_list)) as Hsubmitted.
  rewrite Kem, Knm, Kpw. rewrite Kpw in Hsubmitted.
  destruct (sql.select_where rt users "email" (Some (JStr em)) db) as [|x xs];
    [|by intros H].
  cbn [length Nat.eqb negb string_method].
  destruct (sql.insert rt users _ db) as [[stored db1]|e] eqn:Hins;
    [|intros H; by apply catch_zod_status in H].
  destruct (sql.insert rt user_dashboards _ db1) as [[dash db2]|e] eqn:Hins2;
    [|intros H; by apply catch_zod_status in H].
  intros _. cbn [ret fst snd].
  apply insert_ok in Hins as [Hrow ->]. apply insert_ok in Hins2 as [_ ->].
  cbn in Hrow. injection Hrow as <-.
  exists hash. eexists. split; [|split; [|split; [|split; [|split]]]].
  - simpl in Hsubmitted. destruct (field (body req) "password_hash") as [[]|];
      try done. destruct (_ && _); by simplify_eq.
  - rewrite rows_of_with_rows_ne by done. rewrite rows_of_with_rows.
    apply elem_of_app. right. apply list_elem_of_here.
  - by simplify_map_eq.
  - unfold response_field, res_json, field; cbn [payload].
    rewrite lookup_insert_ne by done. rewrite spread_with_lookup_ne by done.
    by simplify_map_eq.
  - intros c Hc. unfold response_field, res_json, field; cbn [payload].
    rewrite lookup_insert_ne by done. by rewrite spread_with_same.
  - eexists. unfold response_field, res_json, field; cbn [payload].
    by rewrite lookup_insert_eq.
Qed.

Lemma get_user_no_password_hash rt cfg env req db :
  response_field (get_user rt cfg env req db).1 "password_hash" = None.
Proof.
  unfold get_user, try_catch, bind, rows.
  destruct (sql.select_where rt users "id" _ db) as [|row rest]; cbn [fmap list_fmap ret fst].
  - unfold response_field, res_json; cbn [payload].
    by apply createErrorResponse_fields.
  - unfold response_field, res_json, field; cbn [payload].
    rewrite spread_with_lookup_ne by done. apply project_lookup_other.
    by apply (bool_decide_unpack _).
Qed.

Lemma guarded_get_user_no_password_hash rt cfg env req db :
  response_field (authenticateToken rt cfg env req (get_user rt cfg env) db).1
    "password_hash" = None.
Proof.
  unfold authenticateToken.
  destruct (negb _).
  { unfold response_field, res_json; cbn [payload fst].
    by apply createErrorResponse_fields. }
  destruct (jwt_verify rt _ _) as [decoded|error].
  - destruct (sql.select_where rt users "id" _ db) as [|row rest];
      cbn [fmap list_fmap].
    + unfold response_field, res_json; cbn [payload fst].
      by apply createErrorResponse_fields.
    + apply get_user_no_password_hash.
  - unfold response_field, res_json; cbn [payload fst].
    by apply createErrorResponse_fields.
Qed.

(** What [express.static] answers with: a file, or a redirection to the
    directory that the path names. *)
Lemma serve_static_Some cfg req response :
  serve_static cfg req = Some response ->
  method req = GET
  ∧ ((status response = 200%nat ∧ ∃ p, payload response = file p)
     ∨ (status response = 301%nat ∧ payload response = redirect (path req ++ [""]))).
Proof.
  unfold serve_static. intros H.
  destruct (bool_decide_reflect (method req = GET)) as [Hm|]; [|done].
  split; [done|]. cbn [andb] in H.
  repeat match type of H with
         | (if ?c then _ else _) = _ => destruct c
         | match ?x with _ => _ end = _ => destruct x
         end; simplify_eq; cbn [status payload]; eauto.
Qed.

Lemma get_user_route rt cfg env req db c id :
  method req = GET ->
  path req = ["api"; "users"; String c id] ->
  router rt cfg env req db
  = authenticateToken rt cfg env (set_params {["user_id" := String c id]} req)
      (get_user rt cfg env) db.
Proof.
  intros Hm Hp. destruct req as [m p a q b ps u]. simpl in Hm, Hp. subst m p.
  reflexivity.
Qed.

Lemma app_get_user_no_password_hash rt cfg env req db id :
  method req = GET ->
  path req = ["api"; "users"; id] ->
  response_field (app rt cfg env req db).1 "password_hash" = None.
Proof.
  intros Hm Hp. unfold app.
  destruct (serve_static cfg req) as [response|] eqn:Hstatic.
  { apply serve_static_Some in Hstatic as (_ & [(_ & p & Hp')|(_ & Hp')]);
      unfold response_field; cbn [fst]; by rewrite Hp'. }
  destruct id as [|c id].
  - destruct req as [m p a q b ps u]. simpl in Hm, Hp. subst m p. reflexivity.
  - rewrite (get_user_route _ _ _ _ _ c id Hm Hp).
    apply guarded_get_user_no_password_hash.
Qed.

(* ===================================================================== *)
(** ** Impact calculators *)
(* ===================================================================== *)

Lemma impact_calculator_route rt cfg env req db c id :
  method req = GET ->
  path req = ["api"; "impact-calculator"; String c id] ->
  router rt cfg env req db
  = authenticateToken rt cfg env (set_params {["user_id" := String c id]} req)
      (get_impact_calculator rt cfg env) db.
Proof.
  intros Hm Hp. destruct req as [m p a q b ps u]. simpl in Hm, Hp. subst m p.
  reflexivity.
Qed.

Lemma col_values_app col (xs ys : list Obj) :
  sql.col_values col (xs ++ ys) = sql.col_values col xs ++ sql.col_values col ys.
Proof. unfold sql.col_values. apply omap_app. Qed.

Lemma select_where_app rt t col key db (extra : list Obj) :
  sql.select_where rt t col key (with_rows t (rows_of t db ++ extra) db)
  = sql.select_where rt t col key db
    ++ filter (λ r, sql.eq_param rt col key r = true) extra.
Proof.
  unfold sql.select_where. rewrite rows_of_with_rows. apply filter_app.
Qed.

Lemma insert_default_calculator rt db id uid :
  uid ∈ sql.col_values "id" (rows_of users db) ->
  id ∉ sql.col_values "id" (rows_of impact_calculators db) ->
  sql.check_unique (ddl impact_calculators) (rows_of impact_calculators db) = true ->
  sql.insert rt impact_calculators
    [("id", Some (JStr id)); ("user_id", Some (JStr uid));
     ("travel_habits", Some JNull); ("energy_consumption", Some JNull);
     ("waste_management", Some JNull)] db
  = Ok (default_calculator id uid,
        with_rows impact_calculators
          (rows_of impact_calculators db ++ [default_calculator id uid]) db).
Proof.
  intros Huser Hfresh Hunique. unfold sql.insert.
  change (sql.build_row rt (columns (ddl impact_calculators)) _)
    with (Ok (default_calculator id uid)).
  unfold sql.accept.
  assert (forallb (sql.check_not_null (ddl impact_calculators))
            [default_calculator id uid] = true) as -> by reflexivity.
  assert (sql.check_unique (ddl impact_calculators)
            (rows_of impact_calculators db ++ [default_calculator id uid]) = true)
    as ->.
  { unfold sql.check_unique in *. cbn [forallb primary_key unique ddl] in *.
    rewrite andb_true_r in *. apply bool_decide_eq_true.
    apply bool_decide_eq_true in Hunique.
    rewrite col_values_app. apply NoDup_app. split; [done|]. split.
    - intros x Hx. change (sql.col_values "id" [default_calculator id uid])
        with [id]. intros ->%list_elem_of_singleton. done.
    - change (sql.col_values "id" [default_calculator id uid]) with [id].
      apply NoDup_singleton. }
  assert (forallb (sql.check_references db (ddl impact_calculators))
            [default_calculator id uid] = true) as ->.
  { cbn [forallb]. rewrite andb_true_r. unfold sql.check_references.
    cbn [forallb references ddl]. rewrite andb_true_r.
    change (sql.cell_text (default_calculator id uid !! "user_id")) with (Some uid).
    cbn [fst snd]. by apply bool_decide_eq_true. }
  reflexivity.
Qed.

Lemma first_read_of_calculator rt cfg env req db c id me :
  method req = GET ->
  path req = ["api"; "impact-calculator"; String c id] ->
  serve_static cfg req = None ->
  authenticated rt env req db me ->
  app rt cfg env req db
  = get_impact_calculator rt cfg env
      (set_user me (set_params {["user_id" := String c id]} req)) db.
Proof.
  intros Hm Hp Hstatic Hauth. unfold app. rewrite Hstatic.
  rewrite (impact_calculator_route _ _ _ _ _ c id Hm Hp).
  by apply guard_passes.
Qed.

(* ===================================================================== *)
(** ** Updates that the store accepts *)
(* ===================================================================== *)


Lemma assigned_None fields c : c ∉ fields.*1 -> assigned fields c = None.
Proof.
  intros Hc. unfold assigned.
  destruct (list_find _ fields) as [[i [c' y]]|] eqn:E; [|done].
  apply list_find_Some in E as (Hi & Hc' & _). simpl in Hc'.
  apply bool_decide_unpack in Hc'. subst c'. exfalso. apply Hc.
  apply list_elem_of_fmap. exists (c, y). split; [done|].
  by eapply list_elem_of_lookup_2.
Qed.


Lemma col_values_cons col (r : Obj) rows :
  sql.col_values col (r :: rows)
  = match sql.cell_text (r !! col) with
    | Some x => x :: sql.col_values col rows
    | None => sql.col_values col rows
    end.
Proof. reflexivity. Qed.

Lemma updated_rows_cons rt fields k key r rows :
  updated_rows rt fields k key (r :: rows)
  = (if sql.eq_param rt k key r then apply_fields fields r else r)
    :: updated_rows rt fields k key rows.
Proof. reflexivity. Qed.


Lemma elem_of_col_values col rows x :
  x ∈ sql.col_values col rows ↔ ∃ r, r ∈ rows ∧ sql.cell_text (r !! col) = Some x.
Proof. unfold sql.col_values. rewrite list_elem_of_omap. naive_solver. Qed.




Lemma supplied_keys rt e v c :
  c ∈ (supplied rt e v).*1 -> c ∈ (updatable e).*1.
Proof.
  intros ([c' y] & -> & Hin)%list_elem_of_fmap. unfold supplied in Hin.
  apply list_elem_of_omap in Hin as ([f r] & Hfr & Heq). simpl in *.
  destruct (v !! f) as [x|]; [|done]. simpl in Heq.
  destruct (effective rt r x); [|done]. simpl in Heq. injection Heq as <- <-.
  apply list_elem_of_fmap. by exists (f, r).
Qed.







(* ===================================================================== *)
(** ** Registration, search and required fields *)
(* ===================================================================== *)

Lemma insert_keeps_unique rt t given db row db' :
  sql.insert rt t given db = Ok (row, db') ->
  sql.check_unique (ddl t) (rows_of t db') = true.
Proof.
  unfold sql.insert. destruct (sql.build_row _ _ _) as [r|]; [|done].
  destruct (sql.accept _ _ _ _) as [d|] eqn:Ha; [|done].
  intros [= <- <-]. apply accept_ok in Ha as (-> & _ & Hu & _).
  by rewrite rows_of_with_rows.
Qed.

(** Registration with an address that is stored as submitted is refused
    before any insert. *)
Lemma register_exact_duplicate rt cfg env req db v e :
  z.parse rt createUserInputSchema (body req) = Ok v ->
  v !! "email" = Some (JStr e) ->
  e ∈ sql.col_values "email" (rows_of users db) ->
  register rt cfg env req db
  = (res_json 400 (createErrorResponse rt cfg env
                     "User with this email already exists" None "USER_ALREADY_EXISTS"),
     db).
Proof.
  intros Hparse He Hin. unfold register, try_catch, bind, lift, rows.
  rewrite Hparse, He.
  apply elem_of_col_values in Hin as (r & Hr & Hcell).
  assert (r ∈ sql.select_where rt users "email" (Some (JStr e)) db) as Hsel.
  { unfold sql.select_where. apply list_elem_of_filter. split; [|done].
    unfold sql.eq_param. rewrite Hcell. cbn. apply String.eqb_refl. }
  destruct (sql.select_where rt users "email" (Some (JStr e)) db) as [|x xs];
    [by apply elem_of_nil in Hsel|].
  reflexivity.
Qed.

(** Whatever a registration is answered, e-mail addresses and ids stay
    unique among the stored users. *)
Lemma register_keeps_unique rt cfg env req db :
  sql.check_unique (ddl users) (rows_of users db) = true ->
  sql.check_unique (ddl users) (rows_of users (register rt cfg env req db).2) = true.
Proof.
  intros Hu. unfold register, try_catch, bind, lift, rows, exec.
  destruct (z.parse rt createUserInputSchema (body req)) as [v|e]; [|done].
  destruct (negb _); [done|].
  destruct (string_method _ (v !! "email")) as [em|]; [|done].
  destruct (string_method trim (v !! "name")) as [nm|]; [|done].
  destruct (sql.insert rt users _ db) as [[stored db1]|e] eqn:Hins; [|done].
  apply insert_keeps_unique in Hins.
  destruct (sql.insert rt user_dashboards _ db1) as [[dash db2]|e] eqn:Hins2;
    [|done].
  apply insert_ok in Hins2 as [_ ->]. cbn [ret snd].
  by rewrite rows_of_with_rows_ne.
Qed.

(** A registration that succeeds stores the address lower-cased and
    trimmed. *)
Lemma register_stores_normalised_email rt cfg env req db :
  let answer := register rt cfg env req db in
  status answer.1 = 201%nat ->
  ∃ e stored,
    field (body req) "email" = Some (JStr e)
    ∧ stored ∈ rows_of users answer.2
    ∧ stored !! "email" = Some (JStr (trim (toLowerCase e))).
Proof.
  intros answer. unfold answer, register, try_catch, bind, lift, rows, exec.
  destruct (z.parse rt createUserInputSchema (body req)) as [v|e] eqn:Hparse;
    [|intros H; by apply catch_zod_status in H].
  pose proof (validated_admits rt _ _ _ "email" _ createUserInputSchema_NoDup Hparse
                ltac:(in_list)) as [em Kem].
  pose proof (validated_admits rt _ _ _ "name" _ createUserInputSchema_NoDup Hparse
                ltac:(in_list)) as [nm Knm].
  pose proof (validated_admits rt _ _ _ "password_hash" _ createUserInputSchema_NoDup
                Hparse ltac:(in_list)) as [hash Kpw].
  pose proof (parse_ok_lookup rt _ _ _ "email" _ createUserInputSchema_NoDup
                Hparse ltac:(in_list)) as Hsubmitted.
  rewrite Kem, Knm, Kpw. rewrite Kem in Hsubmitted.
  destruct (sql.select_where rt users "email" (Some (JStr em)) db) as [|x xs];
    [|by intros H].
  cbn [length Nat.eqb negb string_method].
  destruct (sql.insert rt users _ db) as [[stored db1]|e] eqn:Hins;
    [|intros H; by apply catch_zod_status in H].
  destruct (sql.insert rt user_dashboards _ db1) as [[dash db2]|e] eqn:Hins2;
    [|intros H; by apply catch_zod_status in H].
  intros _. cbn [ret fst snd].
  apply insert_ok in Hins as [Hrow ->]. apply insert_ok in Hins2 as [_ ->].
  cbn in Hrow. injection Hrow as <-.
  exists em. eexists. split; [|split].
  - simpl in Hsubmitted. destruct (field (body req) "email") as [[]|];
      try done. destruct (_ && _); by simplify_eq.
  - rewrite rows_of_with_rows_ne by done. rewrite rows_of_with_rows.
    apply elem_of_app. right. apply list_elem_of_here.
  - by simplify_map_eq.
Qed.

(** What the search handler answers when it is called with no query
    parameters: every user, latest first, at most ten. *)
Lemma search_users_defaults rt cfg env req db :
  query req = ∅ ->
  search_users rt cfg env req db
  = (res_json 200
       (JArr (with_created_at
                <$> (sql.project ["id"; "email"; "name"; "created_at"]
                       <$> take 10 (sql.order_by "created_at" sql.DESC
                                      (rows_of users db))))), db).
Proof.
  intros Hq. unfold search_users, try_catch, bind, lift, rows. rewrite Hq.
  reflexivity.
Qed.

(** A field that fails its schema is among the issues of the object. *)
Lemma parse_fields_issue rt shape input k s :
  (k, s) ∈ shape ->
  z.parse_value rt s (input !! k) = None ->
  k ∈ (z.parse_fields rt shape input).2.
Proof.
  induction shape as [|[key s'] rest IH]; intros Hin Hfail.
  - by apply elem_of_nil in Hin.
  - simpl. destruct (z.parse_fields rt rest input) as [out issues] eqn:Hrest.
    apply elem_of_cons in Hin as [[= -> ->]|Hin].
    + rewrite Hfail. apply list_elem_of_here.
    + specialize (IH Hin Hfail). simpl in IH.
      destruct (z.parse_value rt s' (input !! key)) as [[x|]|]; simpl; [done..|].
      by apply list_elem_of_further.
Qed.

Lemma parse_throws rt shape input k s :
  (k, s) ∈ shape ->
  z.parse_value rt s (input !! k) = None ->
  ∃ issues, z.parse rt shape (JObj input) = Throw (ZodError issues) ∧ k ∈ issues.
Proof.
  intros Hin Hfail. pose proof (parse_fields_issue rt shape input k s Hin Hfail) as H.
  unfold z.parse. destruct (z.parse_fields rt shape input) as [out [|i issues]].
  - by apply elem_of_nil in H.
  - eauto.
Qed.

(** Every update schema requires its identifier. *)
Lemma update_schema_requires_identifier rt e input :
  input !! up_identifier e = None ->
  ∃ issues, z.parse rt (up_schema e) (JObj input) = Throw (ZodError issues)
            ∧ up_identifier e ∈ issues.
Proof.
  intros Hnone. apply (parse_throws rt _ _ _ (z.string [])).
  - destruct e; apply list_elem_of_here.
  - by rewrite Hnone.
Qed.

(** The schemas for a new thread and a new alert require [created_at]. *)
Lemma created_at_required rt input :
  input !! "created_at" = None ->
  (∃ issues, z.parse rt createEcoCommunityForumInputSchema (JObj input)
             = Throw (ZodError issues) ∧ "created_at" ∈ issues)
  ∧ (∃ issues, z.parse rt createAlertInputSchema (JObj input)
               = Throw (ZodError issues) ∧ "created_at" ∈ issues).
Proof.
  intros Hnone.
  split; apply (parse_throws rt _ _ _ z.coerce_date);
    first [by rewrite Hnone | in_list].
Qed.

(** A page size in the query string is a text, which the schema's
    [z.number()] refuses. *)
Lemma search_users_textual_limit rt cfg env req db n :
  query req !! "limit" = Some (JStr n) ->
  status (search_users rt cfg env req db).1 = 400%nat.
Proof.
  intros Hn. unfold search_users, try_catch, bind, lift.
  destruct (parse_throws rt searchUserInputSchema (query req) "limit"
              (z.default (z.number [z.int; z.positive]) (JNum 10)))
    as (issues & -> & _); [in_list | by rewrite Hn | reflexivity].
Qed.

(* ===================================================================== *)
(** ** Claims *)
(* ===================================================================== *)

(** A closed statement about a concrete run is settled by running it. *)
Ltac by_evaluation :=
  repeat split; vm_compute; first [reflexivity | discriminate].

(** C1. An authenticated [GET /api/users/search] with no query parameters,
    sent to the seeded store, is not answered with a sequence of users: the
    route [/api/users/:user_id], registered first, takes it with
    [user_id = "search"] and answers 404 USER_NOT_FOUND. *)
Theorem C1_search_answered_by_get_user :
  let r := app sample.rt sample.cfg sample.env
             (sample.request GET ["api"; "users"; "search"] (Some "jwt.user1") [])
             seed.db in
  status r.1 = 404%nat
  ∧ error_code r.1 = Some (JStr "USER_NOT_FOUND")
  ∧ r.2 = seed.db.
Proof. by_evaluation. Qed.




(** C3. Registering [John.Doe@Example.com] while [john.doe@example.com] is
    stored: the lookup that guards the insert compares the address as
    submitted, finds nothing, and the insert of the lower-cased address is
    refused by the UNIQUE constraint. The answer is 500
    INTERNAL_SERVER_ERROR, not 400 USER_ALREADY_EXISTS; no row is added. *)
Theorem C3_mixed_case_duplicate_is_500 :
  let req := sample.request POST ["api"; "auth"; "register"] None
               [("email", JStr "John.Doe@Example.com"); ("name", JStr "Duplicate User");
                ("password_hash", JStr "duplicatepassword")] in
  let r := app sample.rt sample.cfg sample.env req seed.db in
  sql.cell_text (seed.user1 !! "email")
    = Some (trim (toLowerCase "John.Doe@Example.com"))
  ∧ status r.1 = 500%nat
  ∧ error_code r.1 = Some (JStr "INTERNAL_SERVER_ERROR")
  ∧ r.2 = seed.db.
Proof. by_evaluation. Qed.

(** C4, as stated, fails on [PATCH /api/events/event1]. A validated body
    that holds the recognised field [event_name] as the empty text is
    answered 400 NO_UPDATE_FIELDS; with [location] beside it the answer is
    200 and the stored name is untouched, so not every supplied field is
    applied; and an [organizer_id] that names no user is answered 500, which
    is neither 200 nor 404. *)
Lemma C4_supplied_fields_not_all_applied :
  let b1 := [("id", JStr "event1"); ("event_name", JStr "")] in
  let b2 := [("id", JStr "event1"); ("event_name", JStr "");
             ("location", JStr "Town Hall")] in
  let b3 := [("id", JStr "event1"); ("organizer_id", JStr "nobody")] in
  let patch := λ b, app sample.rt sample.cfg sample.env
                      (sample.request PATCH ["api"; "events"; "event1"]
                         (Some "jwt.user1") b) seed.db in
  (z.parse sample.rt updateEventInputSchema (JObj (list_to_map b1))
     = Ok (list_to_map b1)
   ∧ status (patch b1).1 = 400%nat
   ∧ error_code (patch b1).1 = Some (JStr "NO_UPDATE_FIELDS"))
  ∧ (z.parse sample.rt updateEventInputSchema (JObj (list_to_map b2))
       = Ok (list_to_map b2)
     ∧ status (patch b2).1 = 200%nat
     ∧ response_field (patch b2).1 "location" = Some (JStr "Town Hall")
     ∧ response_field (patch b2).1 "event_name"
       = Some (JStr "Earth Day Celebration"))
  ∧ (z.parse sample.rt updateEventInputSchema (JObj (list_to_map b3))
       = Ok (list_to_map b3)
     ∧ status (patch b3).1 = 500%nat
     ∧ (patch b3).2 = seed.db).
Proof. by_evaluation. Qed.

(** C4, amended. For each of the seven update endpoints, on a body that
    passes the endpoint's validator (and, for the user profile, once the
    identity guard has passed), with a store whose keys are unique: a field
    counts as supplied when the handler recognises it and it is present,
    where the fields that the handler tests for truthiness count only when
    not empty. If no field counts, the answer is 400 NO_UPDATE_FIELDS and the
    store is unchanged. Otherwise, if no row has the given id the answer is
    404 and the store is unchanged. If rows have it, the store accepts the
    statement exactly when the rows as written hold a value in every NOT
    NULL column, the keys of the table stay unique and every foreign key of a
    written row names a stored row: when it accepts, the answer is 200 with
    the updated record and the matching rows hold, in every supplied field,
    the supplied value, and in every other column what they held before,
    other rows and other tables being unchanged; when it refuses, the answer
    is 500 and the store is unchanged. *)
Theorem C4_update_endpoints rt cfg e env req db v :
  z.parse rt (up_schema e) (body req) = Ok v ->
  (e = up_user ->
   strict_eq (user req ≫= (.!! "id")) (JStr <$> params req !! "user_id") = true) ->
  sql.check_unique (ddl (up_table e)) (rows_of (up_table e) db) = true ->
  let fields := supplied rt e v in
  let key := JStr <$> params req !! up_param e in
  let targets := sql.select_where rt (up_table e) (up_column e) key db in
  let written := apply_fields fields <$> targets in
  let rows' := updated_rows rt fields (up_column e) key (rows_of (up_table e) db) in
  let accepted :=
    forallb (sql.check_not_null (ddl (up_table e))) written = true
    ∧ sql.check_unique (ddl (up_table e)) rows' = true
    ∧ forallb (sql.check_references db (ddl (up_table e))) written = true in
  let answer := up_handler rt cfg e env req db in
  (fields = [] ->
     status answer.1 = 400%nat
     ∧ error_code answer.1 = Some (JStr "NO_UPDATE_FIELDS")
     ∧ answer.2 = db)
  ∧ (fields ≠ [] -> targets = [] ->
       status answer.1 = 404%nat
       ∧ error_code answer.1 = Some (JStr (up_not_found e).2)
       ∧ answer.2 = db)
  ∧ (fields ≠ [] -> targets ≠ [] -> accepted ->
       ∃ updated,
         head written = Some updated
         ∧ answer.1 = res_json 200 (up_record e updated)
         ∧ rows_of (up_table e) answer.2 = rows'
         ∧ ∀ t, t ≠ up_table e -> rows_of t answer.2 = rows_of t db)
  ∧ (fields ≠ [] -> targets ≠ [] -> ¬ accepted ->
       status answer.1 = 500%nat
       ∧ error_code answer.1 = Some (JStr "INTERNAL_SERVER_ERROR")
       ∧ answer.2 = db)
  ∧ (∀ row c,
       apply_fields fields row !! c
       = match assigned fields c with
         | Some x => Some x
         | None => row !! c
         end).
Proof.
  intros Hparse Hme Hu fields key targets written rows' accepted answer.
  destruct (up_handler_finish rt cfg e env req db v Hparse Hme) as [Heq Hst].
  destruct (finish_update_spec rt cfg env (up_table e) (up_column e) key
              (up_not_found e) (up_record e) fields db Hst Hu)
    as (H400 & H404 & H200).
  fold fields key in Heq. fold answer in Heq. rewrite <- Heq in H400, H404, H200.
  fold targets written rows' in H200.
  split; [|split; [|split; [|split]]].
  - intros Hnone. rewrite (H400 Hnone). split; [done|]. split; [|done].
    by apply error_code_res_json.
  - intros Hsome Hmiss. rewrite (H404 Hsome Hmiss). split; [done|]. split; [|done].
    apply error_code_res_json, up_not_found_code.
  - intros Hsome Hhit (Hnn & Huq & Hfk). specialize (H200 Hsome Hhit).
    unfold sql.accept in H200. rewrite Hnn, Huq, Hfk in H200. cbn [negb] in H200.
    destruct H200 as (updated & Hhead & Hans). exists updated. rewrite Hans.
    cbn [fst snd]. split; [done|]. split; [done|]. split.
    + apply rows_of_with_rows.
    + intros t Ht. by apply rows_of_with_rows_ne.
  - intros Hsome Hhit Hrefused. specialize (H200 Hsome Hhit).
    destruct (sql.accept _ _ _ _) as [db'|error] eqn:Ha.
    + by apply accept_ok in Ha as (_ & Hnn & Huq & Hfk); destruct Hrefused.
    + rewrite H200. split; [done|]. split; [|done].
      by apply error_code_res_json.
  - intros row c. apply apply_fields_lookup, supplied_NoDup.
Qed.

(** The theorem at [PATCH /api/events/event1] with a new location, on the
    seeded store. *)
Lemma C4_update_endpoints_witness :
  let v : Obj := list_to_map [("id", JStr "event1");
                              ("location", JStr "Updated Location")] in
  let req := set_user (sql.project ["id"; "email"; "name"; "created_at"] seed.user1)
               (set_params {["id" := "event1"]}
                  (sample.request PATCH ["api"; "events"; "event1"] (Some "jwt.user1")
                     [("id", JStr "event1"); ("location", JStr "Updated Location")])) in
  let fields := supplied sample.rt up_event v in
  let targets := sql.select_where sample.rt events "id" (Some (JStr "event1")) seed.db in
  let answer := patch_event sample.rt sample.cfg sample.env req seed.db in
  fields = [("location", JStr "Updated Location")]
  ∧ targets = [seed.event1]
  ∧ ∃ updated,
      head (apply_fields fields <$> targets) = Some updated
      ∧ answer.1 = res_json 200 (with_event_date updated)
      ∧ rows_of events answer.2
        = updated_rows sample.rt fields "id" (Some (JStr "event1"))
            (rows_of events seed.db)
      ∧ ∀ t, t ≠ events -> rows_of t answer.2 = rows_of t seed.db.
Proof.
  intros v req fields targets answer.
  assert (fields = [("location", JStr "Updated Location")]) as Hfields
    by (vm_compute; reflexivity).
  assert (targets = [seed.event1]) as Htargets by (vm_compute; reflexivity).
  split; [exact Hfields|]. split; [exact Htargets|].
  assert (z.parse sample.rt (up_schema up_event) (body req) = Ok v) as Hparse
    by (vm_compute; reflexivity).
  assert (sql.check_unique (ddl (up_table up_event)) (rows_of (up_table up_event) seed.db)
          = true) as Hunique by (vm_compute; reflexivity).
  destruct (C4_update_endpoints sample.rt sample.cfg up_event sample.env req seed.db v
              Hparse ltac:(discriminate) Hunique) as (_ & _ & H & _).
  apply H.
  - fold fields. rewrite Hfields. discriminate.
  - change (targets ≠ []). rewrite Htargets. discriminate.
  - repeat split; vm_compute; reflexivity.
Defined.

(** C5. [DELETE /api/events/event1] with a valid token: no route handles
    DELETE, Express answers 404 and the event stays stored. Nor is there a
    route that reads one event: [GET /api/events/event1] is answered 404
    while the event is stored. *)
Theorem C5_delete_event_unrouted :
  let del := sample.request DELETE ["api"; "events"; "event1"] (Some "jwt.user1") [] in
  let get := sample.request GET ["api"; "events"; "event1"] (Some "jwt.user1") [] in
  let r := app sample.rt sample.cfg sample.env del seed.db in
  let r' := app sample.rt sample.cfg sample.env get seed.db in
  r.1 = {| status := 404; payload := cannot DELETE ["api"; "events"; "event1"] |}
  ∧ r.2 = seed.db
  ∧ sql.select_where sample.rt events "id" (Some (JStr "event1")) r.2 = [seed.event1]
  ∧ r'.1 = {| status := 404; payload := cannot GET ["api"; "events"; "event1"] |}.
Proof. by_evaluation. Qed.

(** C6. [POST /api/community-forum] with a body that leaves [created_at] out:
    the schema requires the field, so the branch of the handler that would
    assign the server's time is never reached; the answer is 400
    VALIDATION_ERROR and no thread is stored. The same holds for
    [POST /api/alerts/:user_id]. *)
Theorem C6_omitted_created_at_is_400 :
  let thread := sample.request POST ["api"; "community-forum"] (Some "jwt.user1")
                  [("user_id", JStr "user1"); ("thread_title", JStr "Composting");
                   ("content", JStr "How do you start?")] in
  let alert := sample.request POST ["api"; "alerts"; "user1"] (Some "jwt.user1")
                 [("user_id", JStr "user1"); ("alert_type", JStr "Reminder");
                  ("message", JStr "Water the plants")] in
  let r := app sample.rt sample.cfg sample.env thread seed.db in
  let r' := app sample.rt sample.cfg sample.env alert seed.db in
  (status r.1 = 400%nat ∧ error_code r.1 = Some (JStr "VALIDATION_ERROR")
   ∧ r.2 = seed.db)
  ∧ (status r'.1 = 400%nat ∧ error_code r'.1 = Some (JStr "VALIDATION_ERROR")
     ∧ r'.2 = seed.db).
Proof. by_evaluation. Qed.

(** C7. The body [{ location: "Updated Location" }], a subset of the fields
    of an event, does not pass [updateEventInputSchema]: the schema requires
    [id]. Under any runtime the parse throws a ZodError on [id], and
    [PATCH /api/events/event1] with that body is answered 400
    VALIDATION_ERROR. *)
Theorem C7_update_body_without_id_rejected :
  let data := [("location", JStr "Updated Location")] in
  (∀ rt, z.parse rt updateEventInputSchema (JObj (list_to_map data))
         = Throw (ZodError ["id"]))
  ∧ let r := app sample.rt sample.cfg sample.env
               (sample.request PATCH ["api"; "events"; "event1"] (Some "jwt.user1") data)
               seed.db in
    status r.1 = 400%nat
    ∧ error_code r.1 = Some (JStr "VALIDATION_ERROR")
    ∧ r.2 = seed.db.
Proof.
  split.
  - intros rt. reflexivity.
  - by_evaluation.
Qed.




(** C9. A read of the impact calculator of a stored user who has none, by an
    authenticated request, with a fresh identifier: the answer is 200 with a
    calculator whose three fields are null, that calculator is stored, and
    every later authenticated read for the same user is answered 200 with the
    same record and stores nothing more. *)
Theorem C9_calculator_created_on_first_read rt cfg env req db uid me :
  method req = GET ->
  path req = ["api"; "impact-calculator"; uid] ->
  uid ≠ "" ->
  serve_static cfg req = None ->
  authenticated rt env req db me ->
  uid ∈ sql.col_values "id" (rows_of users db) ->
  sql.select_where rt impact_calculators "user_id" (Some (JStr uid)) db = [] ->
  uuid env ∉ sql.col_values "id" (rows_of impact_calculators db) ->
  sql.check_unique (ddl impact_calculators) (rows_of impact_calculators db) = true ->
  let calculator := default_calculator (uuid env) uid in
  let answer := app rt cfg env req db in
  status answer.1 = 200%nat
  ∧ payload answer.1 = json (JObj calculator)
  ∧ calculator !! "travel_habits" = Some JNull
  ∧ calculator !! "energy_consumption" = Some JNull
  ∧ calculator !! "waste_management" = Some JNull
  ∧ answer.2 = with_rows impact_calculators
                 (rows_of impact_calculators db ++ [calculator]) db
  ∧ (∀ env' req' me',
       method req' = GET ->
       path req' = path req ->
       serve_static cfg req' = None ->
       authenticated rt env' req' answer.2 me' ->
       app rt cfg env' req' answer.2 = (res_json 200 (JObj calculator), answer.2)).
Proof.
  intros Hm Hp Hid Hstatic Hauth Huser Hnone Hfresh Hunique calculator answer.
  destruct uid as [|c uid]; [done|].
  assert (answer = (res_json 200 (JObj calculator),
                    with_rows impact_calculators
                      (rows_of impact_calculators db ++ [calculator]) db)) as Hfirst.
  { unfold answer. rewrite (first_read_of_calculator _ _ _ _ _ c uid me Hm Hp) by done.
    unfold get_impact_calculator, try_catch, bind, rows, exec.
    cbn [params set_user set_params]. rewrite lookup_singleton_eq.
    cbn [fmap option_fmap option_map]. rewrite Hnone.
    rewrite insert_default_calculator by done. reflexivity. }
  rewrite Hfirst. cbn [fst snd].
  split; [done|]. split; [done|]. split; [done|]. split; [done|]. split; [done|].
  split; [done|].
  intros env' req' me' Hm' Hp' Hstatic' Hauth'. rewrite Hp in Hp'.
  rewrite (first_read_of_calculator _ _ _ _ _ c uid me' Hm' Hp') by done.
  unfold get_impact_calculator, try_catch, bind, rows, exec.
  cbn [params set_user set_params]. rewrite lookup_singleton_eq.
  cbn [fmap option_fmap option_map]. rewrite select_where_app, Hnone.
  rewrite filter_cons, filter_nil.
  assert (sql.eq_param rt "user_id" (Some (JStr (String c uid))) calculator = true)
    as Hmatch.
  { unfold sql.eq_param.
    change (sql.cell_text (calculator !! "user_id")) with (Some (String c uid)).
    cbn [sql.param_text]. apply String.eqb_refl. }
  rewrite decide_True by done. reflexivity.
Qed.

(** The theorem for user1 on the seeded store without its calculators. *)
Lemma C9_calculator_created_witness :
  let db := with_rows impact_calculators [] seed.db in
  let req := sample.request GET ["api"; "impact-calculator"; "user1"]
               (Some "jwt.user1") [] in
  let calculator := default_calculator (uuid sample.env) "user1" in
  let answer := app sample.rt sample.cfg sample.env req db in
  status answer.1 = 200%nat
  ∧ payload answer.1 = json (JObj calculator)
  ∧ answer.2 = with_rows impact_calculators [calculator] seed.db
  ∧ app sample.rt sample.cfg sample.env req answer.2
    = (res_json 200 (JObj calculator), answer.2).
Proof.
  intros db req calculator answer.
  pose (me := sql.project ["id"; "email"; "name"; "created_at"] seed.user1).
  assert (∀ db', rows_of users db' = rows_of users seed.db ->
                 authenticated sample.rt sample.env req db' me) as Hauth.
  { intros db' Husers. exists "jwt.user1", {["user_id" := JStr "user1"]}, [].
    split; [vm_compute; reflexivity|]. split; [discriminate|].
    split; [vm_compute; reflexivity|].
    unfold sql.select_where. rewrite Husers. vm_compute. reflexivity. }
  destruct (C9_calculator_created_on_first_read sample.rt sample.cfg sample.env req db
              "user1" me)
    as (Hstatus & Hpayload & _ & _ & _ & Hstore & Hagain).
  - reflexivity.
  - reflexivity.
  - discriminate.
  - vm_compute; reflexivity.
  - apply Hauth. reflexivity.
  - apply (bool_decide_unpack _). vm_compute. exact I.
  - vm_compute; reflexivity.
  - apply (bool_decide_unpack _). vm_compute. exact I.
  - vm_compute; reflexivity.
  - split; [exact Hstatus|]. split; [exact Hpayload|]. split; [exact Hstore|].
    assert (serve_static sample.cfg req = None) as Hstatic
      by (vm_compute; reflexivity).
    assert (rows_of users (app sample.rt sample.cfg sample.env req db).2
            = rows_of users seed.db) as Husers
      by exact (f_equal (rows_of users) Hstore).
    exact (Hagain sample.env req me eq_refl eq_refl Hstatic (Hauth _ Husers)).
Defined.

(** C10. A registration that is answered 201 returns the row that it stored
    for the new user, column by column, and so the [password_hash] that was
    submitted, together with the token; no answer to
    [GET /api/users/:user_id], success or error, has a [password_hash]
    field. *)
Theorem C10_password_hash_only_in_registration rt cfg env db :
  (∀ req,
     method req = POST ->
     path req = ["api"; "auth"; "register"] ->
     let answer := app rt cfg env req db in
     status answer.1 = 201%nat ->
     ∃ hash stored,
       field (body req) "password_hash" = Some (JStr hash)
       ∧ stored ∈ rows_of users answer.2
       ∧ stored !! "password_hash" = Some (JStr hash)
       ∧ response_field answer.1 "password_hash" = Some (JStr hash)
       ∧ (∀ c, c ≠ "token" -> response_field answer.1 c = stored !! c)
       ∧ ∃ token, response_field answer.1 "token" = Some (JStr token))
  ∧ (∀ req id,
       method req = GET ->
       path req = ["api"; "users"; id] ->
       response_field (app rt cfg env req db).1 "password_hash" = None).
Proof.
  split.
  - intros req Hm Hp answer. unfold answer. rewrite app_register by done.
    exact (register_created rt cfg env (set_params ∅ req) db).
  - intros req id. apply app_get_user_no_password_hash.
Qed.

(** The theorem at the registration of a new address and at
    [GET /api/users/user1], on the seeded store. *)
Lemma C10_password_hash_witness :
  let reg := sample.request POST ["api"; "auth"; "register"] None
               [("email", JStr "new_user@example.com"); ("name", JStr "New User");
                ("password_hash", JStr "newpassword123")] in
  let get := sample.request GET ["api"; "users"; "user1"] (Some "jwt.user1") [] in
  let answer := app sample.rt sample.cfg sample.env reg seed.db in
  status answer.1 = 201%nat
  ∧ (∃ hash stored,
       field (body reg) "password_hash" = Some (JStr hash)
       ∧ stored ∈ rows_of users answer.2
       ∧ stored !! "password_hash" = Some (JStr hash)
       ∧ response_field answer.1 "password_hash" = Some (JStr hash)
       ∧ (∀ c, c ≠ "token" -> response_field answer.1 c = stored !! c)
       ∧ ∃ token, response_field answer.1 "token" = Some (JStr token))
  ∧ response_field (app sample.rt sample.cfg sample.env get seed.db).1 "password_hash"
    = None.
Proof.
  intros reg get answer.
  assert (status answer.1 = 201%nat) as Hcreated by (vm_compute; reflexivity).
  destruct (C10_password_hash_only_in_registration sample.rt sample.cfg sample.env
              seed.db) as [Hregister Hget].
  split; [exact Hcreated|]. split.
  - exact (Hregister reg eq_refl eq_refl Hcreated).
  - exact (Hget get "user1" eq_refl eq_refl).
Defined.

(* ===================================================================== *)
(** * Further properties of the handlers *)
(* ===================================================================== *)

(* ===================================================================== *)
(** ** Login *)
(* ===================================================================== *)

Lemma login_answer rt cfg env req db :
  let email := field (body req) "email" in
  let password := field (body req) "password_hash" in
  login rt cfg env req db
  = (if negb (truthy email) || negb (truthy password) then
       res_json 400 (createErrorResponse rt cfg env "Email and password are required"
                       None "MISSING_CREDENTIALS")
     else
       match string_method (λ s, trim (toLowerCase s)) email with
       | Throw error => catch_500 rt cfg env error
       | Ok email' =>
           match filter (λ r, sql.eq_param rt "password_hash" password r = true)
                   (sql.select_where rt users "email" (Some email') db) with
           | [] => res_json 401 (createErrorResponse rt cfg env
                                   "Invalid email or password" None "INVALID_CREDENTIALS")
           | user :: _ =>
               res_json 200
                 (JObj (object_literal
                    [("auth_token",
                      Some (JStr (jwt_sign rt
                                    (object_literal [("user_id", user !! "id");
                                                     ("email", user !! "email")])
                                    (now env))));
                     ("user_id", user !! "id")]))
           end
       end, db).
Proof.
  intros email password. unfold login, try_catch, bind, lift, rows, ret.
  fold email password.
  destruct (negb (truthy email) || negb (truthy password)); [done|].
  destruct (string_method _ email) as [email'|error]; [|done].
  by destruct (filter _ _).
Qed.


Lemma eq_param_holds rt col text row :
  sql.eq_param rt col (Some (JStr text)) row = true ↔ holds row col text.
Proof.
  unfold sql.eq_param, holds. simpl.
  destruct (sql.cell_text (row !! col)) as [a|]; [|by split].
  destruct (String.eqb_spec a text) as [->|Hne]; split; intros; by simplify_eq.
Qed.



(* ===================================================================== *)
(** ** Inserting a row *)
(* ===================================================================== *)

Lemma insert_built rt t given db row :
  sql.build_row rt (columns (ddl t)) given = Ok row ->
  sql.insert rt t given db
  = match sql.accept t [row] (rows_of t db ++ [row]) db with
    | Ok db' => Ok (row, db')
    | Throw e => Throw e
    end.
Proof. intros H. unfold sql.insert. by rewrite H. Qed.

Lemma NoDup_snoc_iff {A} (l : list A) x : NoDup (l ++ [x]) ↔ NoDup l ∧ x ∉ l.
Proof.
  rewrite NoDup_app. split.
  - intros (Hl & Hx & _). split; [done|]. intros Hin. apply (Hx x Hin).
    apply list_elem_of_here.
  - intros [Hl Hx]. split; [done|]. split; [|apply NoDup_singleton].
    intros y Hy ->%list_elem_of_singleton. done.
Qed.

(** A column stays unique when a row is appended iff it was unique and the
    new row's text, if it has one, is not there yet. *)
Lemma unique_column_snoc col (rows : list Obj) (row : Obj) :
  NoDup (sql.col_values col (rows ++ [row]))
  ↔ NoDup (sql.col_values col rows)
    ∧ ∀ x, holds row col x -> x ∉ sql.col_values col rows.
Proof.
  rewrite col_values_app, col_values_cons. unfold holds.
  change (sql.col_values col []) with (@nil string).
  destruct (sql.cell_text (row !! col)) as [x|].
  - rewrite NoDup_snoc_iff. split.
    + intros [? ?]. split; [done|]. by intros ? [= <-].
    + intros [? H]. split; [done|]. by apply H.
  - rewrite app_nil_r. split; [|by intros [? _]]. intros ?. split; [done|]. done.
Qed.

Lemma check_unique_spec def (rows : list Obj) :
  sql.check_unique def rows = true
  ↔ ∀ c, c ∈ primary_key def :: unique def -> NoDup (sql.col_values c rows).
Proof.
  unfold sql.check_unique. rewrite forallb_forall. split.
  - intros H c Hc. apply list_elem_of_In in Hc. specialize (H c Hc).
    by apply bool_decide_eq_true in H.
  - intros H c Hc. apply bool_decide_eq_true, H. by apply list_elem_of_In.
Qed.

Lemma check_unique_snoc def (rows : list Obj) (row : Obj) :
  sql.check_unique def (rows ++ [row]) = true
  ↔ sql.check_unique def rows = true
    ∧ ∀ c x, c ∈ primary_key def :: unique def -> holds row c x ->
             x ∉ sql.col_values c rows.
Proof.
  rewrite !check_unique_spec. split.
  - intros H. split.
    + intros c Hc. by apply (unique_column_snoc c rows row), H.
    + intros c x Hc. by apply (unique_column_snoc c rows row), H.
  - intros [H1 H2] c Hc. apply unique_column_snoc. split; [by apply H1|].
    intros x. by apply H2.
Qed.

Lemma filter_none {A} (P : A -> Prop) `{∀ x, Decision (P x)} (l : list A) :
  (∀ x, x ∈ l -> ¬ P x) -> filter P l = [].
Proof.
  induction l as [|x l IH]; [done|]. intros Hl.
  rewrite filter_cons_False by (apply Hl, list_elem_of_here).
  apply IH. intros y Hy. by apply Hl, list_elem_of_further.
Qed.

(** The rows of a table that hold a text under a column: none when the text
    is not among the values of the column. *)
Lemma select_where_none rt t col text db :
  text ∉ sql.col_values col (rows_of t db) ->
  sql.select_where rt t col (Some (JStr text)) db = [].
Proof.
  intros Hfresh. unfold sql.select_where.
  apply filter_none. intros r Hr Hmatch.
  apply eq_param_holds in Hmatch. apply Hfresh, elem_of_col_values. by exists r.
Qed.

Lemma select_where_some rt t col text db :
  text ∈ sql.col_values col (rows_of t db) ->
  sql.select_where rt t col (Some (JStr text)) db ≠ [].
Proof.
  intros (r & Hr & Hcell)%elem_of_col_values Hnil.
  unfold sql.select_where in Hnil.
  assert (r ∈ filter (λ r, sql.eq_param rt col (Some (JStr text)) r = true)
                (rows_of t db)) as Hin.
  { apply list_elem_of_filter. split; [|done]. by apply eq_param_holds. }
  rewrite Hnil in Hin. by apply elem_of_nil in Hin.
Qed.

(* ===================================================================== *)
(** ** Registration *)
(* ===================================================================== *)

(** A validated registration holds three texts. *)
Lemma createUser_validated rt data v :
  z.parse rt createUserInputSchema data = Ok v ->
  ∃ e n p, v !! "email" = Some (JStr e) ∧ v !! "name" = Some (JStr n)
           ∧ v !! "password_hash" = Some (JStr p)
           ∧ is_email rt e = true ∧ n ≠ "" ∧ p ≠ ""
           ∧ field data "email" = Some (JStr e)
           ∧ field data "password_hash" = Some (JStr p).
Proof.
  intros Hparse.
  pose proof (parse_ok_lookup rt _ _ _ "email" _ createUserInputSchema_NoDup Hparse
                ltac:(in_list)) as Hem.
  pose proof (parse_ok_lookup rt _ _ _ "name" _ createUserInputSchema_NoDup Hparse
                ltac:(in_list)) as Hnm.
  pose proof (parse_ok_lookup rt _ _ _ "password_hash" _ createUserInputSchema_NoDup
                Hparse ltac:(in_list)) as Hpw.
  cbn [z.parse_value] in Hem, Hnm, Hpw.
  destruct (field data "email") as [[| | |e| | |]|]; try done.
  destruct (field data "name") as [[| | |n| | |]|]; try done.
  destruct (field data "password_hash") as [[| | |p| | |]|]; try done.
  cbn [forallb z.string_check] in Hem, Hnm, Hpw. rewrite andb_true_r in Hem, Hnm, Hpw.
  destruct (is_email rt e) eqn:He; [|done].
  destruct n as [|c n]; [done|]. destruct p as [|c' p]; [done|].
  cbn in Hnm, Hpw. simplify_eq.
  exists e, (String c n), (String c' p). by rewrite <- Hem, <- Hnm, <- Hpw.
Qed.

(** The handler on a validated body: the duplicate check, then the two
    statements, each accepted or refused by the store. *)
Lemma register_validated rt cfg env req db v :
  z.parse rt createUserInputSchema (body req) = Ok v ->
  register rt cfg env req db
  = (if negb (length (sql.select_where rt users "email" (v !! "email") db) =? 0)%nat
     then (res_json 400 (createErrorResponse rt cfg env
                           "User with this email already exists" None
                           "USER_ALREADY_EXISTS"), db)
     else
       match sql.accept users [registered_user rt env v]
               (rows_of users db ++ [registered_user rt env v]) db with
       | Throw error => (catch_zod rt cfg env "Invalid input data" error, db)
       | Ok db1 =>
           match sql.accept user_dashboards [zero_dashboard (uuid env)]
                   (rows_of user_dashboards db1 ++ [zero_dashboard (uuid env)]) db1 with
           | Throw error => (catch_zod rt cfg env "Invalid input data" error, db1)
           | Ok db2 => (res_json 201 (registered_json rt env v), db2)
           end
       end).
Proof.
  intros Hparse.
  destruct (createUser_validated _ _ _ Hparse) as (e & n & p & Ke & Kn & Kp & _).
  unfold register, try_catch, bind, lift, rows, exec, ret. rewrite Hparse.
  unfold registered_json, registered_user. rewrite Ke, Kn, Kp.
  destruct (negb _); [done|].
  cbn [string_method text_of sql.cell_text default from_option id].
  set (u := <["id" := JStr (uuid env)]> _).
  rewrite (insert_built rt users _ db u) by reflexivity.
  destruct (sql.accept users [u] _ db) as [db1|error]; [|done].
  rewrite (insert_built rt user_dashboards _ db1 (zero_dashboard (uuid env)))
    by reflexivity.
  destruct (sql.accept user_dashboards _ _ db1) as [db2|error]; [|done].
  by rewrite spread_with_same.
Qed.

Lemma accept_registered_user rt env v db :
  let u := registered_user rt env v in
  sql.accept users [u] (rows_of users db ++ [u]) db
  = if sql.check_unique (ddl users) (rows_of users db ++ [u])
    then Ok (with_rows users (rows_of users db ++ [u]) db)
    else Throw (DatabaseError "duplicate key value violates unique constraint").
Proof.
  intros u. unfold sql.accept.
  assert (forallb (sql.check_not_null (ddl users)) [u] = true) as -> by reflexivity.
  assert (forallb (sql.check_references db (ddl users)) [u] = true) as ->
    by reflexivity.
  by destruct (sql.check_unique _ _).
Qed.

Lemma accept_zero_dashboard uid db :
  uid ∈ sql.col_values "id" (rows_of users db) ->
  let d := zero_dashboard uid in
  sql.accept user_dashboards [d] (rows_of user_dashboards db ++ [d]) db
  = if sql.check_unique (ddl user_dashboards) (rows_of user_dashboards db ++ [d])
    then Ok (with_rows user_dashboards (rows_of user_dashboards db ++ [d]) db)
    else Throw (DatabaseError "duplicate key value violates unique constraint").
Proof.
  intros Huser d. unfold sql.accept.
  assert (forallb (sql.check_not_null (ddl user_dashboards)) [d] = true) as ->
    by reflexivity.
  assert (forallb (sql.check_references db (ddl user_dashboards)) [d] = true) as ->.
  { cbn [forallb]. rewrite andb_true_r. unfold sql.check_references.
    cbn [forallb references ddl]. rewrite andb_true_r.
    change (sql.cell_text (d !! "user_id")) with (Some uid).
    cbn [fst snd]. by apply bool_decide_eq_true. }
  by destruct (sql.check_unique _ _).
Qed.

(** The keys of the users stay unique with the new user iff they were unique
    and neither the new id nor the stored form of the address is taken. *)
Lemma registered_user_unique rt env v e db :
  v !! "email" = Some (JStr e) ->
  sql.check_unique (ddl users) (rows_of users db ++ [registered_user rt env v]) = true
  ↔ sql.check_unique (ddl users) (rows_of users db) = true
    ∧ (trim (toLowerCase e) ∉ sql.col_values "email" (rows_of users db))
    ∧ (uuid env ∉ sql.col_values "id" (rows_of users db)).
Proof.
  intros Ke. rewrite check_unique_snoc. cbn [primary_key unique ddl].
  unfold registered_user, holds. rewrite Ke.
  cbn [text_of sql.cell_text default from_option id].
  split.
  - intros [Hu Hfresh]. split; [done|]. split.
    + apply (Hfresh "email"); [in_list|]. reflexivity.
    + apply (Hfresh "id"); [in_list|]. reflexivity.
  - intros (Hu & Hemail & Hid). split; [done|]. intros c x Hc.
    apply elem_of_cons in Hc as [->|Hc].
    { intros [= <-]. done. }
    apply list_elem_of_singleton in Hc as ->. intros [= <-]. done.
Qed.

Lemma zero_dashboard_unique uid (rows : list Obj) :
  sql.check_unique (ddl user_dashboards) (rows ++ [zero_dashboard uid]) = true
  ↔ sql.check_unique (ddl user_dashboards) rows = true
    ∧ uid ∉ sql.col_values "user_id" rows.
Proof.
  rewrite check_unique_snoc. cbn [primary_key unique ddl]. unfold holds.
  split.
  - intros [Hu Hfresh]. split; [done|]. apply (Hfresh "user_id"); [in_list|].
    reflexivity.
  - intros [Hu Hid]. split; [done|]. intros c x ->%list_elem_of_singleton.
    intros [= <-]. done.
Qed.

Lemma catch_zod_database rt cfg env message detail :
  catch_zod rt cfg env message (DatabaseError detail)
  = res_json 500 (createErrorResponse rt cfg env "Internal server error"
                    (Some (DatabaseError detail)) "INTERNAL_SERVER_ERROR").
Proof. reflexivity. Qed.

Lemma id_of_registered_user rt env v (rows : list Obj) :
  uuid env ∈ sql.col_values "id" (rows ++ [registered_user rt env v]).
Proof.
  rewrite col_values_app. apply elem_of_app. right.
  apply elem_of_col_values. exists (registered_user rt env v).
  split; [apply list_elem_of_here|]. reflexivity.
Qed.

(** X2. [POST /api/auth/register] on a body that passes validation. If the
    address, exactly as submitted, is stored, the answer is 400
    USER_ALREADY_EXISTS and nothing changes. Otherwise the user is inserted
    with the address lower-cased and trimmed: if that form or the fresh id
    is taken (or the keys of the users were not unique), the store refuses,
    the answer is 500 and nothing changes. Otherwise the dashboard is
    inserted: when the dashboards have unique users and none for the fresh id,
    the answer is 201 with the stored user and a token, and the store holds
    exactly one more user and one more dashboard, with a zero footprint; when
    not, the answer is 500 while the new user stays stored without a
    dashboard. *)
Theorem X2_register_outcomes rt cfg env req db v :
  z.parse rt createUserInputSchema (body req) = Ok v ->
  let e := text_of (v !! "email") in
  let emails := sql.col_values "email" (rows_of users db) in
  let user := registered_user rt env v in
  let users_accept :=
    sql.check_unique (ddl users) (rows_of users db) = true
    ∧ (trim (toLowerCase e) ∉ emails)
    ∧ (uuid env ∉ sql.col_values "id" (rows_of users db)) in
  let dashboards_accept :=
    sql.check_unique (ddl user_dashboards) (rows_of user_dashboards db) = true
    ∧ (uuid env ∉ sql.col_values "user_id" (rows_of user_dashboards db)) in
  let answer := register rt cfg env req db in
  (e ∈ emails ->
     answer = (res_json 400 (createErrorResponse rt cfg env
                               "User with this email already exists" None
                               "USER_ALREADY_EXISTS"), db))
  ∧ (e ∉ emails -> ¬ users_accept ->
       status answer.1 = 500%nat
       ∧ error_code answer.1 = Some (JStr "INTERNAL_SERVER_ERROR")
       ∧ answer.2 = db)
  ∧ (e ∉ emails -> users_accept -> dashboards_accept ->
       answer = (res_json 201 (registered_json rt env v),
                 with_rows user_dashboards
                   (rows_of user_dashboards db ++ [zero_dashboard (uuid env)])
                   (with_rows users (rows_of users db ++ [user]) db)))
  ∧ (e ∉ emails -> users_accept -> ¬ dashboards_accept ->
       status answer.1 = 500%nat
       ∧ error_code answer.1 = Some (JStr "INTERNAL_SERVER_ERROR")
       ∧ answer.2 = with_rows users (rows_of users db ++ [user]) db).
Proof.
  intros Hparse e emails user users_accept dashboards_accept answer.
  destruct (createUser_validated _ _ _ Hparse) as (e' & n & p & Ke & _).
  assert (e = e') as He by (unfold e; by rewrite Ke).
  unfold answer. rewrite (register_validated _ _ _ _ _ _ Hparse).
  rewrite Ke, <- He. fold user.
  assert (e ∈ emails ->
          negb (length (sql.select_where rt users "email" (Some (JStr e)) db) =? 0)%nat
          = true) as Hdup.
  { intros Hin. pose proof (select_where_some rt users "email" e db Hin) as Hsome.
    by destruct (sql.select_where rt users "email" (Some (JStr e)) db). }
  assert (e ∉ emails ->
          negb (length (sql.select_where rt users "email" (Some (JStr e)) db) =? 0)%nat
          = false) as Hnew.
  { intros Hout. by rewrite (select_where_none rt users "email" e db Hout). }
  pose proof (registered_user_unique rt env v e' db Ke) as Husers.
  rewrite <- He in Husers. fold user in Husers. fold emails in Husers.
  pose proof (accept_registered_user rt env v db) as Hacc. cbv zeta in Hacc.
  fold user in Hacc.
  pose proof (accept_zero_dashboard (uuid env)
                (with_rows users (rows_of users db ++ [user]) db)) as Hacc2.
  rewrite rows_of_with_rows in Hacc2.
  specialize (Hacc2 (id_of_registered_user rt env v _)). cbv zeta in Hacc2.
  pose proof (zero_dashboard_unique (uuid env) (rows_of user_dashboards db)) as Hdash.
  split; [|split; [|split]].
  - intros Hin. by rewrite (Hdup Hin).
  - intros Hout Hbad. rewrite (Hnew Hout), Hacc.
    destruct (sql.check_unique (ddl users) (rows_of users db ++ [user])) eqn:Hu.
    { destruct Hbad. by apply Husers. }
    rewrite catch_zod_database. split; [done|]. split; [|done].
    by apply error_code_res_json.
  - intros Hout Hgood Hgood2. rewrite (Hnew Hout), Hacc.
    apply Husers in Hgood as ->. rewrite Hacc2.
    rewrite rows_of_with_rows_ne by done.
    by apply Hdash in Hgood2 as ->.
  - intros Hout Hgood Hbad. rewrite (Hnew Hout), Hacc.
    apply Husers in Hgood as ->. rewrite Hacc2.
    rewrite rows_of_with_rows_ne by done.
    destruct (sql.check_unique (ddl user_dashboards)
                (rows_of user_dashboards db ++ [zero_dashboard (uuid env)])) eqn:Hu.
    { destruct Hbad. by apply Hdash. }
    rewrite catch_zod_database. split; [done|]. split; [|done].
    by apply error_code_res_json.
Qed.

(** The theorem at the registration of a new address on the seeded store. *)
Lemma X2_register_witness :
  let b := [("email", JStr "New.User@Example.com"); ("name", JStr "New User");
            ("password_hash", JStr "secret")] in
  let req := sample.request POST ["api"; "auth"; "register"] None b in
  let answer := register sample.rt sample.cfg sample.env req seed.db in
  status answer.1 = 201%nat
  ∧ response_field answer.1 "email" = Some (JStr "new.user@example.com")
  ∧ length (rows_of users answer.2) = 3%nat
  ∧ length (rows_of user_dashboards answer.2) = 3%nat.
Proof.
  intros b req answer.
  assert (z.parse sample.rt createUserInputSchema (body req) = Ok (list_to_map b))
    as Hparse by (vm_compute; reflexivity).
  destruct (X2_register_outcomes sample.rt sample.cfg sample.env req seed.db _ Hparse)
    as (_ & _ & H & _).
  fold answer in H. rewrite H.
  - repeat split; vm_compute; reflexivity.
  - apply (bool_decide_unpack _). vm_compute. exact I.
  - split; [vm_compute; reflexivity|].
    split; apply (bool_decide_unpack _); vm_compute; exact I.
  - split; [vm_compute; reflexivity|].
    apply (bool_decide_unpack _); vm_compute; exact I.
Defined.

Lemma register_invalid rt cfg env req db error :
  z.parse rt createUserInputSchema (body req) = Throw error ->
  register rt cfg env req db = (catch_zod rt cfg env "Invalid input data" error, db).
Proof. intros H. unfold register, try_catch, bind, lift. by rewrite H. Qed.

(** What a registration answered 201 has done. *)
Lemma register_201 rt cfg env req db :
  status (register rt cfg env req db).1 = 201%nat ->
  ∃ v e p,
    z.parse rt createUserInputSchema (body req) = Ok v
    ∧ field (body req) "email" = Some (JStr e)
    ∧ field (body req) "password_hash" = Some (JStr p)
    ∧ v !! "email" = Some (JStr e) ∧ v !! "password_hash" = Some (JStr p)
    ∧ is_email rt e = true ∧ p ≠ ""
    ∧ register rt cfg env req db
      = (res_json 201 (registered_json rt env v),
         with_rows user_dashboards
           (rows_of user_dashboards db ++ [zero_dashboard (uuid env)])
           (with_rows users (rows_of users db ++ [registered_user rt env v]) db))
    ∧ sql.check_unique (ddl users) (rows_of users db ++ [registered_user rt env v])
      = true
    ∧ sql.check_unique (ddl user_dashboards)
        (rows_of user_dashboards db ++ [zero_dashboard (uuid env)]) = true.
Proof.
  destruct (z.parse rt createUserInputSchema (body req)) as [v|error] eqn:Hparse.
  2:{ rewrite (register_invalid _ _ _ _ _ _ Hparse). intros H.
      by apply catch_zod_status in H. }
  destruct (createUser_validated _ _ _ Hparse)
    as (e & n & p & Ke & Kn & Kp & He & Hn & Hp & Fe & Fp).
  rewrite (register_validated _ _ _ _ _ _ Hparse).
  destruct (negb _); [by intros H|].
  rewrite accept_registered_user.
  destruct (sql.check_unique (ddl users) _) eqn:Hu; [|by intros H].
  pose proof (accept_zero_dashboard (uuid env)
                (with_rows users (rows_of users db ++ [registered_user rt env v]) db))
    as Hacc2.
  rewrite rows_of_with_rows in Hacc2.
  specialize (Hacc2 (id_of_registered_user rt env v _)). cbv zeta in Hacc2.
  rewrite Hacc2. rewrite rows_of_with_rows_ne by done.
  destruct (sql.check_unique (ddl user_dashboards) _) eqn:Hu2; [|by intros H].
  intros _. exists v, e, p. done.
Qed.

Lemma select_where_snoc_fresh rt t col text db (rows : list Obj) (row : Obj) :
  rows_of t db = rows ++ [row] ->
  NoDup (sql.col_values col (rows ++ [row])) ->
  holds row col text ->
  sql.select_where rt t col (Some (JStr text)) db = [row].
Proof.
  intros Hrows Hnd Hrow. apply unique_column_snoc in Hnd as [_ Hfresh].
  unfold sql.select_where. rewrite Hrows, filter_app.
  rewrite filter_none.
  - rewrite filter_cons_True by by apply eq_param_holds. done.
  - intros r Hr Hmatch. apply eq_param_holds in Hmatch.
    apply (Hfresh text Hrow), elem_of_col_values. by exists r.
Qed.

(** X3. Registration, then login. After a registration answered 201, a
    login that submits the same address and the same credential, at any
    later time, is answered 200 with the id of the new user and a token
    signed for that id and for the stored form of the address. (The pattern
    behind [z.string().email()] is taken to reject the empty text.) *)
Theorem X3_register_then_login rt cfg env env' req req' db :
  is_email rt "" = false ->
  status (register rt cfg env req db).1 = 201%nat ->
  field (body req') "email" = field (body req) "email" ->
  field (body req') "password_hash" = field (body req) "password_hash" ->
  let db' := (register rt cfg env req db).2 in
  ∃ e,
    field (body req) "email" = Some (JStr e)
    ∧ login rt cfg env' req' db'
      = (res_json 200
           (JObj (object_literal
              [("auth_token",
                Some (JStr (jwt_sign rt
                              (object_literal
                                 [("user_id", Some (JStr (uuid env)));
                                  ("email", Some (JStr (trim (toLowerCase e))))])
                              (now env'))));
               ("user_id", Some (JStr (uuid env)))])), db').
Proof.
  intros Hempty H201 Hsame_e Hsame_p db'.
  destruct (register_201 _ _ _ _ _ H201)
    as (v & e & p & Hparse & Fe & Fp & Ke & Kp & He & Hp & Hanswer & Hu & _).
  exists e. split; [done|]. unfold db'. rewrite Hanswer. cbn [snd].
  rewrite login_answer. cbv zeta. rewrite Hsame_e, Hsame_p, Fe, Fp.
  cbn [truthy string_method].
  destruct (String.eqb_spec e "") as [->|_]; [congruence|].
  destruct (String.eqb_spec p "") as [->|_]; [done|].
  cbn [negb orb].
  assert (sql.select_where rt users "email" (Some (JStr (trim (toLowerCase e))))
            (with_rows user_dashboards
               (rows_of user_dashboards db ++ [zero_dashboard (uuid env)])
               (with_rows users (rows_of users db ++ [registered_user rt env v]) db))
          = [registered_user rt env v]) as ->.
  { apply (select_where_snoc_fresh rt users "email" _ _ (rows_of users db)).
    - rewrite rows_of_with_rows_ne by done. apply rows_of_with_rows.
    - apply check_unique_spec with (c := "email") in Hu; [done|]. in_list.
    - unfold holds, registered_user. rewrite Ke. reflexivity. }
  rewrite filter_cons_True.
  2:{ apply eq_param_holds. unfold holds, registered_user. rewrite Kp. reflexivity. }
  cbn [filter list_filter]. unfold registered_user. rewrite Ke.
  reflexivity.
Qed.

(** The theorem at the registration of a new address on the seeded store,
    followed by a login. *)
Lemma X3_register_then_login_witness :
  let b := [("email", JStr "New.User@Example.com"); ("name", JStr "New User");
            ("password_hash", JStr "secret")] in
  let req := sample.request POST ["api"; "auth"; "register"] None b in
  let req' := sample.request POST ["api"; "auth"; "login"] None b in
  let db' := (register sample.rt sample.cfg sample.env req seed.db).2 in
  response_field (login sample.rt sample.cfg sample.env req' db').1 "user_id"
  = Some (JStr (uuid sample.env)).
Proof.
  intros b req req' db'.
  destruct (X3_register_then_login sample.rt sample.cfg sample.env sample.env
              req req' seed.db) as (e & _ & H).
  - vm_compute; reflexivity.
  - vm_compute; reflexivity.
  - reflexivity.
  - reflexivity.
  - fold db' in H. rewrite H. reflexivity.
Defined.

(** X4. Registration provisions the dashboard. After a registration
    answered 201, reading the dashboard of the new user is answered 200 with
    a footprint of zero and null history, tips and challenges. *)
Theorem X4_register_provisions_dashboard rt cfg env env' req req' db :
  status (register rt cfg env req db).1 = 201%nat ->
  params req' !! "user_id" = Some (uuid env) ->
  let db' := (register rt cfg env req db).2 in
  get_dashboard rt cfg env' req' db'
  = (res_json 200 (JObj (zero_dashboard (uuid env))), db').
Proof.
  intros H201 Hparam db'.
  destruct (register_201 _ _ _ _ _ H201)
    as (v & e & p & _ & _ & _ & _ & _ & _ & _ & Hanswer & _ & Hu).
  unfold db'. rewrite Hanswer. cbn [snd].
  unfold get_dashboard, try_catch, bind, rows, ret. rewrite Hparam.
  cbn [fmap option_fmap option_map].
  rewrite (select_where_snoc_fresh rt user_dashboards "user_id" (uuid env) _
             (rows_of user_dashboards db) (zero_dashboard (uuid env))).
  - reflexivity.
  - apply rows_of_with_rows.
  - apply check_unique_spec with (c := "user_id") in Hu; [done|]. in_list.
  - reflexivity.
Qed.

(** The theorem at the registration of a new address on the seeded store. *)
Lemma X4_register_provisions_dashboard_witness :
  let b := [("email", JStr "New.User@Example.com"); ("name", JStr "New User");
            ("password_hash", JStr "secret")] in
  let req := sample.request POST ["api"; "auth"; "register"] None b in
  let req' := set_params {["user_id" := uuid sample.env]}
                (sample.request GET ["api"; "dashboard"; uuid sample.env] None []) in
  let db' := (register sample.rt sample.cfg sample.env req seed.db).2 in
  response_field (get_dashboard sample.rt sample.cfg sample.env req' db').1
    "carbon_footprint" = Some (JNum 0).
Proof.
  intros b req req' db'.
  pose proof (X4_register_provisions_dashboard sample.rt sample.cfg sample.env
                sample.env req req' seed.db) as H.
  cbv zeta in H. fold db' in H. rewrite H.
  - reflexivity.
  - vm_compute; reflexivity.
  - reflexivity.
Defined.

(* ===================================================================== *)
(** ** The Authorization header *)
(* ===================================================================== *)

Lemma split_go_free sep cur a b :
  free_of sep a = true ->
  split_go sep cur (a +:+ String sep b) = String.rev_app cur a :: split_go sep "" b.
Proof.
  revert cur. induction a as [|c a IH]; intros cur Hfree; simpl.
  - by rewrite Ascii.eqb_refl.
  - simpl in Hfree. apply andb_true_iff in Hfree as [Hc Hfree].
    apply negb_true_iff in Hc. rewrite Hc. by rewrite IH.
Qed.

Lemma split_go_free_end sep cur a :
  free_of sep a = true -> split_go sep cur a = [String.rev_app cur a].
Proof.
  revert cur. induction a as [|c a IH]; intros cur Hfree; simpl; [done|].
  simpl in Hfree. apply andb_true_iff in Hfree as [Hc Hfree].
  apply negb_true_iff in Hc. rewrite Hc. by rewrite IH.
Qed.

Lemma split_free sep a b :
  free_of sep a = true -> split sep (a +:+ String sep b) = a :: split sep b.
Proof. intros. unfold split. by rewrite split_go_free. Qed.

Lemma split_free_end sep a : free_of sep a = true -> split sep a = [a].
Proof. intros. unfold split. by rewrite split_go_free_end. Qed.

Lemma app_space_not_empty (a b : string) : String.eqb (a +:+ String " " b) "" = false.
Proof. by destruct a. Qed.

(** The token is the second of the words that single spaces separate. *)
Lemma bearer_token_words scheme token :
  free_of " " scheme = true -> free_of " " token = true ->
  bearer_token (Some (scheme +:+ " " +:+ token)) = Some token.
Proof.
  intros Hs Ht. unfold bearer_token.
  change (" " +:+ token) with (String " " token).
  rewrite app_space_not_empty, split_free, split_free_end by done. done.
Qed.

(* ===================================================================== *)
(** ** What the handlers read of a request *)
(* ===================================================================== *)

Lemma match_lit s pattern x p ps :
  match_segments (lit s :: pattern) (x :: p) = Some ps ->
  toLowerCase x = toLowerCase s ∧ match_segments pattern p = Some ps.
Proof.
  cbn [match_segments].
  destruct (String.eqb_spec (toLowerCase s) (toLowerCase x)) as [->|]; done.
Qed.

Lemma match_lit_Some s pattern x p :
  toLowerCase x = toLowerCase s ->
  match_segments (lit s :: pattern) (x :: p) = match_segments pattern p.
Proof. intros H. cbn [match_segments]. by rewrite H, String.eqb_refl. Qed.


Lemma find_route_ext (rs : list Route) req1 req2 :
  method req1 = method req2 -> path req1 = path req2 ->
  find_route rs req1 = find_route rs req2.
Proof.
  intros Hm Hp. induction rs as [|r rs IH]; [done|].
  simpl. by rewrite Hm, Hp, IH.
Qed.

Lemma find_route_Some (rs : list Route) req r ps :
  find_route rs req = Some (r, ps) ->
  r ∈ rs ∧ route_method r = method req
  ∧ match_pattern (route_pattern r) (path req) = Some ps.
Proof.
  induction rs as [|r' rs IH]; [done|]. simpl.
  case_bool_decide as Hm.
  - destruct (match_pattern (route_pattern r') (path req)) as [ps'|] eqn:Hp.
    + intros [= <- <-]. split; [apply list_elem_of_here|]. done.
    + intros H. destruct (IH H) as (? & ? & ?). split; [|done].
      by apply list_elem_of_further.
  - intros H. destruct (IH H) as (? & ? & ?). split; [|done].
    by apply list_elem_of_further.
Qed.

(** What a handler reads of a request: never the Authorization header,
    which the guard alone reads, and the user that the guard attached only
    where a profile is updated. *)
Lemma handlers_read rt cfg r :
  r ∈ routes rt cfg ->
  ∀ env req1 req2 db,
    method req1 = method req2 -> path req1 = path req2 ->
    query req1 = query req2 -> body req1 = body req2 ->
    params req1 = params req2 ->
    (route_method r = PUT -> user req1 = user req2) ->
    route_handler r env req1 db = route_handler r env req2 db.
Proof.
  intros Hr env [m p a q b ps u] [m' p' a' q' b' ps' u'] db. simpl.
  intros <- <- <- <- <- Hu. unfold routes in Hr.
  repeat (apply elem_of_cons in Hr as [-> | Hr];
          [first [reflexivity | by rewrite (Hu eq_refl)]|]).
  by apply elem_of_nil in Hr.
Qed.

(** Two requests that differ in the Authorization header alone, and present
    the same token, are answered alike. *)
Lemma app_same_token rt cfg env req h1 h2 db :
  bearer_token h1 = bearer_token h2 ->
  app rt cfg env (with_authorization h1 req) db
  = app rt cfg env (with_authorization h2 req) db.
Proof.
  intros Htoken. unfold app.
  change (serve_static cfg (with_authorization h1 req)) with (serve_static cfg req).
  change (serve_static cfg (with_authorization h2 req)) with (serve_static cfg req).
  destruct (serve_static cfg req); [done|]. unfold router.
  rewrite (find_route_ext _ (with_authorization h1 req) req) by done.
  rewrite (find_route_ext _ (with_authorization h2 req) req) by done.
  destruct (find_route (routes rt cfg) req) as [[r ps]|] eqn:Hroute; [|done].
  apply find_route_Some in Hroute as (Hr & _). unfold run_route.
  destruct (route_guarded r).
  - unfold authenticateToken. cbn [authorization set_params with_authorization].
    rewrite Htoken. destruct (negb _); [done|].
    destruct (jwt_verify rt _ _) as [decoded|error]; [|done].
    destruct (_ <$> _) as [|row rest]; [done|].
    by apply (handlers_read rt cfg r Hr).
  - by apply (handlers_read rt cfg r Hr).
Qed.

(** X5. The guard takes as the token the second of the words of the
    Authorization header that single spaces separate, whatever the first
    word is and whatever follows the second: the scheme is not checked. A
    request whose header is [scheme token] is answered exactly as the one
    whose header is [Bearer token], and a header without a space presents no
    token. *)
Theorem X5_scheme_not_checked rt cfg env req db scheme token rest :
  free_of " " scheme = true -> free_of " " token = true ->
  let answer := λ header, app rt cfg env (with_authorization (Some header) req) db in
  answer (scheme +:+ " " +:+ token) = answer ("Bearer " +:+ token)
  ∧ answer (scheme +:+ " " +:+ token +:+ " " +:+ rest) = answer ("Bearer " +:+ token)
  ∧ (scheme ≠ "" -> bearer_token (Some scheme) = None).
Proof.
  intros Hs Ht answer.
  assert (bearer_token (Some ("Bearer " +:+ token)) = Some token) as Hbearer
    by by apply (bearer_token_words "Bearer").
  unfold answer. split; [|split].
  - apply (app_same_token rt cfg env req (Some (scheme +:+ " " +:+ token))
             (Some ("Bearer " +:+ token)) db).
    rewrite Hbearer. by apply bearer_token_words.
  - apply (app_same_token rt cfg env req
             (Some (scheme +:+ " " +:+ token +:+ " " +:+ rest))
             (Some ("Bearer " +:+ token)) db).
    rewrite Hbearer. unfold bearer_token.
    change (" " +:+ token +:+ " " +:+ rest) with (String " " (token +:+ String " " rest)).
    rewrite app_space_not_empty, !split_free by done. done.
  - intros Hne. unfold bearer_token.
    destruct (String.eqb_spec scheme "") as [->|_]; [done|].
    by rewrite split_free_end.
Qed.

(** The theorem for the header [Basic jwt.user1] at the dashboard of user1,
    on the seeded store. *)
Lemma X5_scheme_not_checked_witness :
  let req := sample.request GET ["api"; "dashboard"; "user1"] None [] in
  status (app sample.rt sample.cfg sample.env
            (with_authorization (Some "Basic jwt.user1") req) seed.db).1 = 200%nat.
Proof.
  intros req.
  destruct (X5_scheme_not_checked sample.rt sample.cfg sample.env req seed.db
              "Basic" "jwt.user1" "" eq_refl eq_refl) as (H & _).
  change ("Basic" +:+ " " +:+ "jwt.user1") with "Basic jwt.user1" in H.
  rewrite H. vm_compute. reflexivity.
Defined.

(** X6. Only the update of a profile checks whose token it is. A request of
    any method but PUT is answered alike for any two callers that the guard
    lets through: reading or changing the dashboard, the calculator or the
    alerts of another user is not refused. *)
Theorem X6_identity_only_checked_on_put rt cfg env req db h1 h2 me1 me2 :
  method req ≠ PUT ->
  authenticated rt env (with_authorization h1 req) db me1 ->
  authenticated rt env (with_authorization h2 req) db me2 ->
  app rt cfg env (with_authorization h1 req) db
  = app rt cfg env (with_authorization h2 req) db.
Proof.
  intros Hm Hme1 Hme2. unfold app.
  change (serve_static cfg (with_authorization h1 req)) with (serve_static cfg req).
  change (serve_static cfg (with_authorization h2 req)) with (serve_static cfg req).
  destruct (serve_static cfg req); [done|]. unfold router.
  rewrite (find_route_ext _ (with_authorization h1 req) req) by done.
  rewrite (find_route_ext _ (with_authorization h2 req) req) by done.
  destruct (find_route (routes rt cfg) req) as [[r ps]|] eqn:Hroute; [|done].
  apply find_route_Some in Hroute as (Hr & Hmethod & _). unfold run_route.
  assert (route_method r = PUT -> False) as Hput by (rewrite Hmethod; done).
  destruct (route_guarded r).
  - rewrite (guard_passes rt cfg env (set_params ps (with_authorization h1 req)) _ db me1)
      by exact Hme1.
    rewrite (guard_passes rt cfg env (set_params ps (with_authorization h2 req)) _ db me2)
      by exact Hme2.
    apply (handlers_read rt cfg r Hr); try done.
  - apply (handlers_read rt cfg r Hr); try done.
Qed.

(** The theorem for user1 and user2 changing the dashboard of user1, on the
    seeded store. *)
Lemma X6_identity_witness :
  let req := sample.request PATCH ["api"; "dashboard"; "user1"] None
               [("user_id", JStr "user1"); ("carbon_footprint", JNum 1)] in
  let answer := λ token, app sample.rt sample.cfg sample.env
                           (with_authorization (Some ("Bearer " +:+ token)) req)
                           seed.db in
  answer "jwt.user2" = answer "jwt.user1" ∧ status (answer "jwt.user1").1 = 200%nat.
Proof.
  intros req answer. split; [|vm_compute; reflexivity].
  unfold answer.
  apply (X6_identity_only_checked_on_put sample.rt sample.cfg sample.env req seed.db
           (Some ("Bearer " +:+ "jwt.user2")) (Some ("Bearer " +:+ "jwt.user1"))
           (sql.project ["id"; "email"; "name"; "created_at"] seed.user2)
           (sql.project ["id"; "email"; "name"; "created_at"] seed.user1)).
  - discriminate.
  - exists "jwt.user2", {["user_id" := JStr "user2"]}, [].
    split; [vm_compute; reflexivity|]. split; [done|].
    split; vm_compute; reflexivity.
  - exists "jwt.user1", {["user_id" := JStr "user1"]}, [].
    split; [vm_compute; reflexivity|]. split; [done|].
    split; vm_compute; reflexivity.
Defined.

(* ===================================================================== *)
(** ** What the handlers keep of the store *)
(* ===================================================================== *)

Section keeps.

Context (P : Db -> Prop).

Lemma keeps_ret {A} (a : A) : keeps P (ret a).
Proof. by intros db. Qed.

Lemma keeps_lift {A} (r : Result A) : keeps P (lift r).
Proof. by intros db. Qed.

Lemma keeps_rows {A} (q : Db -> A) : keeps P (rows q).
Proof. by intros db. Qed.

Lemma keeps_bind {A B} (m : M A) (k : A -> M B) :
  keeps P m -> (∀ a, keeps P (k a)) -> keeps P (bind m k).
Proof.
  intros Hm Hk db HP. unfold bind. specialize (Hm db HP).
  destruct (m db) as [[a|e] db']; [|done]. by apply Hk.
Qed.

Lemma keeps_try_catch block handler : keeps P block -> keeps P (try_catch block handler).
Proof.
  intros Hb db HP. unfold try_catch. specialize (Hb db HP).
  by destruct (block db) as [[r|e] db'].
Qed.

Lemma keeps_exec {A} (q : Db -> Result (A * Db)) :
  (∀ db a db', q db = Ok (a, db') -> P db -> P db') -> keeps P (exec q).
Proof.
  intros Hq db HP. unfold exec. destruct (q db) as [[a db']|e] eqn:E; [|done].
  by eapply Hq.
Qed.

Lemma keeps_answer (r : Response) : keeps P (λ db, (r, db)).
Proof. by intros db. Qed.

Lemma keeps_guard rt cfg env req next :
  (∀ req', keeps P (next req')) -> keeps P (authenticateToken rt cfg env req next).
Proof.
  intros Hnext db HP. unfold authenticateToken.
  destruct (negb _); [done|]. destruct (jwt_verify rt _ _); [|done].
  destruct (_ <$> _); [done|]. by apply Hnext.
Qed.

End keeps.

Ltac keeps_step :=
  first
    [ apply keeps_try_catch
    | apply keeps_bind; [|intros ?]
    | apply keeps_ret
    | apply keeps_lift
    | apply keeps_rows
    | match goal with
      | |- keeps _ (if ?c then _ else _) => destruct c
      | |- keeps _ (match ?x with _ => _ end) => destruct x
      end ].

(** A statement that the store accepts leaves every key unique. *)
Lemma accept_keeps_unique t written rows' db db' :
  sql.accept t written rows' db = Ok db' -> keys_unique db -> keys_unique db'.
Proof.
  intros (-> & _ & Hu & _)%accept_ok Hdb t'.
  destruct (decide (t = t')) as [<-|Hne].
  - by rewrite rows_of_with_rows.
  - by rewrite rows_of_with_rows_ne.
Qed.

Lemma insert_keeps_keys rt t given :
  keeps keys_unique (exec (sql.insert rt t given)).
Proof.
  apply keeps_exec. intros db row db' Hins. unfold sql.insert in Hins.
  destruct (sql.build_row _ _ _) as [r|]; [|done].
  destruct (sql.accept _ _ _ _) as [db1|] eqn:Ha; [|done]. simplify_eq.
  by eapply accept_keeps_unique.
Qed.

Lemma update_keeps_keys rt t sets col p :
  keeps keys_unique (exec (sql.update rt t sets col p)).
Proof.
  apply keeps_exec. intros db written db' Hup. unfold sql.update in Hup.
  destruct (sql.update_rows _ _ _ _ _ _) as [[w r]|]; [|done].
  destruct (sql.accept _ _ _ _) as [db1|] eqn:Ha; [|done]. simplify_eq.
  by eapply accept_keeps_unique.
Qed.

Ltac keeps_keys :=
  repeat first [ apply insert_keeps_keys | apply update_keeps_keys | keeps_step ].

Lemma handlers_keep_keys rt cfg r :
  r ∈ routes rt cfg -> ∀ env req, keeps keys_unique (route_handler r env req).
Proof.
  intros Hr env req. unfold routes in Hr.
  repeat (apply elem_of_cons in Hr as [-> | Hr];
          [cbn [route_handler];
           first [ apply keeps_answer
                 | unfold register, login, get_user, put_user, search_users,
                     get_dashboard, patch_dashboard, get_impact_calculator,
                     patch_impact_calculator, get_forum, post_forum, patch_forum,
                     get_events, post_event, patch_event, get_resources,
                     post_resource, patch_resource, get_alerts, post_alert,
                     patch_alert; cbv zeta; keeps_keys ]|]).
  by apply elem_of_nil in Hr.
Qed.

Lemma update_rows_length rt def sets col p (rows : list Obj) written rows' :
  sql.update_rows rt def sets col p rows = Ok (written, rows') ->
  length rows' = length rows.
Proof.
  revert written rows'. induction rows as [|r rows IH]; intros written rows'; simpl.
  - by intros [= <- <-].
  - destruct (sql.update_rows rt def sets col p rows) as [[w rs]|]; [|done].
    destruct (sql.eq_param rt col p r).
    + destruct (sql.assign rt def sets r); [|done]. intros [= <- <-]. simpl.
      f_equal. by eapply IH.
    + intros [= <- <-]. simpl. f_equal. by eapply IH.
Qed.

(** No statement of the server removes a row. *)
Lemma insert_keeps_rows rt t given t' n :
  keeps (λ db, n ≤ length (rows_of t' db))%nat (exec (sql.insert rt t given)).
Proof.
  apply keeps_exec. intros db row db' Hins Hn. apply insert_ok in Hins as [_ ->].
  destruct (decide (t = t')) as [<-|Hne].
  - rewrite rows_of_with_rows, length_app. simpl. lia.
  - by rewrite rows_of_with_rows_ne.
Qed.

Lemma update_keeps_rows rt t sets col p t' n :
  keeps (λ db, n ≤ length (rows_of t' db))%nat (exec (sql.update rt t sets col p)).
Proof.
  apply keeps_exec. intros db written db' Hup Hn. unfold sql.update in Hup.
  destruct (sql.update_rows _ _ _ _ _ _) as [[w r]|] eqn:Hrows; [|done].
  destruct (sql.accept _ _ _ _) as [db1|] eqn:Ha; [|done]. simplify_eq.
  apply accept_ok in Ha as (-> & _). apply update_rows_length in Hrows.
  destruct (decide (t = t')) as [<-|Hne].
  - rewrite rows_of_with_rows. lia.
  - by rewrite rows_of_with_rows_ne.
Qed.

Ltac unfold_handlers :=
  unfold register, login, get_user, put_user, search_users,
    get_dashboard, patch_dashboard, get_impact_calculator,
    patch_impact_calculator, get_forum, post_forum, patch_forum,
    get_events, post_event, patch_event, get_resources,
    post_resource, patch_resource, get_alerts, post_alert,
    patch_alert; cbv zeta.

Lemma handlers_keep_rows rt cfg r t n :
  r ∈ routes rt cfg ->
  ∀ env req, keeps (λ db, n ≤ length (rows_of t db))%nat (route_handler r env req).
Proof.
  intros Hr env req. unfold routes in Hr.
  repeat (apply elem_of_cons in Hr as [-> | Hr];
          [cbn [route_handler];
           first [ apply keeps_answer
                 | unfold_handlers;
                   repeat first [ apply insert_keeps_rows | apply update_keeps_rows
                                | keeps_step ] ]|]).
  by apply elem_of_nil in Hr.
Qed.

(** Whatever holds of the store and is kept by every handler is kept by the
    application. *)
Lemma app_keeps (P : Db -> Prop) rt cfg env req :
  (∀ r, r ∈ routes rt cfg -> route_method r = method req ->
        is_Some (match_pattern (route_pattern r) (path req)) ->
        ∀ req', keeps P (route_handler r env req')) ->
  keeps P (app rt cfg env req).
Proof.
  intros Hh db HP. unfold app. destruct (serve_static cfg req); [done|].
  unfold router.
  destruct (find_route (routes rt cfg) req) as [[r ps]|] eqn:Hroute; [|done].
  apply find_route_Some in Hroute as (Hr & Hm & Hp). unfold run_route.
  destruct (route_guarded r).
  - refine (keeps_guard P rt cfg env _ _ _ db HP). intros req'. apply Hh; eauto.
  - apply Hh; eauto.
Qed.

Lemma seed_keys_unique : keys_unique seed.db.
Proof. intros t. destruct t; vm_compute; reflexivity. Qed.

(** The handlers of the routes that read. *)
Lemma readers_keep rt cfg r (P : Db -> Prop) :
  r ∈ routes rt cfg ->
  route_method r = GET ->
  route_pattern r ≠ at_path [lit "api"; lit "impact-calculator"; param "user_id"] ->
  ∀ env req, keeps P (route_handler r env req).
Proof.
  intros Hr Hm Hp env req. unfold routes in Hr.
  repeat (apply elem_of_cons in Hr as [-> | Hr];
          [cbn [route_handler route_method route_pattern] in *;
           first [ discriminate | done | apply keeps_answer
                 | unfold_handlers; repeat keeps_step ]|]).
  by apply elem_of_nil in Hr.
Qed.

(** X7. Whatever the request, the application leaves every key unique (the
    primary key of each table and the e-mail address of the users) if it was
    unique before, and removes no row: no table gets shorter. *)
Theorem X7_requests_keep_the_store_sound rt cfg env req db :
  keys_unique db ->
  keys_unique (app rt cfg env req db).2
  ∧ ∀ t, (length (rows_of t db) ≤ length (rows_of t (app rt cfg env req db).2))%nat.
Proof.
  intros Hdb. split.
  - apply (app_keeps keys_unique); [|done].
    intros r Hr _ _ req'. by apply (handlers_keep_keys rt cfg).
  - intros t.
    apply (app_keeps (λ db', length (rows_of t db) ≤ length (rows_of t db'))%nat);
      [|done].
    intros r Hr _ _ req'. by apply (handlers_keep_rows rt cfg).
Qed.

(** The theorem at the registration of a new address on the seeded store. *)
Lemma X7_store_sound_witness :
  let req := sample.request POST ["api"; "auth"; "register"] None
               [("email", JStr "New.User@Example.com"); ("name", JStr "New User");
                ("password_hash", JStr "secret")] in
  let db' := (app sample.rt sample.cfg sample.env req seed.db).2 in
  keys_unique db' ∧ (2 ≤ length (rows_of users db'))%nat.
Proof.
  intros req db'.
  destruct (X7_requests_keep_the_store_sound sample.rt sample.cfg sample.env req
              seed.db seed_keys_unique) as [H1 H2].
  split; [exact H1|]. exact (H2 users).
Defined.

(** X8. Reading changes nothing, with one exception. A GET request leaves
    the store as it was, whatever its path, its token and its query, unless
    it is addressed to [/api/impact-calculator/...], the one route that
    writes on a read. *)
Theorem X8_get_changes_nothing rt cfg env req db :
  method req = GET ->
  toLowerCase <$> take 2 (path req) ≠ ["api"; "impact-calculator"] ->
  (app rt cfg env req db).2 = db.
Proof.
  intros Hm Hp. apply (app_keeps (λ db', db' = db)); [|done].
  intros r Hr Hmethod [ps Hmatch] req'. apply (readers_keep rt cfg); [done|congruence|].
  intros Hcalc. rewrite Hcalc in Hmatch. apply Hp. unfold match_pattern in Hmatch.
  destruct (path req) as [|a [|b rest]]; [done|..].
  - by apply match_lit in Hmatch as [_ Hmatch].
  - apply match_lit in Hmatch as [Ha Hmatch].
    apply match_lit in Hmatch as [Hb _].
    cbn [take fmap list_fmap]. by rewrite Ha, Hb.
Qed.

(** The theorem at the list of the events, on the seeded store. *)
Lemma X8_get_changes_nothing_witness :
  (app sample.rt sample.cfg sample.env
     (sample.request GET ["api"; "events"] (Some "jwt.user1") []) seed.db).2 = seed.db.
Proof.
  apply X8_get_changes_nothing; [reflexivity|]. vm_compute. discriminate.
Defined.

(* ===================================================================== *)
(** ** Validation *)
(* ===================================================================== *)

Lemma parse_fields_insert_other rt shape (input : Obj) k x :
  k ∉ shape.*1 ->
  z.parse_fields rt shape (<[k := x]> input) = z.parse_fields rt shape input.
Proof.
  induction shape as [|[key s] rest IH]; [done|]. intros Hk.
  apply not_elem_of_cons in Hk as [Hne Hk]. simpl.
  rewrite IH by done. simpl in Hne. by rewrite lookup_insert_ne.
Qed.

Lemma parse_insert_other rt shape (input : Obj) k x :
  k ∉ shape.*1 ->
  z.parse rt shape (JObj (<[k := x]> input)) = z.parse rt shape (JObj input).
Proof. intros Hk. unfold z.parse. by rewrite parse_fields_insert_other. Qed.

(** A validator throws nothing but a [ZodError], and one that names at
    least one issue. *)
Lemma parse_throws_zod rt shape data error :
  z.parse rt shape data = Throw error -> ∃ issues, error = ZodError issues ∧ issues ≠ [].
Proof.
  unfold z.parse. destruct data; try (intros [= <-]; by eexists).
  destruct (z.parse_fields rt shape fields) as [out [|i issues]]; [done|].
  intros [= <-]. by eexists.
Qed.

Lemma catch_zod_validation rt cfg env message error :
  (∃ issues, error = ZodError issues ∧ issues ≠ []) ->
  catch_zod rt cfg env message error
  = res_json 400 (createErrorResponse rt cfg env message (Some error)
                    "VALIDATION_ERROR").
Proof. by intros (issues & -> & _). Qed.

(** The first field of a shape, replaced in the input by another text. *)
Lemma parse_first_text rt k rest (input : Obj) i i' :
  k ∉ rest.*1 ->
  input !! k = Some (JStr i) ->
  z.parse rt ((k, z.string []) :: rest) (JObj (<[k := JStr i']> input))
  = match z.parse rt ((k, z.string []) :: rest) (JObj input) with
    | Ok v => Ok (<[k := JStr i']> v)
    | Throw error => Throw error
    end.
Proof.
  intros Hk Hin. unfold z.parse. simpl.
  rewrite parse_fields_insert_other by done. rewrite Hin, lookup_insert_eq. simpl.
  destruct (z.parse_fields rt rest input) as [out [|x issues]]; [|done].
  by rewrite insert_insert_eq.
Qed.

(** X9. A body that fails validation is answered 400 VALIDATION_ERROR and
    nothing is stored, at the registration, at each of the seven update
    endpoints and at each of the four create endpoints; the same holds for
    the query of the user search. The validator runs before anything else
    in the handler: at the update of a profile it runs before the identity
    check, so an invalid body is answered 400 even for the profile of
    another user. The error that is caught is a [ZodError] that names at
    least one field. *)
Theorem X9_invalid_input_changes_nothing rt cfg env req db :
  let refused := λ message error,
    (res_json 400 (createErrorResponse rt cfg env message (Some error)
                     "VALIDATION_ERROR"), db) in
  (∀ error, z.parse rt createUserInputSchema (body req) = Throw error ->
     register rt cfg env req db = refused "Invalid input data" error)
  ∧ (∀ e error, z.parse rt (up_schema e) (body req) = Throw error ->
       up_handler rt cfg e env req db = refused "Invalid input data" error)
  ∧ (∀ e error, z.parse rt (cr_schema e) (body req) = Throw error ->
       cr_handler rt cfg e env req db = refused "Invalid input data" error)
  ∧ (∀ error, z.parse rt searchUserInputSchema (JObj (query req)) = Throw error ->
       search_users rt cfg env req db = refused "Invalid query parameters" error)
  ∧ (∀ shape data error, z.parse rt shape data = Throw error ->
       ∃ issues, error = ZodError issues ∧ issues ≠ []).
Proof.
  intros refused. unfold refused.
  split; [|split; [|split; [|split]]].
  - intros error H. rewrite (register_invalid _ _ _ _ _ _ H).
    by rewrite (catch_zod_validation _ _ _ _ _ (parse_throws_zod _ _ _ _ H)).
  - intros e error H.
    rewrite <- (catch_zod_validation _ _ _ _ _ (parse_throws_zod _ _ _ _ H)).
    destruct e; simpl in H; unfold up_handler; unfold_handlers;
      unfold try_catch, bind, lift; by rewrite H.
  - intros e error H.
    rewrite <- (catch_zod_validation _ _ _ _ _ (parse_throws_zod _ _ _ _ H)).
    destruct e; simpl in H; unfold cr_handler; unfold_handlers;
      unfold try_catch, bind, lift; by rewrite H.
  - intros error H.
    rewrite <- (catch_zod_validation _ _ _ _ _ (parse_throws_zod _ _ _ _ H)).
    unfold search_users, try_catch, bind, lift. by rewrite H.
  - intros shape data error. apply parse_throws_zod.
Qed.

(** X10. A field of the body that the validator of the endpoint does not
    declare has no effect: the answer and the store are the same with and
    without it, at the registration, the updates and the creations. A
    client cannot choose the id or the creation time of a user, nor set a
    column that the schema does not name. *)
Theorem X10_undeclared_fields_have_no_effect rt cfg env req db b k x :
  body req = JObj b ->
  let req' := with_body (JObj (<[k := x]> b)) req in
  (k ∉ createUserInputSchema.*1 ->
     register rt cfg env req' db = register rt cfg env req db)
  ∧ (∀ e, k ∉ (up_schema e).*1 ->
       up_handler rt cfg e env req' db = up_handler rt cfg e env req db)
  ∧ (∀ e, k ∉ (cr_schema e).*1 ->
       cr_handler rt cfg e env req' db = cr_handler rt cfg e env req db).
Proof.
  destruct req as [m p a q b0 ps u]. simpl. intros ->.
  split; [|split].
  - intros Hk. unfold register, with_body. cbn [body].
    by rewrite parse_insert_other.
  - intros e Hk. destruct e; simpl in Hk; unfold up_handler; unfold_handlers;
      unfold with_body; cbn [body params user]; by rewrite parse_insert_other.
  - intros e Hk. destruct e; simpl in Hk; unfold cr_handler; unfold_handlers;
      unfold with_body; cbn [body params user]; by rewrite parse_insert_other.
Qed.

(** The theorem for a registration that submits an id and a creation time
    of its own, on the seeded store. *)
Lemma X10_undeclared_fields_witness :
  let b := [("email", JStr "New.User@Example.com"); ("name", JStr "New User");
            ("password_hash", JStr "secret")] in
  let req := sample.request POST ["api"; "auth"; "register"] None b in
  let req' := with_body (JObj (<["id" := JStr "admin"]> (list_to_map b))) req in
  response_field (register sample.rt sample.cfg sample.env req' seed.db).1 "id"
  = Some (JStr (uuid sample.env)).
Proof.
  intros b req req'.
  destruct (X10_undeclared_fields_have_no_effect sample.rt sample.cfg sample.env
              req seed.db (list_to_map b) "id" (JStr "admin") eq_refl) as (H & _).
  fold req' in H. rewrite H.
  - vm_compute. reflexivity.
  - apply (bool_decide_unpack _). vm_compute. exact I.
Defined.

(** X11. Every update validator requires the identifier of the record in the
    body, but no update handler reads it: the record is the one that the
    path names. With any other text as the identifier in the body, the
    answer and the store are the same. *)
Theorem X11_body_identifier_is_not_read rt cfg e env req db b i i' :
  body req = JObj b ->
  b !! up_identifier e = Some (JStr i) ->
  up_handler rt cfg e env (with_body (JObj (<[up_identifier e := JStr i']> b)) req) db
  = up_handler rt cfg e env req db.
Proof.
  destruct req as [m p a q b0 ps u]. simpl. intros -> Hi.
  destruct e; cbn [up_identifier] in *; unfold up_handler; unfold_handlers;
    unfold with_body; cbn [body params user];
    unfold updateUserInputSchema, updateUserDashboardInputSchema,
      updateImpactCalculatorInputSchema, updateEcoCommunityForumInputSchema,
      updateEventInputSchema, updateResourceLibraryInputSchema,
      updateAlertInputSchema;
    (rewrite (parse_first_text rt _ _ b i i');
       [|apply (bool_decide_unpack _); vm_compute; exact I|exact Hi]);
    unfold try_catch, bind, lift;
    (destruct (z.parse rt _ (JObj b)) as [v|error]; [|reflexivity]);
    rewrite ?lookup_insert_ne by done; reflexivity.
Qed.

(** The theorem at [PATCH /api/events/event1] with the id of another event
    in the body, on the seeded store: event1 is the one that is updated. *)
Lemma X11_body_identifier_witness :
  let b := [("id", JStr "event1"); ("location", JStr "Town Hall")] in
  let req := set_params {["id" := "event1"]}
               (sample.request PATCH ["api"; "events"; "event1"] None b) in
  let req' := with_body (JObj (<["id" := JStr "event2"]> (list_to_map b))) req in
  response_field (patch_event sample.rt sample.cfg sample.env req' seed.db).1 "id"
  = Some (JStr "event1").
Proof.
  intros b req req'.
  pose proof (X11_body_identifier_is_not_read sample.rt sample.cfg up_event sample.env
                req seed.db (list_to_map b) "event1" "event2" eq_refl eq_refl) as H.
  change (up_handler sample.rt sample.cfg up_event) with
    (patch_event sample.rt sample.cfg) in H.
  change (up_identifier up_event) with "id" in H. fold req' in H. rewrite H.
  vm_compute. reflexivity.
Defined.

(* ===================================================================== *)
(** ** Creating records *)
(* ===================================================================== *)

Lemma cr_schema_NoDup e : NoDup (cr_schema e).*1.
Proof. destruct e; apply (bool_decide_unpack _); vm_compute; exact I. Qed.

(** The shape of the validated value under key [k]. *)
Ltac cr_kind_of e Hparse k :=
  let K := fresh "K" in
  pose proof (validated_admits _ _ _ _ k _ (cr_schema_NoDup e) Hparse ltac:(in_list))
    as K;
  simpl in K.

(** Each create handler, on a validated body, inserts the row of the
    endpoint and answers with it. *)
Lemma cr_handler_validated rt cfg e env req db v uid :
  z.parse rt (cr_schema e) (body req) = Ok v ->
  cr_owner e req v = Some (JStr uid) ->
  let row := created_row rt e env req v in
  cr_handler rt cfg e env req db
  = match sql.accept (cr_table e) [row] (rows_of (cr_table e) db ++ [row]) db with
    | Ok db' => (res_json 201 (cr_record e row), db')
    | Throw error => (catch_zod rt cfg env "Invalid input data" error, db)
    end
  ∧ forallb (sql.check_not_null (ddl (cr_table e))) [row] = true
  ∧ holds row "id" (uuid env)
  ∧ holds row (cr_owner_column e) uid.
Proof.
  intros Hparse Howner row. unfold row, created_row. rewrite Howner.
  destruct e; cbn [cr_owner cr_owner_column] in Howner; unfold cr_handler;
    unfold_handlers; unfold try_catch, bind, lift, exec, ret;
    cbn [cr_schema] in Hparse; rewrite Hparse; cbn [cr_table cr_record].
  - cr_kind_of cr_thread Hparse "thread_title". cr_kind_of cr_thread Hparse "content".
    cr_kind_of cr_thread Hparse "created_at".
    destruct K as [title K], K0 as [content K0], K1 as [ms K1].
    rewrite Howner, K, K0, K1. cbn [truthy date_toISOString default from_option id].
    set (r := <["id" := _]> _).
    rewrite (insert_built rt eco_community_forum _ db r) by reflexivity.
    split; [by destruct (sql.accept _ _ _ _)|]. done.
  - cr_kind_of cr_event Hparse "event_name". cr_kind_of cr_event Hparse "event_date".
    cr_kind_of cr_event Hparse "location".
    destruct K as [name K], K0 as [ms K0].
    rewrite Howner, K, K0. cbn [truthy date_toISOString default from_option id].
    destruct K1 as [K1|[loc K1]]; rewrite K1;
      cbn [default from_option id];
      set (r := <["id" := _]> _);
      rewrite (insert_built rt events _ db r) by reflexivity;
      (split; [by destruct (sql.accept _ _ _ _)|]); done.
  - cr_kind_of cr_resource Hparse "content_type". cr_kind_of cr_resource Hparse "title".
    cr_kind_of cr_resource Hparse "description".
    cr_kind_of cr_resource Hparse "content_url".
    destruct K as [ct K], K0 as [title K0].
    rewrite Howner, K, K0.
    destruct K1 as [K1|[d K1]], K2 as [K2|[url K2]]; rewrite K1, K2;
      cbn [default from_option id];
      set (r := <["id" := _]> _);
      rewrite (insert_built rt resource_library _ db r) by reflexivity;
      (split; [by destruct (sql.accept _ _ _ _)|]); done.
  - cr_kind_of cr_alert Hparse "alert_type". cr_kind_of cr_alert Hparse "message".
    cr_kind_of cr_alert Hparse "created_at".
    destruct K as [ty K], K0 as [msg K0], K1 as [ms K1].
    rewrite Howner, K, K0, K1. cbn [truthy date_toISOString default from_option id].
    set (r := <["id" := _]> _).
    rewrite (insert_built rt alerts _ db r) by reflexivity.
    split; [by destruct (sql.accept _ _ _ _)|]. done.
Qed.

(** The store accepts a new row of one of these tables iff the keys of the
    table were and stay unique and the owner of the row is a stored user. *)
Lemma accept_created e (row : Obj) db uid id :
  forallb (sql.check_not_null (ddl (cr_table e))) [row] = true ->
  holds row "id" id ->
  holds row (cr_owner_column e) uid ->
  let t := cr_table e in
  let accepted :=
    sql.check_unique (ddl t) (rows_of t db) = true
    ∧ (id ∉ sql.col_values "id" (rows_of t db))
    ∧ (uid ∈ sql.col_values "id" (rows_of users db)) in
  (accepted ->
     sql.accept t [row] (rows_of t db ++ [row]) db
     = Ok (with_rows t (rows_of t db ++ [row]) db))
  ∧ (¬ accepted ->
     ∃ detail, sql.accept t [row] (rows_of t db ++ [row]) db
               = Throw (DatabaseError detail)).
Proof.
  intros Hnn Hid Howner. cbv zeta. unfold sql.accept. rewrite Hnn. cbn [negb].
  set (t := cr_table e).
  assert (sql.check_unique (ddl t) (rows_of t db ++ [row]) = true
          ↔ sql.check_unique (ddl t) (rows_of t db) = true
            ∧ (id ∉ sql.col_values "id" (rows_of t db))) as Hu.
  { rewrite check_unique_snoc. split.
    - intros [Hu Hfresh]. split; [done|]. apply (Hfresh "id"); [|done].
      unfold t. destruct e; in_list.
    - intros [Hu Hfresh]. split; [done|]. intros c x Hc Hx.
      assert (c = "id") as ->.
      { unfold t in Hc.
        destruct e; cbn [primary_key unique ddl cr_table] in Hc;
          by apply list_elem_of_singleton in Hc. }
      unfold holds in *. by simplify_eq. }
  assert (forallb (sql.check_references db (ddl t)) [row]
          = bool_decide (uid ∈ sql.col_values "id" (rows_of users db))) as Hfk.
  { cbn [forallb]. rewrite andb_true_r. unfold sql.check_references, holds in *.
    unfold t. destruct e; cbn [forallb references ddl cr_table fst snd] in *;
      rewrite andb_true_r; cbn [cr_owner_column] in Howner; by rewrite Howner. }
  rewrite Hfk. split.
  - intros (H1 & H2 & H3). assert (sql.check_unique (ddl t) (rows_of t db ++ [row]) = true)
      as -> by by apply Hu.
    by rewrite bool_decide_true.
  - intros Hbad.
    destruct (sql.check_unique (ddl t) (rows_of t db ++ [row])) eqn:Hc;
      [|by eexists].
    destruct (proj1 Hu eq_refl) as [H1 H2]. cbn [negb].
    case_bool_decide as H3; [|by eexists]. destruct Hbad. done.
Qed.

(** X12. The four create endpoints (forum threads, events, resources,
    alerts) on a body that passes validation, for an owner that is a text:
    the row that is inserted holds the fresh id, the owner, the fields of the
    body and the submitted date in ISO form. If the keys of the table are
    unique, the fresh id is not taken and the owner is a stored user, the
    answer is 201 with exactly the stored row and the table holds that one
    row more. Otherwise (the owner is not a stored user, or the id is
    taken) the store refuses, the answer is 500, not 400 or 404, and nothing
    is stored. *)
Theorem X12_create_endpoints rt cfg e env req db v uid :
  z.parse rt (cr_schema e) (body req) = Ok v ->
  cr_owner e req v = Some (JStr uid) ->
  let t := cr_table e in
  let row := created_row rt e env req v in
  let accepted :=
    sql.check_unique (ddl t) (rows_of t db) = true
    ∧ (uuid env ∉ sql.col_values "id" (rows_of t db))
    ∧ (uid ∈ sql.col_values "id" (rows_of users db)) in
  let answer := cr_handler rt cfg e env req db in
  (accepted ->
     answer = (res_json 201 (cr_record e row), with_rows t (rows_of t db ++ [row]) db))
  ∧ (¬ accepted ->
       status answer.1 = 500%nat
       ∧ error_code answer.1 = Some (JStr "INTERNAL_SERVER_ERROR")
       ∧ answer.2 = db).
Proof.
  intros Hparse Howner t row accepted answer.
  destruct (cr_handler_validated rt cfg e env req db v uid Hparse Howner)
    as (Heq & Hnn & Hid & Hown).
  fold row in Heq, Hnn, Hid, Hown. fold answer in Heq.
  destruct (accept_created e row db uid (uuid env) Hnn Hid Hown) as [Hyes Hno].
  fold t in Heq, Hyes, Hno. split.
  - intros Hacc. by rewrite Heq, (Hyes Hacc).
  - intros Hbad. destruct (Hno Hbad) as [detail Hthrow].
    rewrite Heq, Hthrow, catch_zod_database. split; [done|]. split; [|done].
    by apply error_code_res_json.
Qed.

(** The theorem at the creation of an event by user1 and at one for an
    organizer that is not stored, on the seeded store. *)
Lemma X12_create_endpoints_witness :
  let post := λ organizer,
    post_event sample.rt sample.cfg sample.env
      (sample.request POST ["api"; "events"] None
         [("event_name", JStr "Beach Cleanup"); ("event_date", JStr "2023-10-10");
          ("location", JNull); ("organizer_id", JStr organizer)]) seed.db in
  (status (post "user1").1 = 201%nat
   ∧ response_field (post "user1").1 "event_date"
     = Some (JStr "2023-10-10T00:00:00.000Z")
   ∧ length (rows_of events (post "user1").2) = 3%nat)
  ∧ (status (post "nobody").1 = 500%nat ∧ (post "nobody").2 = seed.db).
Proof.
  intros post.
  pose (body_of := λ organizer : string,
          ([("event_name", JStr "Beach Cleanup"); ("event_date", JStr "2023-10-10");
            ("location", JNull); ("organizer_id", JStr organizer)]
           : list (string * JsVal))).
  pose (v := λ organizer : string,
          (list_to_map [("event_name", JStr "Beach Cleanup");
                        ("event_date", JDate 1696896000000);
                        ("location", JNull); ("organizer_id", JStr organizer)] : Obj)).
  assert (∀ o, z.parse sample.rt (cr_schema cr_event)
                 (body (sample.request POST ["api"; "events"] None (body_of o)))
               = Ok (v o)) as Hparse by (intros; vm_compute; reflexivity).
  split.
  - destruct (X12_create_endpoints sample.rt sample.cfg cr_event sample.env
                (sample.request POST ["api"; "events"] None (body_of "user1"))
                seed.db (v "user1") "user1" (Hparse _) eq_refl) as [H _].
    change (cr_handler sample.rt sample.cfg cr_event sample.env _ seed.db)
      with (post "user1") in H.
    rewrite H.
    + repeat split; vm_compute; reflexivity.
    + split; [vm_compute; reflexivity|].
      split; apply (bool_decide_unpack _); vm_compute; exact I.
  - destruct (X12_create_endpoints sample.rt sample.cfg cr_event sample.env
                (sample.request POST ["api"; "events"] None (body_of "nobody"))
                seed.db (v "nobody") "nobody" (Hparse _) eq_refl) as [_ H].
    change (cr_handler sample.rt sample.cfg cr_event sample.env _ seed.db)
      with (post "nobody") in H.
    destruct H as (H1 & _ & H2); [|by split].
    intros (_ & _ & Hin). revert Hin. apply (bool_decide_unpack _). vm_compute. exact I.
Defined.

(* ===================================================================== *)
(** ** Lists *)
(* ===================================================================== *)

Lemma before_total dir col a b :
  sql.before dir col a b = false -> sql.before dir col b a = true.
Proof.
  unfold sql.before. destruct dir; intros H.
  - destruct (String.leb_total (sql.sort_key col a) (sql.sort_key col b)); congruence.
  - destruct (String.leb_total (sql.sort_key col a) (sql.sort_key col b)); congruence.
Qed.

Lemma place_perm dir col r sorted : sql.place dir col r sorted ≡ₚ r :: sorted.
Proof.
  induction sorted as [|x rest IH]; [done|]. simpl.
  destruct (sql.before dir col r x); [done|]. rewrite IH. apply Permutation_swap.
Qed.

Lemma order_by_perm col dir rows : sql.order_by col dir rows ≡ₚ rows.
Proof.
  induction rows as [|r rows IH]; [done|]. unfold sql.order_by in *. simpl.
  by rewrite place_perm, IH.
Qed.

Lemma place_ordered dir col r sorted :
  ordered col dir sorted -> ordered col dir (sql.place dir col r sorted).
Proof.
  unfold ordered. induction sorted as [|x rest IH]; intros Hs; simpl.
  - by repeat constructor.
  - destruct (sql.before dir col r x) eqn:Hrx.
    + constructor; [done|]. by constructor.
    + apply Sorted_inv in Hs as [Hrest Hhd]. constructor; [by apply IH|].
      destruct rest as [|y rest]; simpl.
      * constructor. by apply before_total.
      * destruct (sql.before dir col r y).
        -- constructor. by apply before_total.
        -- constructor. by inversion Hhd.
Qed.

Lemma order_by_ordered col dir rows : ordered col dir (sql.order_by col dir rows).
Proof.
  induction rows as [|r rows IH]; [constructor|]. by apply place_ordered.
Qed.

Lemma with_created_at_row (row : Obj) : with_created_at row = JObj row.
Proof. unfold with_created_at. by rewrite spread_with_same. Qed.

Lemma with_event_date_row (row : Obj) : with_event_date row = JObj row.
Proof. unfold with_event_date. by rewrite spread_with_same. Qed.

Lemma fmap_with_created_at (l : list Obj) : with_created_at <$> l = JObj <$> l.
Proof. apply list_fmap_ext. intros _ row _. apply with_created_at_row. Qed.

Lemma fmap_with_event_date (l : list Obj) : with_event_date <$> l = JObj <$> l.
Proof. apply list_fmap_ext. intros _ row _. apply with_event_date_row. Qed.

Lemma cr_record_row e (row : Obj) : cr_record e row = JObj row.
Proof.
  destruct e; simpl; by rewrite ?with_created_at_row, ?with_event_date_row.
Qed.

Lemma cr_list_answer rt cfg e env req db :
  cr_list rt cfg e env req db
  = (res_json 200 (JArr (JObj <$> cr_listed rt e req db)), db).
Proof.
  destruct e; unfold cr_list, cr_listed; unfold_handlers;
    unfold try_catch, bind, rows, ret;
    by rewrite ?fmap_with_created_at, ?fmap_with_event_date.
Qed.

Lemma select_where_holds rt t col text db :
  sql.select_where rt t col (Some (JStr text)) db
  = filter (λ r, holds r col text) (rows_of t db).
Proof.
  unfold sql.select_where. apply list_filter_iff. intros r. apply eq_param_holds.
Qed.

(** X13. The four lists (forum threads, events, resources, the alerts of a
    user) never fail and never change the store: the answer is 200 with the
    stored rows as they are, every one of them exactly once (for the alerts:
    every alert of the user that the path names, and no other), in the order
    of the statement: threads and alerts by [created_at], latest first;
    events by [event_date] and resources by [title], ascending. A table
    without rows gives the empty list. *)
Theorem X13_lists rt cfg env req db :
  let listed := λ (answer : Response * Db) stored col dir,
    ∃ l, answer = (res_json 200 (JArr (JObj <$> l)), db)
         ∧ l ≡ₚ stored ∧ ordered col dir l ∧ (stored = [] -> l = []) in
  listed (get_forum rt cfg env req db) (rows_of eco_community_forum db)
    "created_at" sql.DESC
  ∧ listed (get_events rt cfg env req db) (rows_of events db) "event_date" sql.ASC
  ∧ listed (get_resources rt cfg env req db) (rows_of resource_library db)
      "title" sql.ASC
  ∧ (∀ uid, params req !! "user_id" = Some uid ->
       listed (get_alerts rt cfg env req db)
         (filter (λ r, holds r "user_id" uid) (rows_of alerts db))
         "created_at" sql.DESC).
Proof.
  intros listed. unfold listed.
  assert (∀ col dir stored,
            sql.order_by col dir stored ≡ₚ stored
            ∧ ordered col dir (sql.order_by col dir stored)
            ∧ (stored = [] -> sql.order_by col dir stored = [])) as Hsort.
  { intros col dir stored. split; [apply order_by_perm|].
    split; [apply order_by_ordered|]. by intros ->. }
  split; [|split; [|split]].
  - eexists. split; [exact (cr_list_answer rt cfg cr_thread env req db)|apply Hsort].
  - eexists. split; [exact (cr_list_answer rt cfg cr_event env req db)|apply Hsort].
  - eexists. split; [exact (cr_list_answer rt cfg cr_resource env req db)|apply Hsort].
  - intros uid Hparam. eexists.
    split; [exact (cr_list_answer rt cfg cr_alert env req db)|].
    unfold cr_listed. rewrite Hparam. cbn [fmap option_fmap option_map].
    rewrite select_where_holds. apply Hsort.
Qed.

Lemma cr_handler_invalid rt cfg e env req db error :
  z.parse rt (cr_schema e) (body req) = Throw error ->
  cr_handler rt cfg e env req db
  = (catch_zod rt cfg env "Invalid input data" error, db).
Proof.
  intros H. destruct e; simpl in H; unfold cr_handler; unfold_handlers;
    unfold try_catch, bind, lift; by rewrite H.
Qed.

(** The owner of a record that is created: a text, from the validated body;
    for an alert, the parameter of the path, which may be missing when the
    handler is run without its route. *)
Lemma cr_owner_validated rt e req v :
  z.parse rt (cr_schema e) (body req) = Ok v ->
  (∃ uid, cr_owner e req v = Some (JStr uid))
  ∨ (e = cr_alert ∧ params req !! "user_id" = None).
Proof.
  intros Hparse. destruct e; cbn [cr_owner cr_owner_column].
  - cr_kind_of cr_thread Hparse "user_id". left. destruct K as [u ->]. eauto.
  - cr_kind_of cr_event Hparse "organizer_id". left. destruct K as [u ->]. eauto.
  - cr_kind_of cr_resource Hparse "author_id". left. destruct K as [u ->]. eauto.
  - destruct (params req !! "user_id") as [u|]; [left; eauto|right; done].
Qed.

Lemma post_alert_without_param rt cfg env req db :
  params req !! "user_id" = None ->
  status (post_alert rt cfg env req db).1 ≠ 201%nat.
Proof.
  intros Hparam. unfold post_alert, try_catch, bind, lift, exec, ret.
  rewrite Hparam.
  destruct (z.parse rt createAlertInputSchema (body req)) as [v|error] eqn:Hparse;
    [|apply catch_zod_status].
  cr_kind_of cr_alert Hparse "alert_type". cr_kind_of cr_alert Hparse "message".
  cr_kind_of cr_alert Hparse "created_at".
  destruct K as [ty K], K0 as [msg K0], K1 as [ms K1]. rewrite K, K0, K1.
  cbn [truthy date_toISOString fmap option_fmap option_map].
  unfold sql.insert.
  set (given := [("id", _); _; _; _; _]).
  assert (∃ row, sql.build_row rt (columns (ddl alerts)) given = Ok row
                 ∧ row !! "user_id" = Some JNull) as (row & -> & Hrow)
    by (eexists; split; reflexivity).
  unfold sql.accept.
  assert (forallb (sql.check_not_null (ddl alerts)) [row] = false) as ->.
  { cbn [forallb not_null ddl sql.check_not_null]. by rewrite Hrow, andb_false_r. }
  cbn [negb]. apply catch_zod_status.
Qed.

(** What a creation answered 201 has done. *)
Lemma cr_handler_201 rt cfg e env req db :
  status (cr_handler rt cfg e env req db).1 = 201%nat ->
  ∃ v uid,
    z.parse rt (cr_schema e) (body req) = Ok v
    ∧ cr_owner e req v = Some (JStr uid)
    ∧ cr_handler rt cfg e env req db
      = (res_json 201 (JObj (created_row rt e env req v)),
         with_rows (cr_table e)
           (rows_of (cr_table e) db ++ [created_row rt e env req v]) db)
    ∧ holds (created_row rt e env req v) (cr_owner_column e) uid.
Proof.
  intros H201.
  destruct (z.parse rt (cr_schema e) (body req)) as [v|error] eqn:Hparse.
  2:{ rewrite (cr_handler_invalid _ _ _ _ _ _ _ Hparse) in H201.
      by apply catch_zod_status in H201. }
  destruct (cr_owner_validated rt e req v Hparse) as [[uid Howner]|[-> Hnone]].
  2:{ by apply post_alert_without_param in H201. }
  exists v, uid. split; [done|]. split; [done|].
  destruct (cr_handler_validated rt cfg e env req db v uid Hparse Howner)
    as (Heq & _ & _ & Hown).
  split; [|done]. rewrite Heq in H201 |- *.
  destruct (sql.accept _ _ _ _) as [db'|error] eqn:Ha.
  - apply accept_ok in Ha as (-> & _). by rewrite cr_record_row.
  - by apply catch_zod_status in H201.
Qed.

(** X14. Creating, then listing. After a creation answered 201 at one of
    the four create endpoints, the body of the answer is the stored row, and
    the list of the same kind, read from the resulting store, holds that
    record (for an alert: the list of the alerts of the same user). *)
Theorem X14_created_record_is_listed rt cfg e env env' req req' db :
  status (cr_handler rt cfg e env req db).1 = 201%nat ->
  params req' !! "user_id" = params req !! "user_id" ->
  let db' := (cr_handler rt cfg e env req db).2 in
  ∃ row l,
    (cr_handler rt cfg e env req db).1 = res_json 201 (JObj row)
    ∧ row ∈ rows_of (cr_table e) db'
    ∧ cr_list rt cfg e env' req' db' = (res_json 200 (JArr (JObj <$> l)), db')
    ∧ row ∈ l.
Proof.
  intros H201 Hparam db'.
  destruct (cr_handler_201 _ _ _ _ _ _ H201) as (v & uid & _ & Howner & Heq & Hown).
  unfold db'. rewrite Heq. cbn [fst snd].
  set (row := created_row rt e env req v) in *.
  set (db1 := with_rows _ _ db).
  assert (row ∈ rows_of (cr_table e) db1) as Hin.
  { unfold db1. rewrite rows_of_with_rows. apply elem_of_app. right.
    apply list_elem_of_here. }
  exists row, (cr_listed rt e req' db1).
  split; [done|]. split; [done|]. split; [apply cr_list_answer|].
  destruct e; unfold cr_listed; cbn [cr_table] in *.
  - by rewrite order_by_perm.
  - by rewrite order_by_perm.
  - by rewrite order_by_perm.
  - rewrite order_by_perm. cbn [cr_owner] in Howner. rewrite Hparam, Howner.
    rewrite select_where_holds. apply list_elem_of_filter. by split.
Qed.

(** The theorem at the creation of an event by user1, on the seeded store. *)
Lemma X14_created_record_witness :
  let req := sample.request POST ["api"; "events"] None
               [("event_name", JStr "Beach Cleanup"); ("event_date", JStr "2023-10-10");
                ("location", JNull); ("organizer_id", JStr "user1")] in
  let db' := (post_event sample.rt sample.cfg sample.env req seed.db).2 in
  ∃ row l,
    (post_event sample.rt sample.cfg sample.env req seed.db).1
    = res_json 201 (JObj row)
    ∧ row ∈ rows_of events db'
    ∧ get_events sample.rt sample.cfg sample.env req db'
      = (res_json 200 (JArr (JObj <$> l)), db')
    ∧ row ∈ l.
Proof.
  intros req db'.
  apply (X14_created_record_is_listed sample.rt sample.cfg cr_event sample.env
           sample.env req req seed.db).
  - vm_compute. reflexivity.
  - reflexivity.
Defined.

(* ===================================================================== *)
(** ** Reading what was updated *)
(* ===================================================================== *)

Lemma eq_param_apply_fields rt fields col key (r : Obj) :
  NoDup fields.*1 -> assigned fields col = None ->
  sql.eq_param rt col key (apply_fields fields r) = sql.eq_param rt col key r.
Proof.
  intros Hnd Hcol. unfold sql.eq_param.
  by rewrite apply_fields_lookup, Hcol by done.
Qed.

(** The rows that match the key after an update that does not write the key
    column: the rows that matched, updated. *)
Lemma filter_updated_rows rt fields col key (rows : list Obj) :
  NoDup fields.*1 -> assigned fields col = None ->
  filter (λ r, sql.eq_param rt col key r = true) (updated_rows rt fields col key rows)
  = apply_fields fields <$> filter (λ r, sql.eq_param rt col key r = true) rows.
Proof.
  intros Hnd Hcol. induction rows as [|r rows IH]; [done|].
  rewrite updated_rows_cons, !filter_cons.
  destruct (sql.eq_param rt col key r) eqn:Hr.
  - rewrite eq_param_apply_fields, Hr by done.
    rewrite !decide_True by done. by rewrite fmap_cons, IH.
  - rewrite Hr. rewrite !decide_False by done. done.
Qed.

(** What an update answered 200 has done, once the fields are collected. *)
Lemma finish_update_200 rt cfg env t col key not_found record fields db :
  storable rt (ddl t) fields ->
  status (finish_update rt cfg env t col key not_found record (some_fields fields) db).1
  = 200%nat ->
  ∃ row rest,
    apply_fields fields <$> sql.select_where rt t col key db = row :: rest
    ∧ finish_update rt cfg env t col key not_found record (some_fields fields) db
      = (res_json 200 (record row),
         with_rows t (updated_rows rt fields col key (rows_of t db)) db).
Proof.
  intros Hst. unfold finish_update, try_catch, bind, exec, ret, sql.update.
  destruct (length (some_fields fields) =? 0)%nat; [by intros H|].
  rewrite update_rows_storable by done.
  destruct (sql.accept _ _ _ _) as [db'|error] eqn:Ha.
  2:{ apply accept_throw in Ha. unfold catch_zod. rewrite Ha. by intros H. }
  apply accept_ok in Ha as (-> & _). unfold sql.select_where.
  destruct (apply_fields fields <$> _) as [|row rest]; [by intros H|].
  intros _. by exists row, rest.
Qed.

Lemma up_handler_invalid rt cfg e env req db error :
  z.parse rt (up_schema e) (body req) = Throw error ->
  up_handler rt cfg e env req db
  = (catch_zod rt cfg env "Invalid input data" error, db).
Proof.
  intros H. destruct e; simpl in H; unfold up_handler; unfold_handlers;
    unfold try_catch, bind, lift; by rewrite H.
Qed.

Lemma catch_zod_not_200 rt cfg env message error :
  status (catch_zod rt cfg env message error) ≠ 200%nat.
Proof. unfold catch_zod. by destruct (String.eqb _ _). Qed.

Lemma put_user_forbidden rt cfg env req db v :
  z.parse rt updateUserInputSchema (body req) = Ok v ->
  strict_eq (user req ≫= (.!! "id")) (JStr <$> params req !! "user_id") = false ->
  put_user rt cfg env req db
  = (res_json 403 (createErrorResponse rt cfg env
                     "Forbidden: Cannot update another user's profile" None
                     "FORBIDDEN"), db).
Proof.
  intros Hparse Hid. unfold put_user, try_catch, bind, lift, ret.
  by rewrite Hparse, Hid.
Qed.

(** What an update endpoint answered 200 has done. *)
Lemma up_handler_200 rt cfg e env req db :
  status (up_handler rt cfg e env req db).1 = 200%nat ->
  ∃ v row rest,
    z.parse rt (up_schema e) (body req) = Ok v
    ∧ apply_fields (supplied rt e v)
        <$> sql.select_where rt (up_table e) (up_column e)
              (JStr <$> params req !! up_param e) db = row :: rest
    ∧ up_handler rt cfg e env req db
      = (res_json 200 (up_record e row),
         with_rows (up_table e)
           (updated_rows rt (supplied rt e v) (up_column e)
              (JStr <$> params req !! up_param e) (rows_of (up_table e) db)) db).
Proof.
  intros H200.
  destruct (z.parse rt (up_schema e) (body req)) as [v|error] eqn:Hparse.
  2:{ rewrite (up_handler_invalid _ _ _ _ _ _ _ Hparse) in H200.
      by apply catch_zod_not_200 in H200. }
  assert (e = up_user ->
          strict_eq (user req ≫= (.!! "id")) (JStr <$> params req !! "user_id") = true)
    as Hme.
  { intros ->. destruct (strict_eq _ _) eqn:Hid; [done|].
    cbn [up_handler up_schema] in *.
    by rewrite (put_user_forbidden _ _ _ _ _ _ Hparse Hid) in H200. }
  destruct (up_handler_finish rt cfg e env req db v Hparse Hme) as [Heq Hst].
  rewrite Heq in H200 |- *.
  destruct (finish_update_200 _ _ _ _ _ _ _ _ _ _ Hst H200) as (row & rest & Hw & Hans).
  by exists v, row, rest.
Qed.

(** No update writes the column that names the record. *)
Lemma supplied_not_column rt e v : assigned (supplied rt e v) (up_column e) = None.
Proof.
  apply assigned_None. intros Hin. apply supplied_keys in Hin.
  destruct e; cbn [updatable up_column fmap list_fmap fst] in Hin;
    revert Hin; apply (bool_decide_unpack _); vm_compute; exact I.
Qed.

(** X15. Updating, then reading. After an update of a profile, a dashboard
    or an impact calculator that is answered 200, reading the same record
    from the resulting store is answered with the very same body, and changes
    nothing. *)
Theorem X15_update_then_read rt cfg e env env' req req' db reader :
  up_reader rt cfg e = Some reader ->
  status (up_handler rt cfg e env req db).1 = 200%nat ->
  params req' !! "user_id" = params req !! "user_id" ->
  reader env' req' (up_handler rt cfg e env req db).2 = up_handler rt cfg e env req db.
Proof.
  intros Hreader H200 Hparam.
  destruct (up_handler_200 _ _ _ _ _ _ H200) as (v & row & rest & _ & Hrows & ->).
  cbn [snd].
  set (fields := supplied rt e v) in *.
  set (key := JStr <$> params req !! up_param e) in *.
  assert (sql.select_where rt (up_table e) (up_column e) key
            (with_rows (up_table e)
               (updated_rows rt fields (up_column e) key (rows_of (up_table e) db)) db)
          = row :: rest) as Hread.
  { unfold sql.select_where. rewrite rows_of_with_rows.
    rewrite filter_updated_rows; [done|apply supplied_NoDup|apply supplied_not_column]. }
  destruct e; cbn [up_reader] in Hreader; simplify_eq;
    cbn [up_table up_column up_param up_record] in *;
    unfold get_user, get_dashboard, get_impact_calculator, try_catch, bind, rows, ret;
    rewrite Hparam; fold key; rewrite Hread; reflexivity.
Qed.

(** The theorem at the update of the dashboard of user1, on the seeded
    store. *)
Lemma X15_update_then_read_witness :
  let req := set_params {["user_id" := "user1"]}
               (sample.request PATCH ["api"; "dashboard"; "user1"] None
                  [("user_id", JStr "user1"); ("carbon_footprint", JNum 1);
                   ("daily_tips", JNull)]) in
  let answer := patch_dashboard sample.rt sample.cfg sample.env req seed.db in
  response_field answer.1 "carbon_footprint" = Some (JNum 1)
  ∧ get_dashboard sample.rt sample.cfg sample.env req answer.2 = answer.
Proof.
  intros req answer. split; [vm_compute; reflexivity|].
  apply (X15_update_then_read sample.rt sample.cfg up_dashboard sample.env sample.env
           req req seed.db).
  - reflexivity.
  - vm_compute. reflexivity.
  - reflexivity.
Defined.

(* ===================================================================== *)
(** ** The user search *)
(* ===================================================================== *)

Lemma fmap_with_created_at_project (l : list Obj) :
  (λ user : Obj, JObj (spread_with user "created_at" (user !! "created_at"))) <$> l
  = JObj <$> l.
Proof. apply list_fmap_ext. intros _ row _. by rewrite spread_with_same. Qed.

(** The rows that the search selects, orders and cuts, for a validated
    query. *)
Lemma search_users_validated rt cfg env req db v :
  z.parse rt searchUserInputSchema (JObj (query req)) = Ok v ->
  ∃ selected col dir,
    selected ⊆ rows_of users db
    ∧ search_users rt cfg env req db
      = (res_json 200
           (JArr (JObj <$> (sql.project ["id"; "email"; "name"; "created_at"]
                              <$> take (row_count (v !! "limit"))
                                    (drop (row_count (v !! "offset"))
                                       (sql.order_by col dir selected))))), db).
Proof.
  intros Hparse. unfold search_users, try_catch, bind, lift, rows, ret.
  rewrite Hparse. rewrite fmap_with_created_at_project.
  eexists _, _, _. split; [|reflexivity].
  destruct (v !! "query") as [[| | |q| | |]|]; try done.
  destruct (truthy _); [|done]. intros r Hr.
  by apply list_elem_of_filter in Hr as [_ Hr].
Qed.

Lemma searchUserInputSchema_NoDup : NoDup searchUserInputSchema.*1.
Proof. apply (bool_decide_unpack _); vm_compute; exact I. Qed.

(** X16. The handler of the user search, for every query and every store
    (the handler as written: C1 shows that its route is shadowed). It
    changes nothing. A query that fails validation is answered 400; as the
    schema asks for numbers, a [limit] or an [offset] that is present but
    is not a number (every value of a query string is a text) is refused.
    A query that passes is answered 200 with at most [limit] users (ten when
    no limit is given), each of them the id, address, name and creation time
    of a stored user, never the credential. *)
Theorem X16_search_users rt cfg env req db :
  let answer := search_users rt cfg env req db in
  answer.2 = db
  ∧ (∀ error, z.parse rt searchUserInputSchema (JObj (query req)) = Throw error ->
       status answer.1 = 400%nat ∧ error_code answer.1 = Some (JStr "VALIDATION_ERROR"))
  ∧ (∀ k x, k = "limit" ∨ k = "offset" -> query req !! k = Some x ->
       (∀ q, x ≠ JNum q) -> status answer.1 = 400%nat)
  ∧ (∀ v, z.parse rt searchUserInputSchema (JObj (query req)) = Ok v ->
       (query req !! "limit" = None -> v !! "limit" = Some (JNum 10))
       ∧ ∃ found,
           answer.1 = res_json 200 (JArr (JObj <$> found))
           ∧ (length found ≤ row_count (v !! "limit"))%nat
           ∧ ∀ u, u ∈ found ->
               u !! "password_hash" = None
               ∧ ∃ r, r ∈ rows_of users db
                      ∧ u = sql.project ["id"; "email"; "name"; "created_at"] r).
Proof.
  intros answer.
  assert (∀ error, z.parse rt searchUserInputSchema (JObj (query req)) = Throw error ->
            answer = (res_json 400 (createErrorResponse rt cfg env
                                      "Invalid query parameters" (Some error)
                                      "VALIDATION_ERROR"), db)) as Hinvalid.
  { intros error H. unfold answer, search_users, try_catch, bind, lift. rewrite H.
    by rewrite (catch_zod_validation _ _ _ _ _ (parse_throws_zod _ _ _ _ H)). }
  split; [|split; [|split]].
  - destruct (z.parse rt searchUserInputSchema (JObj (query req))) as [v|error] eqn:H.
    + destruct (search_users_validated rt cfg env req db v H) as (? & ? & ? & _ & Heq).
      unfold answer. by rewrite Heq.
    + by rewrite (Hinvalid error).
  - intros error H. rewrite (Hinvalid error H). split; [done|].
    by apply error_code_res_json.
  - intros k x Hk Hx Hnum.
    assert (∃ s checks d, (k, z.default (z.number checks) d) ∈ searchUserInputSchema
                          ∧ s = z.default (z.number checks) d) as (s & cs & d & Hin & ->).
    { destruct Hk as [-> | ->]; eexists _, _, _; (split; [in_list|reflexivity]). }
    destruct (parse_throws rt searchUserInputSchema (query req) k _ Hin)
      as (issues & Hthrow & _).
    { rewrite Hx. simpl. destruct x; try done. by destruct (Hnum n). }
    by rewrite (Hinvalid _ Hthrow).
  - intros v Hparse. split.
    + intros Hnone.
      pose proof (parse_ok_lookup rt _ _ _ "limit" _ searchUserInputSchema_NoDup
                    Hparse ltac:(in_list)) as Hl.
      cbn [field] in Hl. rewrite Hnone in Hl. by injection Hl as <-.
    + destruct (search_users_validated rt cfg env req db v Hparse)
        as (selected & col & dir & Hsub & Heq).
      eexists. unfold answer. rewrite Heq. split; [done|]. split.
      * rewrite length_fmap, length_take. lia.
      * intros u (r & -> & Hr)%list_elem_of_fmap. split.
        -- apply project_lookup_other. by apply (bool_decide_unpack _).
        -- exists r. split; [|done]. apply Hsub.
           eapply elem_of_sublist in Hr; [|apply sublist_take].
           eapply elem_of_sublist in Hr; [|apply sublist_drop].
           by rewrite order_by_perm in Hr.
Qed.

(** X17. Required fields. Every field that a create schema declares is
    required, the nullable ones included ([location], [description],
    [content_url] may be null but may not be left out), as are the three
    fields of a registration and the identifier of every update: a body
    that leaves one out is answered 400 VALIDATION_ERROR and nothing is
    stored. *)
Theorem X17_required_fields rt cfg env req db input :
  body req = JObj input ->
  let refused := λ answer : Response * Db,
    status answer.1 = 400%nat
    ∧ error_code answer.1 = Some (JStr "VALIDATION_ERROR")
    ∧ answer.2 = db in
  (∀ e k, k ∈ (cr_schema e).*1 -> input !! k = None ->
     refused (cr_handler rt cfg e env req db))
  ∧ (∀ k, k ∈ createUserInputSchema.*1 -> input !! k = None ->
       refused (register rt cfg env req db))
  ∧ (∀ e, input !! up_identifier e = None -> refused (up_handler rt cfg e env req db)).
Proof.
  intros Hbody refused.
  assert (∀ shape k,
            (∀ s, (k, s) ∈ shape -> z.parse_value rt s None = None) ->
            k ∈ shape.*1 -> input !! k = None ->
            ∃ error, z.parse rt shape (body req) = Throw error
                     ∧ ∃ issues, error = ZodError issues ∧ issues ≠ []) as Hthrow.
  { intros shape k Hreq Hk Hnone. rewrite Hbody.
    apply list_elem_of_fmap in Hk as ([k' s] & -> & Hin). simpl in Hnone.
    destruct (parse_throws rt shape input k' s Hin) as (issues & Hparse & Hissue).
    { rewrite Hnone. by apply Hreq. }
    eexists. split; [done|]. exists issues. split; [done|].
    intros ->. by apply elem_of_nil in Hissue. }
  assert (∀ message error, (∃ issues, error = ZodError issues ∧ issues ≠ []) ->
            refused (catch_zod rt cfg env message error, db)) as Hrefused.
  { intros message error Hz. rewrite (catch_zod_validation _ _ _ _ _ Hz).
    split; [done|]. split; [|done]. by apply error_code_res_json. }
  split; [|split].
  - intros e k Hk Hnone.
    destruct (Hthrow (cr_schema e) k) as (error & Hparse & Hz); [|done..|].
    { intros s Hs. destruct e; cbn [cr_schema] in Hs; unfold
        createEcoCommunityForumInputSchema, createEventInputSchema,
        createResourceLibraryInputSchema, createAlertInputSchema in Hs;
        repeat (apply elem_of_cons in Hs as [[= _ ->]|Hs]; [reflexivity|]);
        by apply elem_of_nil in Hs. }
    rewrite (cr_handler_invalid _ _ _ _ _ _ _ Hparse). by apply Hrefused.
  - intros k Hk Hnone.
    destruct (Hthrow createUserInputSchema k) as (error & Hparse & Hz); [|done..|].
    { intros s Hs. unfold createUserInputSchema in Hs.
      repeat (apply elem_of_cons in Hs as [[= _ ->]|Hs]; [reflexivity|]).
      by apply elem_of_nil in Hs. }
    rewrite (register_invalid _ _ _ _ _ _ Hparse). by apply Hrefused.
  - intros e Hnone. rewrite Hbody in *.
    destruct (update_schema_requires_identifier rt e input Hnone)
      as (issues & Hparse & Hissue).
    rewrite <- Hbody in Hparse.
    rewrite (up_handler_invalid _ _ _ _ _ _ _ Hparse). apply Hrefused.
    exists issues. split; [done|]. intros ->. by apply elem_of_nil in Hissue.
Qed.

(** The theorem at the creation of an event whose body leaves [location]
    out, on the seeded store. *)
Lemma X17_required_fields_witness :
  let req := sample.request POST ["api"; "events"] None
               [("event_name", JStr "Beach Cleanup"); ("event_date", JStr "2023-10-10");
                ("organizer_id", JStr "user1")] in
  status (post_event sample.rt sample.cfg sample.env req seed.db).1 = 400%nat.
Proof.
  intros req.
  destruct (X17_required_fields sample.rt sample.cfg sample.env req seed.db _ eq_refl)
    as (H & _).
  destruct (H cr_event "location") as (Hstatus & _).
  - apply (bool_decide_unpack _). vm_compute. exact I.
  - vm_compute. reflexivity.
  - exact Hstatus.
Defined.

(* ===================================================================== *)
(** ** The answers of the handlers *)
(* ===================================================================== *)

Section yields.

Context (Q : Response -> Prop).




End yields.












(* ===================================================================== *)
(** ** Requests outside the API *)
(* ===================================================================== *)









(** X21. Registration opens the guard. After a registration answered 201,
    a request that presents as [Bearer token] a token that the token library
    verifies and decodes to the id of the new user (as it does the token of
    the answer, which was signed for that id, until it expires) passes the
    guard as the new user; the token, as every JWT, is not empty and holds
    no space. The user that the guard attaches to the request has the id of
    the new user and carries no credential. *)
Theorem X21_registration_token_authenticates
    rt cfg env env' req req' db token decoded :
  status (register rt cfg env req db).1 = 201%nat ->
  authorization req' = Some ("Bearer " +:+ token) ->
  free_of " " token = true -> token ≠ "" ->
  jwt_verify rt token (now env') = Ok decoded ->
  decoded !! "user_id" = Some (JStr (uuid env)) ->
  let db' := (register rt cfg env req db).2 in
  ∃ me,
    authenticated rt env' req' db' me
    ∧ me !! "id" = Some (JStr (uuid env))
    ∧ me !! "password_hash" = None
    ∧ ∀ next, authenticateToken rt cfg env' req' next db' = next (set_user me req') db'.
Proof.
  intros H201 Hheader Hfree Hne Hverify Hid db'.
  destruct (register_201 _ _ _ _ _ H201)
    as (v & e & p & _ & _ & _ & _ & _ & _ & _ & Hanswer & Hu & _).
  set (me := sql.project ["id"; "email"; "name"; "created_at"]
               (registered_user rt env v)).
  assert (authenticated rt env' req' db' me) as Hme.
  { exists token, decoded, []. rewrite Hheader.
    split; [by apply (bearer_token_words "Bearer")|]. split; [done|].
    split; [done|]. rewrite Hid. unfold db'. rewrite Hanswer. cbn [snd].
    rewrite (select_where_snoc_fresh rt users "id" (uuid env) _ (rows_of users db)
               (registered_user rt env v)); [done|..].
    - rewrite rows_of_with_rows_ne by done. apply rows_of_with_rows.
    - apply check_unique_spec with (c := "id") in Hu; [done|]. in_list.
    - reflexivity. }
  exists me. split; [done|]. split; [|split].
  - unfold me. rewrite project_lookup by in_list. reflexivity.
  - unfold me. apply project_lookup_other. by apply (bool_decide_unpack _).
  - intros next. by apply guard_passes.
Qed.

(** The theorem at the registration of a new address on the seeded store. *)
Lemma X21_registration_token_witness :
  let b := [("email", JStr "New.User@Example.com"); ("name", JStr "New User");
            ("password_hash", JStr "secret")] in
  let req := sample.request POST ["api"; "auth"; "register"] None b in
  let token := "jwt." +:+ uuid sample.env in
  let req' := sample.request GET ["api"; "events"] (Some token) [] in
  let db' := (register sample.rt sample.cfg sample.env req seed.db).2 in
  ∃ me, authenticated sample.rt sample.env req' db' me
        ∧ me !! "id" = Some (JStr (uuid sample.env)).
Proof.
  intros b req token req' db'.
  destruct (X21_registration_token_authenticates sample.rt sample.cfg sample.env
              sample.env req req' seed.db token {["user_id" := JStr (uuid sample.env)]})
    as (me & Hme & Hid & _).
  - vm_compute. reflexivity.
  - reflexivity.
  - vm_compute. reflexivity.
  - discriminate.
  - vm_compute. reflexivity.
  - reflexivity.
  - by exists me.
Defined.

(* ===================================================================== *)
(** ** Validating what was validated *)
(* ===================================================================== *)

(** A value that is present never validates to [undefined]. *)
Lemma parse_value_present rt s x o :
  z.parse_value rt s (Some x) = Some o -> is_Some o.
Proof.
  revert o. induction s as [cs|cs| | |alts|s IH|s IH|s IH d]; intros o; simpl.
  - destruct x; try done. destruct (forallb _ _); [|done]. intros [= <-]. eauto.
  - destruct x; try done. destruct (forallb _ _); [|done]. intros [= <-]. eauto.
  - destruct x; try done. intros [= <-]. eauto.
  - destruct (Date_new rt x); [|done]. intros [= <-]. eauto.
  - destruct x; try done. case_bool_decide; [|done]. intros [= <-]. eauto.
  - apply IH.
  - destruct x; try apply IH. intros [= <-]. eauto.
  - apply IH.
Qed.

Lemma parse_value_idempotent rt s input o :
  (∀ ms, Date_new rt (JDate ms) = Some ms) ->
  z.parse_value rt s input = Some o -> z.parse_value rt s o = Some o.
Proof.
  intros Hdate. revert input o.
  induction s as [cs|cs| | |alts|s IH|s IH|s IH d]; intros input o; simpl.
  - destruct input as [[]|]; try done.
    destruct (forallb _ _) eqn:E; [|done]. intros [= <-]. by rewrite E.
  - destruct input as [[]|]; try done.
    destruct (forallb _ _) eqn:E; [|done]. intros [= <-]. by rewrite E.
  - destruct input as [[]|]; try done. by intros [= <-].
  - destruct input as [x|]; [|done].
    destruct (Date_new rt x); [|done]. intros [= <-]. by rewrite Hdate.
  - destruct input as [[]|]; try done.
    case_bool_decide as E; [|done]. intros [= <-]. by rewrite bool_decide_true.
  - destruct input as [x|]; [|by intros [= <-]].
    intros H. destruct (parse_value_present _ _ _ _ H) as [y ->]. by eapply IH.
  - intros H.
    assert (z.parse_value rt s input = Some o ∨ o = Some JNull) as [H1 | H1].
    { destruct input as [[]|]; eauto. right. by injection H as <-. }
    + apply IH in H1. by destruct o as [[]|].
    + by rewrite H1.
  - intros H.
    assert (∃ x, z.parse_value rt s (Some x) = Some o) as [x H'].
    { destruct input; eauto. }
    destruct (parse_value_present _ _ _ _ H') as [y ->]. by eapply IH.
Qed.

Lemma parse_fields_agree rt shape (i1 i2 : Obj) :
  (∀ k s, (k, s) ∈ shape ->
          z.parse_value rt s (i1 !! k) = z.parse_value rt s (i2 !! k)) ->
  z.parse_fields rt shape i1 = z.parse_fields rt shape i2.
Proof.
  induction shape as [|[key s] rest IH]; [done|]. intros H. simpl.
  rewrite IH by (intros k s' Hin; apply H; by apply list_elem_of_further).
  by rewrite (H key s) by apply list_elem_of_here.
Qed.

(** X22. Validation is idempotent. For every schema of [schema.ts] (every
    object schema without a repeated key), a value that a validator returns
    passes the same validator again and comes back unchanged: defaults are
    filled in once, dates stay the dates they were coerced to, and nothing
    is left to strip. ([new Date(d)] of a valid date [d] is taken to be
    [d].) *)
Theorem X22_validation_is_idempotent rt shape data v :
  (∀ ms, Date_new rt (JDate ms) = Some ms) ->
  NoDup shape.*1 ->
  z.parse rt shape data = Ok v ->
  z.parse rt shape (JObj v) = Ok v.
Proof.
  intros Hdate Hnd. unfold z.parse. destruct data as [| | | | | |input]; try done.
  destruct (z.parse_fields rt shape input) as [out [|i issues]] eqn:Hfields; [|done].
  intros [= <-].
  rewrite (parse_fields_agree rt shape out input); [by rewrite Hfields|].
  intros k s Hin. rewrite (parse_fields_lookup rt shape input out k s Hnd Hfields Hin).
  eapply parse_value_idempotent; [done|].
  by apply (parse_fields_lookup rt shape input out k s).
Qed.

(** The theorem for a query of the user search that gives no parameter:
    the defaults are filled in, and validating them again changes nothing. *)
Lemma X22_validation_witness :
  let v : Obj := list_to_map [("limit", JNum 10); ("offset", JNum 0);
                              ("sort_by", JStr "created_at");
                              ("sort_order", JStr "desc")] in
  z.parse sample.rt searchUserInputSchema (JObj ∅) = Ok v
  ∧ z.parse sample.rt searchUserInputSchema (JObj v) = Ok v.
Proof.
  intros v.
  assert (z.parse sample.rt searchUserInputSchema (JObj ∅) = Ok v) as Hparse
    by (vm_compute; reflexivity).
  split; [exact Hparse|].
  exact (X22_validation_is_idempotent sample.rt searchUserInputSchema (JObj ∅) v
           (λ ms, eq_refl) searchUserInputSchema_NoDup Hparse).
Defined.

(** X23. Reading an impact calculator, beyond the first read of C9. When
    the user of the path has calculators, the answer is 200 with the first
    of them and nothing is stored. When there is none and the path names no
    stored user, the insert of the empty calculator is refused by the
    foreign key: the answer is 500 INTERNAL_SERVER_ERROR, not 404, and
    nothing is stored. *)
Theorem X23_calculator_reads rt cfg env req db uid :
  params req !! "user_id" = Some uid ->
  let answer := get_impact_calculator rt cfg env req db in
  let found := sql.select_where rt impact_calculators "user_id" (Some (JStr uid)) db in
  (∀ calculator rest, found = calculator :: rest ->
     answer = (res_json 200 (JObj calculator), db))
  ∧ (found = [] -> uid ∉ sql.col_values "id" (rows_of users db) ->
       status answer.1 = 500%nat
       ∧ error_code answer.1 = Some (JStr "INTERNAL_SERVER_ERROR")
       ∧ answer.2 = db).
Proof.
  intros Hparam answer found. unfold answer, found.
  unfold get_impact_calculator, try_catch, bind, rows, exec, ret.
  rewrite Hparam. cbn [fmap option_fmap option_map]. split.
  - intros calculator rest ->. reflexivity.
  - intros -> Hunknown.
    rewrite (insert_built rt impact_calculators _ db (default_calculator (uuid env) uid))
      by reflexivity.
    assert (∃ detail,
              sql.accept impact_calculators [default_calculator (uuid env) uid]
                (rows_of impact_calculators db ++ [default_calculator (uuid env) uid]) db
              = Throw (DatabaseError detail)) as [detail ->].
    { unfold sql.accept.
      assert (forallb (sql.check_not_null (ddl impact_calculators))
                [default_calculator (uuid env) uid] = true) as -> by reflexivity.
      destruct (sql.check_unique _ _); [|by eexists]. cbn [negb].
      assert (forallb (sql.check_references db (ddl impact_calculators))
                [default_calculator (uuid env) uid] = false) as ->; [|by eexists].
      cbn [forallb]. rewrite andb_true_r. unfold sql.check_references.
      cbn [forallb references ddl]. rewrite andb_true_r.
      change (sql.cell_text (default_calculator (uuid env) uid !! "user_id"))
        with (Some uid).
      cbn [fst snd]. by apply bool_decide_eq_false. }
    split; [done|]. split; [|done]. by apply error_code_res_json.
Qed.

(** The theorem for the calculator of user1 and for that of a user who is
    not stored, on the seeded store. *)
Lemma X23_calculator_reads_witness :
  let get := λ uid, get_impact_calculator sample.rt sample.cfg sample.env
                      (set_params {["user_id" := uid]}
                         (sample.request GET ["api"; "impact-calculator"; uid] None []))
                      seed.db in
  response_field (get "user1").1 "id" = Some (JStr "calculator1")
  ∧ status (get "nobody").1 = 500%nat ∧ (get "nobody").2 = seed.db.
Proof.
  intros get.
  pose proof (λ uid, X23_calculator_reads sample.rt sample.cfg sample.env
                (set_params {["user_id" := uid]}
                   (sample.request GET ["api"; "impact-calculator"; uid] None []))
                seed.db uid (lookup_singleton_eq _ _)) as H.
  cbv zeta in H. split.
  - destruct (H "user1") as [H1 _].
    pose (c := hd (∅ : Obj) (rows_of impact_calculators seed.db)).
    assert (sql.select_where sample.rt impact_calculators "user_id"
              (Some (JStr "user1")) seed.db = [c]) as Hc
      by (vm_compute; reflexivity).
    unfold get. rewrite (H1 c [] Hc). reflexivity.
  - destruct (H "nobody") as [_ H2]. destruct H2 as (Hs & _ & Hdb).
    + vm_compute. reflexivity.
    + apply (bool_decide_unpack _). vm_compute. exact I.
    + by split.
Defined.

(** X24. The owner of a new alert is the user that the path names. The
    validator requires [user_id] in the body, but the handler does not read
    it: with any other text there, the answer and the store are the same. *)
Theorem X24_alert_owner_is_the_path rt cfg env req db b i i' :
  body req = JObj b ->
  b !! "user_id" = Some (JStr i) ->
  post_alert rt cfg env (with_body (JObj (<["user_id" := JStr i']> b)) req) db
  = post_alert rt cfg env req db.
Proof.
  destruct req as [m p a q b0 ps u]. simpl. intros -> Hi.
  unfold post_alert, with_body. cbn [body params user].
  unfold createAlertInputSchema.
  rewrite (parse_first_text rt _ _ b i i');
    [|apply (bool_decide_unpack _); vm_compute; exact I|exact Hi].
  unfold try_catch, bind, lift.
  destruct (z.parse rt _ (JObj b)) as [v|error]; [|reflexivity].
  rewrite ?lookup_insert_ne by done. reflexivity.
Qed.

(** The theorem at an alert for user1 whose body names user2, on the seeded
    store. *)
Lemma X24_alert_owner_witness :
  let b := [("user_id", JStr "user1"); ("alert_type", JStr "Reminder");
            ("message", JStr "Water the plants"); ("created_at", JStr "2023-10-10")] in
  let req := set_params {["user_id" := "user1"]}
               (sample.request POST ["api"; "alerts"; "user1"] None b) in
  let req' := with_body (JObj (<["user_id" := JStr "user2"]> (list_to_map b))) req in
  response_field (post_alert sample.rt sample.cfg sample.env req' seed.db).1 "user_id"
  = Some (JStr "user1").
Proof.
  intros b req req'.
  pose proof (X24_alert_owner_is_the_path sample.rt sample.cfg sample.env req seed.db
                (list_to_map b) "user1" "user2" eq_refl eq_refl) as H.
  fold req' in H. rewrite H. vm_compute. reflexivity.
Defined.

Lemma updated_rows_elem rt fields col key (rows : list Obj) (row : Obj) :
  row ∈ apply_fields fields <$> filter (λ r, sql.eq_param rt col key r = true) rows ->
  row ∈ updated_rows rt fields col key rows.
Proof.
  intros (r & -> & Hr)%list_elem_of_fmap. apply list_elem_of_filter in Hr as [Hm Hr].
  unfold updated_rows. apply list_elem_of_fmap. exists r. by rewrite Hm.
Qed.

(** X25. Updating, then listing. After an update of a forum thread, an
    event, a resource or an alert that is answered 200, the body of the
    answer is the stored row, and the list of that kind, read from the
    resulting store, holds it (for an alert: the list of the alerts of the
    user that the updated alert belongs to). *)
Theorem X25_updated_record_is_listed rt cfg e kind env env' req req' db :
  up_lister e = Some kind ->
  status (up_handler rt cfg e env req db).1 = 200%nat ->
  let db' := (up_handler rt cfg e env req db).2 in
  ∃ row,
    (up_handler rt cfg e env req db).1 = res_json 200 (JObj row)
    ∧ row ∈ rows_of (up_table e) db'
    ∧ ((kind = cr_alert -> ∃ uid, holds row "user_id" uid
                                  ∧ params req' !! "user_id" = Some uid) ->
       ∃ l, cr_list rt cfg kind env' req' db' = (res_json 200 (JArr (JObj <$> l)), db')
            ∧ row ∈ l).
Proof.
  intros Hkind H200 db'.
  destruct (up_handler_200 _ _ _ _ _ _ H200) as (v & row & rest & _ & Hrows & Heq).
  unfold db'. rewrite Heq. cbn [fst snd]. exists row.
  assert (row ∈ updated_rows rt (supplied rt e v) (up_column e)
                  (JStr <$> params req !! up_param e) (rows_of (up_table e) db))
    as Hin.
  { apply updated_rows_elem. unfold sql.select_where in Hrows. rewrite Hrows.
    apply list_elem_of_here. }
  split; [|split].
  - destruct e; cbn [up_lister] in Hkind; simplify_eq; cbn [up_record];
      by rewrite ?with_created_at_row, ?with_event_date_row.
  - by rewrite rows_of_with_rows.
  - intros Halert. eexists. split; [apply cr_list_answer|].
    destruct e; cbn [up_lister] in Hkind; simplify_eq;
      unfold cr_listed; cbn [up_table] in *; rewrite order_by_perm.
    + by rewrite rows_of_with_rows.
    + by rewrite rows_of_with_rows.
    + by rewrite rows_of_with_rows.
    + destruct (Halert eq_refl) as (uid & Hown & ->).
      cbn [fmap option_fmap option_map]. rewrite select_where_holds.
      apply list_elem_of_filter. split; [done|]. by rewrite rows_of_with_rows.
Qed.

(** The theorem at the update of the location of event1, on the seeded
    store. *)
Lemma X25_updated_record_witness :
  let req := set_params {["id" := "event1"]}
               (sample.request PATCH ["api"; "events"; "event1"] None
                  [("id", JStr "event1"); ("location", JStr "Town Hall")]) in
  let answer := patch_event sample.rt sample.cfg sample.env req seed.db in
  ∃ row,
    answer.1 = res_json 200 (JObj row)
    ∧ row ∈ rows_of events answer.2
    ∧ ∃ l, get_events sample.rt sample.cfg sample.env req answer.2
           = (res_json 200 (JArr (JObj <$> l)), answer.2)
           ∧ row ∈ l.
Proof.
  intros req answer.
  destruct (X25_updated_record_is_listed sample.rt sample.cfg up_event cr_event
              sample.env sample.env req req seed.db eq_refl) as (row & H1 & H2 & H3).
  - vm_compute. reflexivity.
  - exists row. split; [exact H1|]. split; [exact H2|]. apply H3. discriminate.
Defined.

(** X26. The public routes. A request that is taken by a route without the
    guard (the registration, the login, the health check, the fallback of
    the single-page application) is answered without a look at the
    Authorization header: the answer is the same with any header and with
    none, so a missing, forged or expired token changes nothing there. *)
Theorem X26_public_routes rt cfg env req db r ps :
  find_route (routes rt cfg) req = Some (r, ps) ->
  route_guarded r = false ->
  route_pattern r ∈ [at_path [lit "api"; lit "auth"; lit "register"];
                     at_path [lit "api"; lit "auth"; lit "login"];
                     at_path [lit "api"; lit "health"];
                     not_api]
  ∧ ∀ header, app rt cfg env (with_authorization header req) db
              = app rt cfg env req db.
Proof.
  intros Hroute Hpublic.
  pose proof (find_route_Some _ _ _ _ Hroute) as (Hr & _). split.
  { by apply (unguarded_routes rt cfg). }
  intros header. unfold app.
  change (serve_static cfg (with_authorization header req))
    with (serve_static cfg req).
  destruct (serve_static cfg req); [done|]. unfold router.
  rewrite (find_route_ext _ (with_authorization header req) req) by done.
  rewrite Hroute. unfold run_route. rewrite Hpublic.
  by apply (handlers_read rt cfg r Hr).
Qed.

(** The theorem at the health check with a forged token. *)
Lemma X26_public_routes_witness :
  let req := sample.request GET ["api"; "health"] None [] in
  status (app sample.rt sample.cfg sample.env
            (with_authorization (Some "Bearer forged") req) seed.db).1 = 200%nat.
Proof.
  intros req.
  destruct (X26_public_routes sample.rt sample.cfg sample.env req seed.db
              {| route_method := GET; route_guarded := false;
                 route_handler := health sample.rt;
                 route_pattern := at_path [lit "api"; lit "health"] |} ∅
              eq_refl eq_refl) as [_ H].
  rewrite H. vm_compute. reflexivity.
Defined.
